(** * Grade consolidation and ranking engine of the classroom sync

    A shallow embedding of [src/b4os-backend/src/lib/classroom_sync.py]
    (class [ClassroomSupabaseSync]): the resolution-time calculation, the
    in-memory processing of grade extracts, the three table syncs and the
    leaderboard refresh, with the theorems that settle the specification's
    claims about them; then the GitHub side (the listings of the command
    line, the repository lookup), the configuration and the whole run,
    with further properties of the code. *)

From Stdlib Require Import ZArith List String Ascii Lia Bool.
From Stdlib Require Import Sorting.Sorted Sorting.Permutation.
From stdpp Require Import base option list gmap strings fin_maps.

Local Open Scope string_scope.
Local Open Scope list_scope.
Local Open Scope Z_scope.

(** ** Python numbers

    Python's [int] is unbounded: [Z].  Its [float] is IEEE binary64; the
    float operations the program performs ([int / int], [float * int],
    [float / int] and [round]/[int] of a float) are correctly rounded,
    so each is the exact rational result followed by one rounding to the
    nearest double, ties to even.  A finite double is kept as a mantissa
    and a binary exponent. *)

Module PyFloat.

(** [rne n d]: the integer nearest to [n / d] (for [0 < d]), ties going
    to the even neighbour. *)
Definition rne (n d : Z) : Z :=
  let q := n / d in
  let r := n mod d in
  if 2 * r <? d then q
  else if d <? 2 * r then q + 1
  else if Z.even q then q else q + 1.

(** [ilog2 n d]: the floor of the binary logarithm of [n / d], for
    positive [n] and [d]. *)
Definition ilog2 (n d : Z) : Z :=
  let k := Z.log2 n - Z.log2 d in
  if 0 <=? k
  then (if n <? d * 2 ^ k then k - 1 else k)
  else (if n * 2 ^ (- k) <? d then k - 1 else k).

(** A finite double [mant * 2 ^ expo]. *)
Record t : Type := mk { mant : Z; expo : Z }.

(** The double nearest to [n / d] ([0 < d]), before the range check:
    53 bits of mantissa, exponent no lower than that of the subnormals. *)
Definition nearest (n d : Z) : t :=
  if n =? 0 then mk 0 0
  else
    let a := Z.abs n in
    let e := Z.max (ilog2 a d - 52) (-1074) in
    let m := if 0 <=? e then rne a (d * 2 ^ e) else rne (a * 2 ^ (- e)) d in
    mk (Z.sgn n * m) e.

(** Whether a rounded value is still a finite double (below [2 ^ 1024] in
    magnitude); otherwise the operation overflows. *)
Definition finite (x : t) : bool :=
  if 0 <=? expo x
  then Z.abs (mant x) * 2 ^ expo x <? 2 ^ 1024
  else true.

(** Numerator and denominator of the exact value of a double. *)
Definition num (x : t) : Z := if 0 <=? expo x then mant x * 2 ^ expo x else mant x.
Definition den (x : t) : Z := if 0 <=? expo x then 1 else 2 ^ (- expo x).

(** [a / b] on two ints, [0 < b]: the correctly rounded quotient;
    [None] is Python's OverflowError (result too large for a float). *)
Definition truediv (a b : Z) : option t :=
  let x := nearest a b in
  if finite x then Some x else None.

(** [x * k] for a float [x] and an int [k]; [None] stands for the
    infinity an overflowing product yields. *)
Definition mul_int (x : t) (k : Z) : option t :=
  let y := nearest (num x * k) (den x) in
  if finite y then Some y else None.

(** [x / k] for a float [x] and a positive int [k]: the quotient of a
    finite double by an integer is never out of range. *)
Definition div_int (x : t) (k : Z) : t := nearest (num x) (den x * k).

(** [round(x)]: nearest integer, ties to even. *)
Definition round (x : t) : Z := rne (num x) (den x).

(** [int(x)]: truncation toward zero. *)
Definition trunc (x : t) : Z := Z.quot (num x) (den x).

End PyFloat.

(** [round((total_score / total_possible) * 100) if total_possible > 0
    else 0].  [None] is the OverflowError raised when the quotient or the
    product leaves the range of a float. *)
Definition percentage_of (total_score total_possible : Z) : option Z :=
  if 0 <? total_possible then
    match PyFloat.truediv total_score total_possible with
    | None => None
    | Some q =>
        match PyFloat.mul_int q 100 with
        | None => None
        | Some p => Some (PyFloat.round p)
        end
    end
  else Some 0.


(** ** Python strings (ASCII text) *)

Definition is_space (c : ascii) : bool :=
  let n := Z.of_nat (nat_of_ascii c) in
  ((9 <=? n) && (n <=? 13)) || ((28 <=? n) && (n <=? 32)).

Definition is_upper (c : ascii) : bool :=
  let n := Z.of_nat (nat_of_ascii c) in (65 <=? n) && (n <=? 90).

Definition is_lower (c : ascii) : bool :=
  let n := Z.of_nat (nat_of_ascii c) in (97 <=? n) && (n <=? 122).

Definition is_digit (c : ascii) : bool :=
  let n := Z.of_nat (nat_of_ascii c) in (48 <=? n) && (n <=? 57).

Definition hyphen : ascii := "-"%char.

Definition lower_char (c : ascii) : ascii :=
  if is_upper c then ascii_of_nat (nat_of_ascii c + 32) else c.

(** [s.lower()] *)
Fixpoint lower (s : string) : string :=
  match s with
  | EmptyString => EmptyString
  | String c t => String (lower_char c) (lower t)
  end.

Fixpoint string_filter (keep : ascii -> bool) (s : string) : string :=
  match s with
  | EmptyString => EmptyString
  | String c t => if keep c then String c (string_filter keep t) else string_filter keep t
  end.

Fixpoint string_rev_onto (acc s : string) : string :=
  match s with
  | EmptyString => acc
  | String c t => string_rev_onto (String c acc) t
  end.

Definition string_rev (s : string) : string := string_rev_onto EmptyString s.

Fixpoint lstrip (drop : ascii -> bool) (s : string) : string :=
  match s with
  | EmptyString => EmptyString
  | String c t => if drop c then lstrip drop t else s
  end.

(** [s.strip()] and [s.strip('-')] *)
Definition strip_chars (drop : ascii -> bool) (s : string) : string :=
  string_rev (lstrip drop (string_rev (lstrip drop s))).

Definition strip (s : string) : string := strip_chars is_space s.

(** [sub in s] *)
Fixpoint contains (sub s : string) : bool :=
  if String.prefix sub s then true
  else match s with
       | EmptyString => false
       | String _ t => contains sub t
       end.

(** [s.replace('Z', '+00:00')] *)
Fixpoint replace_Z (s : string) : string :=
  match s with
  | EmptyString => EmptyString
  | String c t =>
      if Ascii.eqb c "Z"%char then ("+00:00" ++ replace_Z t)%string
      else String c (replace_Z t)
  end.

(** [re.sub(r'\s+', '-', s)]: every maximal run of whitespace becomes
    one hyphen.  [in_run] tells that the previous character was
    whitespace. *)
Fixpoint sub_spaces (in_run : bool) (s : string) : string :=
  match s with
  | EmptyString => EmptyString
  | String c t =>
      if is_space c
      then (if in_run then sub_spaces true t else String hyphen (sub_spaces true t))
      else String c (sub_spaces false t)
  end.

(** [re.sub(r'-+', '-', s)] *)
Fixpoint sub_hyphens (in_run : bool) (s : string) : string :=
  match s with
  | EmptyString => EmptyString
  | String c t =>
      if Ascii.eqb c hyphen
      then (if in_run then sub_hyphens true t else String hyphen (sub_hyphens true t))
      else String c (sub_hyphens false t)
  end.

(** ** Exceptions *)

Inductive exn_class : Type :=
| ValueError | TypeError | KeyError | OverflowError
| DataValidationError | APIError | SupabaseSyncError | OtherError.

Record exn : Type := Exn { exn_cls : exn_class; exn_msg : string }.

Inductive outcome (A : Type) : Type :=
| Ok (a : A)
| Raise (e : exn).
Arguments Ok {A} a.
Arguments Raise {A} e.

Definition exn_class_eqb (a b : exn_class) : bool :=
  match a, b with
  | ValueError, ValueError | TypeError, TypeError | KeyError, KeyError
  | OverflowError, OverflowError | DataValidationError, DataValidationError
  | APIError, APIError | SupabaseSyncError, SupabaseSyncError
  | OtherError, OtherError => true
  | _, _ => false
  end.


(** ** Repository timestamps

    A parsed [datetime], at Python's resolution of one microsecond: the
    wall-clock reading in microseconds since 0001-01-01T00:00:00, and
    the UTC offset, in microseconds, when the text carried one. *)

Record datetime : Type := { wall : Z; utcoffset : option Z }.

(** [updated - created], a [timedelta], in microseconds; Python refuses
    to subtract an offset-aware and an offset-naive datetime. *)
Definition datetime_sub (updated created : datetime) : outcome Z :=
  match utcoffset updated, utcoffset created with
  | None, None => Ok (wall updated - wall created)
  | Some ou, Some oc => Ok ((wall updated - ou) - (wall created - oc))
  | _, _ => Raise (Exn TypeError "can't subtract offset-naive and offset-aware datetimes")
  end.

(** [timedelta.total_seconds()]: the microseconds of the difference over
    [10**6], an [int / int] division, so a float. *)
Definition total_seconds (microseconds : Z) : option PyFloat.t :=
  PyFloat.truediv microseconds (10 ^ 6).

(** [not s] for an optional text column: [None] and [''] are falsy. *)
Definition falsy_text (s : option string) : bool :=
  match s with
  | None => true
  | Some s => String.eqb s ""
  end.

(** ** Cells of a grade extract

    What [pd.read_csv] leaves in a cell of the points columns: a number
    (integral, or a finite float), a missing value, an infinity, or, in
    a column that did not parse as numbers, text. *)

Inductive cell : Type :=
| CInt (z : Z)
| CFloat (x : PyFloat.t)
| CNaN
| CInf
| CText (s : string).

(** [pd.notna] *)
Definition notna (c : cell) : bool :=
  match c with CNaN => false | _ => true end.

(** Decimal digits of an [int(...)] literal: single underscores may
    separate digits. *)
Fixpoint int_digits (acc : Z) (after_digit : bool) (s : string) : option Z :=
  match s with
  | EmptyString => if after_digit then Some acc else None
  | String c t =>
      if is_digit c
      then int_digits (10 * acc + (Z.of_nat (nat_of_ascii c) - 48)) true t
      else if Ascii.eqb c "_"%char && after_digit
           then match t with
                | String d _ => if is_digit d then int_digits acc false t else None
                | EmptyString => None
                end
           else None
  end.

(** [int(s)] for a text: surrounding whitespace, an optional sign,
    digits.  [None] is Python's ValueError. *)
Definition int_of_text (s : string) : option Z :=
  match strip s with
  | String "-"%char t => option_map Z.opp (int_digits 0 false t)
  | String "+"%char t => int_digits 0 false t
  | t => int_digits 0 false t
  end.

(** [int(c)] *)
Definition py_int (c : cell) : outcome Z :=
  match c with
  | CInt z => Ok z
  | CFloat x => Ok (PyFloat.trunc x)
  | CNaN => Raise (Exn ValueError "cannot convert float NaN to integer")
  | CInf => Raise (Exn OverflowError "cannot convert float infinity to integer")
  | CText s =>
      match int_of_text s with
      | Some z => Ok z
      | None => Raise (Exn ValueError "invalid literal for int() with base 10")
      end
  end.

(** The [student_repository_url] of a row, as [row.get(..., '')] reads
    it: the default [''] when the extract has no such column, a missing
    value, or the text. *)
Inductive url_cell : Type :=
| UrlDefault
| UrlNaN
| UrlText (s : string).

(** Truth value of a url cell: a missing value (a float NaN) is truthy. *)
Definition url_truthy (u : url_cell) : bool :=
  match u with
  | UrlDefault => false
  | UrlNaN => true
  | UrlText s => negb (String.eqb s "")
  end.

(** One row of a validated grade extract ([_validate_grades_dataframe]
    has checked that the three required columns exist and that no
    username is null).  A missing [points_available] is [None]. *)
Module Row.
Record t : Type := mk {
  github_username : string;
  points_awarded : cell;
  points_available : option Z;
  student_repository_url : url_cell
}.
End Row.

(** A row of the consolidated grades frame. *)
Module GradeRow.
Record t : Type := mk {
  github_username : string;
  assignment_name : string;
  points_awarded : cell
}.
End GradeRow.

(** What [get_repository_info] returns on success. *)
Module RepoInfo.
Record t : Type := mk {
  created_at : option string;
  updated_at : option string;
  is_fork : bool
}.
End RepoInfo.

(** An entry of [students_with_repo_info]. *)
Module StudentInfo.
Record t : Type := mk {
  github_username : string;
  fork_created_at : option string;
  last_updated_at : option string;
  resolution_time_hours : option Z;
  has_fork : bool
}.
End StudentInfo.

(** An entry of [assignment_info]. *)
Module AssignmentInfo.
Record t : Type := mk {
  name : string;
  points_available : option Z
}.
End AssignmentInfo.

(** ** The store

    Four tables.  The [updated_at] column the syncs stamp with the time
    of the write is left out: nothing reads it. *)

Module Student.
Record t : Type := mk {
  github_username : string;
  fork_created_at : option string;
  last_updated_at : option string;
  resolution_time_hours : option Z;
  has_fork : option bool
}.
End Student.

(** The record [sync_students_to_supabase] sends: the three optional
    columns are present only when the student has them. *)
Module StudentRecord.
Record t : Type := mk {
  github_username : string;
  fork_created_at : option string;
  last_updated_at : option string;
  resolution_time_hours : option Z
}.
End StudentRecord.

Module Assignment.
Record t : Type := mk {
  name : string;
  points_available : option Z
}.
End Assignment.

Module Grade.
Record t : Type := mk {
  github_username : string;
  assignment_name : string;
  points_awarded : option Z
}.
End Grade.

(** A row of [admin_leaderboard]; [ranking_position] is [None] until
    the ranking loop sets the key. *)
Module Entry.
Record t : Type := mk {
  github_username : string;
  fork_created_at : option string;
  last_updated_at : option string;
  resolution_time_hours : option Z;
  has_fork : option bool;
  total_score : Z;
  total_possible : Z;
  percentage : Z;
  assignments_completed : Z;
  ranking_position : option Z
}.
End Entry.

Record store : Type := mk_store {
  students : list Student.t;
  assignments : list Assignment.t;
  grades : list Grade.t;
  admin_leaderboard : list Entry.t
}.

(** The requests the program sends to the store. *)
Inductive call : Type :=
| SelectStudents
| SelectGrades
| SelectAssignments
| DeleteLeaderboard
| InsertLeaderboard (batch : list Entry.t)
| UpsertLeaderboard (row : Entry.t)
| UpsertStudents (rows : list StudentRecord.t)
| UpsertAssignments (rows : list Assignment.t)
| UpsertGrades (rows : list Grade.t).

(** *** Tables with a unique key

    A table is the list of its rows.  [write p old] is the row a payload
    [p] leaves: a new row when [old] is [None], the updated row
    otherwise. *)

Section Table.
Context {P R K : Type} `{EqDecision K}.
Variable key_p : P -> K.
Variable key_r : R -> K.
Variable write : P -> option R -> R.

Definition has_key (k : K) (tbl : list R) : bool :=
  existsb (fun r => bool_decide (key_r r = k)) tbl.

Fixpoint upsert_row (p : P) (tbl : list R) : list R :=
  match tbl with
  | [] => [write p None]
  | r :: t =>
      if bool_decide (key_r r = key_p p)
      then write p (Some r) :: t
      else r :: upsert_row p t
  end.

Fixpoint distinct_keys (ps : list P) : bool :=
  match ps with
  | [] => true
  | p :: t => negb (existsb (fun q => bool_decide (key_p q = key_p p)) t) && distinct_keys t
  end.

(** [upsert(rows, on_conflict=key)]: one statement; it is refused when
    two of its rows have the same key. *)
Definition upsert_rows (ps : list P) (tbl : list R) : option (list R) :=
  if distinct_keys ps
  then Some (fold_left (fun t p => upsert_row p t) ps tbl)
  else None.

(** [insert(rows)]: one statement; it is refused when a key is already
    in the table or occurs twice in the rows. *)
Definition insert_rows (ps : list P) (tbl : list R) : option (list R) :=
  if distinct_keys ps && forallb (fun p => negb (has_key (key_p p) tbl)) ps
  then Some (tbl ++ map (fun p => write p None) ps)
  else None.

End Table.

(** The row each kind of payload leaves in its table.  A leaderboard
    row, an assignment and a grade carry every column; a student record
    carries some, the others keeping their stored value (NULL in a new
    row). *)
Definition write_entry (p : Entry.t) (old : option Entry.t) : Entry.t := p.

Definition write_assignment (p : Assignment.t) (old : option Assignment.t)
  : Assignment.t := p.

Definition write_grade (p : Grade.t) (old : option Grade.t) : Grade.t := p.

Definition keep {A : Type} (new stored : option A) : option A :=
  match new with
  | Some v => Some v
  | None => stored
  end.

Definition write_student (p : StudentRecord.t) (old : option Student.t)
  : Student.t :=
  match old with
  | None =>
      Student.mk (StudentRecord.github_username p)
        (StudentRecord.fork_created_at p) (StudentRecord.last_updated_at p)
        (StudentRecord.resolution_time_hours p) None
  | Some r =>
      Student.mk (Student.github_username r)
        (keep (StudentRecord.fork_created_at p) (Student.fork_created_at r))
        (keep (StudentRecord.last_updated_at p) (Student.last_updated_at r))
        (keep (StudentRecord.resolution_time_hours p) (Student.resolution_time_hours r))
        (Student.has_fork r)
  end.

Definition grade_key (g : Grade.t) : string * string :=
  (Grade.github_username g, Grade.assignment_name g).

Definition unique_violation : exn :=
  Exn APIError "duplicate key value violates unique constraint".

Definition second_time_violation : exn :=
  Exn APIError "ON CONFLICT DO UPDATE command cannot affect row a second time".

(** ** Logging and the state of a run

    The log keeps the warnings and the errors; progress messages at INFO
    and DEBUG level are left out, and so are the attempt and batch
    numbers the source puts in the text of a message. *)

Inductive log_level : Type := WARNING | ERROR.

Record log_record : Type := { level : log_level; message : string }.

Record state : Type := mk_state {
  db : store;
  journal : list (call * option exn);
  logs : list log_record
}.

(** Computations that read and write the state and may raise. *)
Definition M (A : Type) : Type := state -> outcome A * state.

#[local] Instance M_ret : MRet M := fun A a st => (Ok a, st).

#[local] Instance M_bind : MBind M := fun A B f m st =>
  match m st with
  | (Ok a, st') => f a st'
  | (Raise e, st') => (Raise e, st')
  end.

Definition raise {A : Type} (e : exn) : M A := fun st => (Raise e, st).

(** [try: m except Exception as e: handler e] *)
Definition catch {A : Type} (m : M A) (handler : exn -> M A) : M A :=
  fun st =>
    match m st with
    | (Ok a, st') => (Ok a, st')
    | (Raise e, st') => handler e st'
    end.

Definition log (l : log_level) (msg : string) : M unit :=
  fun st => (Ok tt, mk_state (db st) (journal st) (logs st ++ [Build_log_record l msg])).

(** [for x in xs: body x] *)
Fixpoint for_each {A : Type} (xs : list A) (body : A -> M unit) : M unit :=
  match xs with
  | [] => mret tt
  | x :: t => body x ;; for_each t body
  end.

(** A loop that builds a list with [append]. *)
Fixpoint collect {A B : Type} (xs : list A) (body : A -> M B) : M (list B) :=
  match xs with
  | [] => mret []
  | x :: t => b ← body x; bs ← collect t body; mret (b :: bs)
  end.

Definition lift_option {A : Type} (o : option A) (e : exn) : M A :=
  match o with
  | Some a => mret a
  | None => raise e
  end.

(** ** [format_assignment_name] *)

Definition slug_char (c : ascii) : bool :=
  is_lower c || is_digit c || is_space c || Ascii.eqb c hyphen.

Definition format_assignment_name (name : string) : outcome string :=
  if String.eqb name ""
  then Raise (Exn DataValidationError "Assignment name must be a non-empty string")
  else
    let formatted := lower name in
    let formatted := string_filter slug_char formatted in
    let formatted := sub_spaces false formatted in
    let formatted := sub_hyphens false formatted in
    Ok (strip_chars (Ascii.eqb hyphen) formatted).

(** ** Points of an assignment (in [process_assignments_in_memory]) *)

(** [df['points_available'].max()]: missing values are skipped; a column
    with no value has a missing maximum. *)
Definition column_max (column : list (option Z)) : option Z :=
  fold_left
    (fun acc c =>
       match acc, c with
       | Some m, Some v => Some (Z.max m v)
       | None, Some v => Some v
       | _, None => acc
       end)
    column None.

(** [df[df['points_available'] > 0]['points_available']] *)
Definition non_zero_points (column : list (option Z)) : list Z :=
  omap (fun c => match c with
                 | Some v => if 0 <? v then Some v else None
                 | None => None
                 end) column.

(** [column] is [None] when the frame has no [points_available] column. *)
Definition resolve_points_available (formatted_name : string)
    (column : option (list (option Z))) : option Z :=
  match column with
  | Some column =>
      let points_available := column_max column in
      if match points_available with
         | Some m => m =? 0
         | None => true
         end
      then
        match non_zero_points column with
        | p :: _ => Some p
        | [] =>
            if contains "part-2" (lower formatted_name)
            then Some 100
            else None
        end
      else points_available
  | None => None
  end.

(** ** Leaderboard arithmetic (in [refresh_admin_leaderboard]) *)

Definition sum_Z (l : list Z) : Z := fold_right Z.add 0 l.

(** Truth value of an optional integer: [None] and [0] are falsy. *)
Definition truthy_Z (p : option Z) : bool :=
  match p with
  | Some z => negb (z =? 0)
  | None => false
  end.

(** [{a['name']: a['points_available'] for a in ... if a['points_available']}] *)
Definition assignment_points_of (rows : list Assignment.t) : gmap string Z :=
  fold_left
    (fun d a =>
       match Assignment.points_available a with
       | Some p => if p =? 0 then d else <[Assignment.name a := p]> d
       | None => d
       end)
    rows ∅.

(** [[g for g in grades if g['github_username'] == github_username]] *)
Definition student_grades_of (github_username : string) (grades : list Grade.t)
  : list Grade.t :=
  filter (fun g => Grade.github_username g = github_username) grades.

(** [sum(grade['points_awarded'] for grade in student_grades if grade['points_awarded'])] *)
Definition total_score_of (student_grades : list Grade.t) : Z :=
  sum_Z (omap (fun g => if truthy_Z (Grade.points_awarded g)
                        then Grade.points_awarded g else None) student_grades).

(** [sum(assignment_points.get(grade['assignment_name'], 0) for grade in student_grades)] *)
Definition total_possible_of (assignment_points : gmap string Z)
    (student_grades : list Grade.t) : Z :=
  sum_Z (map (fun g => default 0 (assignment_points !! Grade.assignment_name g))
             student_grades).

(** [len(set(grade['assignment_name'] for grade in student_grades))] *)
Definition assignments_completed_of (student_grades : list Grade.t) : Z :=
  let unique_assignments : gset string :=
    list_to_set (map Grade.assignment_name student_grades) in
  Z.of_nat (size unique_assignments).

(** ** Ranking *)

(** The sort key: resolution time or 999999, negated percentage,
    username. *)
Definition sort_key (x : Entry.t) : Z * Z * string :=
  (match Entry.resolution_time_hours x with
   | Some h => h
   | None => 999999
   end,
   - Entry.percentage x,
   Entry.github_username x).

(** Python's [<] on two such tuples. *)
Definition key_ltb (a b : Z * Z * string) : bool :=
  let '(a1, a2, a3) := a in
  let '(b1, b2, b3) := b in
  if negb (a1 =? b1) then a1 <? b1
  else if negb (a2 =? b2) then a2 <? b2
  else String.ltb a3 b3.

(** [list.sort(key=...)] is a stable sort; it is rendered as the stable
    insertion sort (an element goes before the first one that does not
    precede it). *)
Section Sort.
Context {A K : Type}.
Variable key : A -> K.
Variable ltb : K -> K -> bool.

Fixpoint insert_sorted (x : A) (l : list A) : list A :=
  match l with
  | [] => [x]
  | y :: t =>
      if ltb (key y) (key x) then y :: insert_sorted x t
      else x :: y :: t
  end.

Fixpoint list_sort (l : list A) : list A :=
  match l with
  | [] => []
  | x :: t => insert_sorted x (list_sort t)
  end.

(** A list is in key order when none of its elements is preceded by a
    later one. *)
Definition key_sorted (l : list A) : Prop :=
  StronglySorted (fun a b => ltb (key b) (key a) = false) l.

End Sort.

(** [for i, student in enumerate(leaderboard_data, 1):
       student['ranking_position'] = i] *)
Definition set_ranking_position (i : Z) (student : Entry.t) : Entry.t :=
  Entry.mk (Entry.github_username student) (Entry.fork_created_at student)
    (Entry.last_updated_at student) (Entry.resolution_time_hours student)
    (Entry.has_fork student) (Entry.total_score student)
    (Entry.total_possible student) (Entry.percentage student)
    (Entry.assignments_completed student) (Some i).

Fixpoint add_ranking_positions (i : Z) (leaderboard_data : list Entry.t)
  : list Entry.t :=
  match leaderboard_data with
  | [] => []
  | student :: t => set_ranking_position i student :: add_ranking_positions (i + 1) t
  end.

(** The sorted and numbered leaderboard. *)
Definition rank (leaderboard_data : list Entry.t) : list Entry.t :=
  add_ranking_positions 1 (list_sort sort_key key_ltb leaderboard_data).

(** [range(0, n, step)] and the slice [data[i:i + step]] *)
Definition range_step (n step : nat) : list nat :=
  map (fun j => (j * step)%nat) (seq 0 ((n + step - 1) / step)%nat).

Definition slice {A : Type} (data : list A) (i step : nat) : list A :=
  firstn step (skipn i data).

Definition batch_size : nat := 10.

Definition batches {A : Type} (data : list A) : list (list A) :=
  map (fun i => slice data i batch_size) (range_step (length data) batch_size).

(** ** The methods of [ClassroomSupabaseSync] *)

Section Sync.

(** The [n]-th request to the store may fail for reasons of its own
    (network, access policy, a record the store rejects): [fault n c] is
    the exception it then raises. *)
Variable fault : nat -> call -> option exn.

(** [datetime.datetime.fromisoformat] is Python's; [None] is its
    ValueError. *)
Variable fromisoformat : string -> option datetime.

(** The repository interface (an HTTP lookup); [None] is any of its soft
    failures. *)
Variable get_repository_info : url_cell -> option RepoInfo.t.

(** The grade extract interface: the validated frame of an assignment,
    or [None]. *)
Variable download_grades_to_dataframe : string -> option (list Row.t).

(** [self.config.max_retries] *)
Variable max_retries : Z.

(** *** Requests *)

(** One request: the journal records it with its failure, if any; the
    store changes only when it succeeds. *)
Definition execute {A : Type} (c : call) (run : store -> outcome (A * store)) : M A :=
  fun st =>
    match fault (length (journal st)) c with
    | Some e => (Raise e, mk_state (db st) (journal st ++ [(c, Some e)]) (logs st))
    | None =>
        match run (db st) with
        | Ok (a, db') => (Ok a, mk_state db' (journal st ++ [(c, None)]) (logs st))
        | Raise e => (Raise e, mk_state (db st) (journal st ++ [(c, Some e)]) (logs st))
        end
    end.

Definition select_students : M (list Student.t) :=
  execute SelectStudents (fun s => Ok (students s, s)).

Definition select_grades : M (list Grade.t) :=
  execute SelectGrades (fun s => Ok (grades s, s)).

Definition select_assignments : M (list Assignment.t) :=
  execute SelectAssignments (fun s => Ok (assignments s, s)).

(** [table('admin_leaderboard').delete().neq('id', <nil uuid>)]: every
    row goes (no row has the nil id). *)
Definition delete_leaderboard : M unit :=
  execute DeleteLeaderboard
    (fun s => Ok (tt, mk_store (students s) (assignments s) (grades s) [])).

Definition insert_leaderboard (batch : list Entry.t) : M unit :=
  execute (InsertLeaderboard batch)
    (fun s =>
       match insert_rows Entry.github_username Entry.github_username write_entry
               batch (admin_leaderboard s) with
       | Some t => Ok (tt, mk_store (students s) (assignments s) (grades s) t)
       | None => Raise unique_violation
       end).

Definition upsert_leaderboard (row : Entry.t) : M unit :=
  execute (UpsertLeaderboard row)
    (fun s =>
       match upsert_rows Entry.github_username Entry.github_username write_entry
               [row] (admin_leaderboard s) with
       | Some t => Ok (tt, mk_store (students s) (assignments s) (grades s) t)
       | None => Raise second_time_violation
       end).

Definition upsert_students (rows : list StudentRecord.t) : M unit :=
  execute (UpsertStudents rows)
    (fun s =>
       match upsert_rows StudentRecord.github_username Student.github_username
               write_student rows (students s) with
       | Some t => Ok (tt, mk_store t (assignments s) (grades s) (admin_leaderboard s))
       | None => Raise second_time_violation
       end).

Definition upsert_assignments (rows : list Assignment.t) : M unit :=
  execute (UpsertAssignments rows)
    (fun s =>
       match upsert_rows Assignment.name Assignment.name write_assignment
               rows (assignments s) with
       | Some t => Ok (tt, mk_store (students s) t (grades s) (admin_leaderboard s))
       | None => Raise second_time_violation
       end).

Definition upsert_grades (rows : list Grade.t) : M unit :=
  execute (UpsertGrades rows)
    (fun s =>
       match upsert_rows grade_key grade_key write_grade rows (grades s) with
       | Some t => Ok (tt, mk_store (students s) (assignments s) t (admin_leaderboard s))
       | None => Raise second_time_violation
       end).

(** *** [calculate_resolution_time] *)

Definition parse_timestamp (s : string) : outcome datetime :=
  match fromisoformat (replace_Z s) with
  | Some d => Ok d
  | None => Raise (Exn ValueError "Invalid isoformat string")
  end.

(** The body of the [try]. *)
Definition calculate_resolution_time_try (created_at updated_at : option string)
  : outcome (option Z) :=
  if falsy_text created_at || falsy_text updated_at then Ok None
  else
    match created_at, updated_at with
    | Some c, Some u =>
        match parse_timestamp c with
        | Raise e => Raise e
        | Ok created =>
            match parse_timestamp u with
            | Raise e => Raise e
            | Ok updated =>
                match datetime_sub updated created with
                | Raise e => Raise e
                | Ok time_diff =>
                    match total_seconds time_diff with
                    | None => Raise (Exn OverflowError "integer division result too large for a float")
                    | Some ts => Ok (Some (PyFloat.trunc (PyFloat.div_int ts 3600)))
                    end
                end
            end
        end
    | _, _ => Ok None
    end.

(** The value the method returns: [except Exception] turns every failure
    of the body into [None]. *)
Definition resolution_time_of (created_at updated_at : option string) : option Z :=
  match calculate_resolution_time_try created_at updated_at with
  | Ok r => r
  | Raise _ => None
  end.

(** The method: it never raises; a failure of the body is logged. *)
Definition calculate_resolution_time (created_at updated_at : option string)
  : M (option Z) :=
  match calculate_resolution_time_try created_at updated_at with
  | Ok r => mret r
  | Raise e =>
      log ERROR ("Error calculating resolution time: " ++ exn_msg e)%string ;;
      mret None
  end.

(** *** [refresh_admin_leaderboard] *)

(** The body of the loop over [students_result.data]: the entry of one
    student. *)
Definition leaderboard_entry (grades_data : list Grade.t)
    (assignment_points : gmap string Z) (student : Student.t) : M Entry.t :=
  let github_username := Student.github_username student in
  let has_fork := Student.has_fork student in
  let student_grades := student_grades_of github_username grades_data in
  let total_score := total_score_of student_grades in
  let total_possible := total_possible_of assignment_points student_grades in
  percentage ← lift_option (percentage_of total_score total_possible)
                 (Exn OverflowError "integer division result too large for a float");
  let assignments_completed := assignments_completed_of student_grades in
  resolution_time_hours ←
    (if default false has_fork
     then calculate_resolution_time (Student.fork_created_at student)
            (Student.last_updated_at student)
     else mret None);
  mret (Entry.mk github_username (Student.fork_created_at student)
          (Student.last_updated_at student) resolution_time_hours has_fork
          total_score total_possible percentage assignments_completed None).

(** The clear step: its failure is logged and the run goes on. *)
Definition clear_leaderboard : M unit :=
  catch delete_leaderboard
    (fun e => log WARNING ("Could not clear existing data: " ++ exn_msg e)%string).

(** One batch: a plain insert of the batch and, when it fails, an upsert
    of each of its rows, whose failure is logged and skipped. *)
Definition write_batch (batch : list Entry.t) : M unit :=
  catch (insert_leaderboard batch)
    (fun e =>
       log ERROR ("Failed to insert batch: " ++ exn_msg e)%string ;;
       for_each batch
         (fun student =>
            catch (upsert_leaderboard student)
              (fun individual_error =>
                 log ERROR ("Failed to insert individual student "
                            ++ Entry.github_username student ++ ": "
                            ++ exn_msg individual_error)%string))).

Definition refresh_admin_leaderboard_try : M unit :=
  students_data ← select_students;
  match students_data with
  | [] => log WARNING "No students found for leaderboard"
  | _ =>
      grades_data ← select_grades;
      assignments_data ← select_assignments;
      let assignment_points := assignment_points_of assignments_data in
      leaderboard_data ←
        collect students_data (leaderboard_entry grades_data assignment_points);
      let leaderboard_data := rank leaderboard_data in
      clear_leaderboard ;;
      for_each (batches leaderboard_data) write_batch
  end.

Definition refresh_admin_leaderboard : M unit :=
  catch refresh_admin_leaderboard_try
    (fun e =>
       log ERROR ("Failed to refresh admin leaderboard: " ++ exn_msg e)%string ;;
       raise (Exn SupabaseSyncError
                ("Failed to refresh admin leaderboard: " ++ exn_msg e)%string)).

(** *** The retry loop of the three table syncs

    [for attempt in range(max_retries)]: the request is sent; success
    returns from the method; a failure is logged and, on the last
    attempt, raised as a SupabaseSyncError. *)
Definition sync_failure (what : string) (e : exn) : exn :=
  if exn_class_eqb (exn_cls e) APIError
  then Exn SupabaseSyncError
         ("Failed to sync " ++ what ++ " after retries: " ++ exn_msg e)%string
  else Exn SupabaseSyncError ("Failed to sync " ++ what ++ ": " ++ exn_msg e)%string.

Fixpoint retry (what : string) (request : M unit) (attempts : list nat) : M unit :=
  match attempts with
  | [] => mret tt
  | attempt :: rest =>
      catch request
        (fun e =>
           log ERROR ("Error syncing " ++ what ++ ": " ++ exn_msg e)%string ;;
           if Z.of_nat attempt =? max_retries - 1
           then raise (sync_failure what e)
           else retry what request rest)
  end.

Definition range (n : Z) : list nat := seq 0 (Z.to_nat n).

(** *** [sync_students_to_supabase] *)

(** [if key in student and student[key]] for a text column *)
Definition present_text (s : option string) : option string :=
  if falsy_text s then None else s.

Definition student_record (student : StudentInfo.t) : StudentRecord.t :=
  StudentRecord.mk (strip (StudentInfo.github_username student))
    (present_text (StudentInfo.fork_created_at student))
    (present_text (StudentInfo.last_updated_at student))
    (StudentInfo.resolution_time_hours student).

Definition sync_students_to_supabase (students_data : list StudentInfo.t) : M unit :=
  match students_data with
  | [] => log WARNING "No students to sync"
  | _ =>
      let supabase_data := map student_record students_data in
      retry "students" (upsert_students supabase_data) (range max_retries)
  end.

(** *** [sync_assignments_to_supabase] *)

Definition assignment_record (assignment : AssignmentInfo.t) : Assignment.t :=
  Assignment.mk (strip (AssignmentInfo.name assignment))
    (AssignmentInfo.points_available assignment).

Definition sync_assignments_to_supabase (assignments_data : list AssignmentInfo.t)
  : M unit :=
  match assignments_data with
  | [] => log WARNING "No assignments to sync"
  | _ =>
      let assignments_data := map assignment_record assignments_data in
      retry "assignments" (upsert_assignments assignments_data) (range max_retries)
  end.

(** *** [sync_grades_to_supabase] *)

(** The body of the loop over the rows: the record of the row, or
    nothing when the row raised one of the three exceptions the loop
    excepts (KeyError, ValueError, TypeError); any other exception leaves
    the loop and the method. *)
Definition grade_record (row : GradeRow.t) : M (option Grade.t) :=
  let points_awarded := GradeRow.points_awarded row in
  match (if notna points_awarded
         then match py_int points_awarded with
              | Ok z => Ok (Some z)
              | Raise e => Raise e
              end
         else Ok None) with
  | Ok p =>
      mret (Some (Grade.mk (strip (GradeRow.github_username row))
                    (strip (GradeRow.assignment_name row)) p))
  | Raise e =>
      match exn_cls e with
      | KeyError | ValueError | TypeError =>
          log ERROR ("Invalid grade data: " ++ GradeRow.github_username row
                     ++ ", Error: " ++ exn_msg e)%string ;;
          mret None
      | _ => raise e
      end
  end.

Definition sync_grades_to_supabase (grades_df : list GradeRow.t) : M unit :=
  match grades_df with
  | [] => log WARNING "No grades to sync"
  | _ =>
      records ← collect grades_df grade_record;
      let grades_data := omap id records in
      match grades_data with
      | [] => log WARNING "No valid grades data to sync"
      | _ => retry "grades" (upsert_grades grades_data) (range max_retries)
      end
  end.

(** *** [process_assignments_in_memory] *)

Definition no_repo_info (github_username : string) : StudentInfo.t :=
  StudentInfo.mk github_username None None None false.

Definition known (github_username : string)
    (students_with_repo_info : list (string * StudentInfo.t)) : bool :=
  existsb (fun kv => String.eqb (fst kv) github_username) students_with_repo_info.

(** The body of the loop over the rows of a frame: the dictionary
    [students_with_repo_info] after the row (an entry is only ever added,
    at the end). *)
Definition visit_row (students_with_repo_info : list (string * StudentInfo.t))
    (row : Row.t) : M (list (string * StudentInfo.t)) :=
  let github_username := strip (Row.github_username row) in
  let student_repo_url := Row.student_repository_url row in
  if negb (known github_username students_with_repo_info)
     && url_truthy student_repo_url
  then
    match get_repository_info student_repo_url with
    | Some repo_info =>
        if RepoInfo.is_fork repo_info
        then
          resolution_time ←
            calculate_resolution_time (RepoInfo.created_at repo_info)
              (RepoInfo.updated_at repo_info);
          mret (students_with_repo_info ++
                [(github_username,
                  StudentInfo.mk github_username (RepoInfo.created_at repo_info)
                    (RepoInfo.updated_at repo_info) resolution_time true)])
        else
          log WARNING ("Repository exists for " ++ github_username
                       ++ " but is NOT a fork")%string ;;
          mret (students_with_repo_info ++
                [(github_username, no_repo_info github_username)])
    | None =>
        log WARNING ("Could not get repository info for " ++ github_username
                     ++ " - no fork exists")%string ;;
        mret (students_with_repo_info ++
              [(github_username, no_repo_info github_username)])
    end
  else mret students_with_repo_info.

Fixpoint visit_rows (students_with_repo_info : list (string * StudentInfo.t))
    (rows : list Row.t) : M (list (string * StudentInfo.t)) :=
  match rows with
  | [] => mret students_with_repo_info
  | row :: t =>
      students_with_repo_info ← visit_row students_with_repo_info row;
      visit_rows students_with_repo_info t
  end.

(** The three accumulators of the loop over the assignments. *)
Record working_set : Type := mk_working_set {
  all_grades : list (list GradeRow.t);
  assignment_info : list AssignmentInfo.t;
  students_with_repo_info : list (string * StudentInfo.t)
}.

(** The body of the [try] of the loop over the assignments.  The
    accumulators are lists the source appends to in place; the one
    statement of the body that can raise, [format_assignment_name], runs
    before any of them is touched, so the handler of the loop finds them
    as the iteration found them. *)
Definition process_assignment_try (acc : working_set)
    (assignment : string * string * string) : M working_set :=
  let '(assignment_id, assignment_name, assignment_repo) := assignment in
  let no_data :=
    log WARNING ("No grades data for assignment: " ++ assignment_name)%string ;;
    mret acc in
  match download_grades_to_dataframe assignment_id with
  | None => no_data
  | Some [] => no_data
  | Some df =>
      match format_assignment_name assignment_name with
      | Raise e => raise e
      | Ok formatted_name =>
          let points_available :=
            resolve_points_available formatted_name
              (Some (map Row.points_available df)) in
          (if decide (points_available = None)
           then log WARNING ("Assignment " ++ formatted_name
                             ++ " - No non-zero points_available found")%string
           else mret tt) ;;
          let assignment_info :=
            assignment_info acc ++ [AssignmentInfo.mk formatted_name points_available] in
          let grades_df :=
            map (fun row => GradeRow.mk (Row.github_username row) formatted_name
                              (Row.points_awarded row)) df in
          students ← visit_rows (students_with_repo_info acc) df;
          mret (mk_working_set (all_grades acc ++ [grades_df]) assignment_info students)
      end
  end.

Fixpoint process_assignments (acc : working_set)
    (assignment_data : list (string * string * string)) : M working_set :=
  match assignment_data with
  | [] => mret acc
  | assignment :: t =>
      acc ←
        catch (process_assignment_try acc assignment)
          (fun e =>
             log ERROR ("Error processing assignment " ++ assignment.1.2 ++ ": "
                        ++ exn_msg e)%string ;;
             mret acc);
      process_assignments acc t
  end.

(** The four writes, in the order of the source. *)
Definition sync_to_supabase (acc : working_set) (consolidated_df : list GradeRow.t)
  : M unit :=
  sync_assignments_to_supabase (assignment_info acc) ;;
  sync_students_to_supabase (map snd (students_with_repo_info acc)) ;;
  sync_grades_to_supabase consolidated_df ;;
  refresh_admin_leaderboard.

Definition process_assignments_in_memory
    (assignment_data : list (string * string * string)) : M (list GradeRow.t) :=
  acc ← process_assignments (mk_working_set [] [] []) assignment_data;
  match all_grades acc with
  | [] =>
      log WARNING "No grades data found for any assignments" ;;
      mret []
  | _ =>
      let consolidated_df := concat (all_grades acc) in
      catch (sync_to_supabase acc consolidated_df)
        (fun e =>
           match exn_cls e with
           | SupabaseSyncError =>
               log ERROR ("Failed to sync data to Supabase: " ++ exn_msg e)%string ;;
               raise e
           | _ => raise e
           end) ;;
      mret consolidated_df
  end.

End Sync.

(** ** A reader of timestamps

    [fromisoformat] on texts of the form [YYYY-MM-DDTHH:MM:SS], with or
    without a fraction of a second of three or six digits, alone or
    followed by an offset [+HH:MM] or [-HH:MM] (the [Z] suffix has been
    replaced by then): the texts the repository interface issues, and
    their like with a fraction.  It serves to run the methods on
    concrete rows. *)

Definition digit_value (c : ascii) : option Z :=
  if is_digit c then Some (Z.of_nat (nat_of_ascii c) - 48) else None.

Fixpoint digits_value (acc : Z) (cs : list ascii) : option Z :=
  match cs with
  | [] => Some acc
  | c :: t =>
      match digit_value c with
      | Some d => digits_value (10 * acc + d) t
      | None => None
      end
  end.

Definition is_leap (y : Z) : bool :=
  ((y mod 4 =? 0) && negb (y mod 100 =? 0)) || (y mod 400 =? 0).

Definition days_in_month (y m : Z) : Z :=
  if m =? 2 then (if is_leap y then 29 else 28)
  else if (m =? 4) || (m =? 6) || (m =? 9) || (m =? 11) then 30 else 31.

Definition days_before_year (y : Z) : Z :=
  let p := y - 1 in 365 * p + p / 4 - p / 100 + p / 400.

Definition days_before_month (y m : Z) : Z :=
  sum_Z (map (days_in_month y) (map Z.of_nat (seq 1 (Z.to_nat (m - 1))))).

Definition civil_seconds (y mo d h mi s : Z) : option Z :=
  if (1 <=? y) && (y <=? 9999) && (1 <=? mo) && (mo <=? 12)
     && (1 <=? d) && (d <=? days_in_month y mo)
     && (h <=? 23) && (mi <=? 59) && (s <=? 59)
  then Some ((days_before_year y + days_before_month y mo + (d - 1)) * 86400
             + h * 3600 + mi * 60 + s)
  else None.

(** The offset of a text, in microseconds. *)
Definition parse_offset (cs : list ascii) : option (option Z) :=
  match cs with
  | [] => Some None
  | [sg; h1; h2; colon; m1; m2] =>
      if Ascii.eqb colon ":"%char then
        match digits_value 0 [h1; h2], digits_value 0 [m1; m2] with
        | Some h, Some m =>
            if (h <=? 23) && (m <=? 59) then
              if Ascii.eqb sg "+"%char then Some (Some ((h * 3600 + m * 60) * 10 ^ 6))
              else if Ascii.eqb sg "-"%char
              then Some (Some (- ((h * 3600 + m * 60) * 10 ^ 6)))
              else None
            else None
        | _, _ => None
        end
      else None
  | _ => None
  end.

(** The fraction of a second, in microseconds, and what follows it: a
    point and six digits, a point and three digits, or no fraction. *)
Definition parse_fraction (cs : list ascii) : option (Z * list ascii) :=
  match cs with
  | dot :: rest =>
      if Ascii.eqb dot "."%char then
        match (if (length (take 6 rest) =? 6)%nat
               then digits_value 0 (take 6 rest) else None) with
        | Some us => Some (us, drop 6 rest)
        | None =>
            match (if (length (take 3 rest) =? 3)%nat
                   then digits_value 0 (take 3 rest) else None) with
            | Some ms => Some (ms * 1000, drop 3 rest)
            | None => None
            end
        end
      else Some (0, cs)
  | [] => Some (0, [])
  end.

Definition fromisoformat_reader (s : string) : option datetime :=
  match list_ascii_of_string s with
  | y1 :: y2 :: y3 :: y4 :: d1 :: mo1 :: mo2 :: d2 :: dd1 :: dd2 :: sep
      :: h1 :: h2 :: c1 :: mi1 :: mi2 :: c2 :: s1 :: s2 :: rest =>
      if Ascii.eqb d1 "-"%char && Ascii.eqb d2 "-"%char
         && (Ascii.eqb sep "T"%char || Ascii.eqb sep " "%char)
         && Ascii.eqb c1 ":"%char && Ascii.eqb c2 ":"%char
      then
        match digits_value 0 [y1; y2; y3; y4], digits_value 0 [mo1; mo2],
              digits_value 0 [dd1; dd2], digits_value 0 [h1; h2],
              digits_value 0 [mi1; mi2], digits_value 0 [s1; s2],
              parse_fraction rest with
        | Some y, Some mo, Some d, Some h, Some mi, Some sec, Some (us, rest) =>
            match civil_seconds y mo d h mi sec, parse_offset rest with
            | Some w, Some off => Some (Build_datetime (w * 10 ^ 6 + us) off)
            | _, _ => None
            end
        | _, _, _, _, _, _, _ => None
        end
      else None
  | _ => None
  end.

(** ** Vocabulary of the statements *)

(** The value of a finished computation. *)
Definition value_of {A : Type} (r : outcome A) : option A :=
  match r with
  | Ok a => Some a
  | Raise _ => None
  end.

(** The range of Python's [datetime]: from 0001-01-01T00:00:00 to
    9999-12-31T23:59:59.999999, with an offset of less than a day. *)
Definition datetime_in_range (d : datetime) : Prop :=
  0 <= wall d < 315537897600 * 10 ^ 6 /\
  forall o, utcoffset d = Some o -> -86400 * 10 ^ 6 < o < 86400 * 10 ^ 6.

(** One hour, in microseconds. *)
Definition hour : Z := 3600 * 10 ^ 6.

(** [m] is the maximum of the values of a column. *)
Definition is_maximum (column : list (option Z)) (m : Z) : Prop :=
  Some m ∈ column /\ forall v, Some v ∈ column -> v <= m.

(** The column has no value. *)
Definition no_value (column : list (option Z)) : Prop :=
  forall v, Some v ∉ column.

(** [p] is the first strictly positive value of a column. *)
Definition first_positive (column : list (option Z)) (p : Z) : Prop :=
  exists before after,
    column = before ++ Some p :: after /\ 0 < p /\
    forall v, Some v ∈ before -> v <= 0.

(** The [points_available] the assignments table holds for a name; [0]
    when the name is not in the table or its points are unresolved. *)
Definition points_or_zero (assignments_data : list Assignment.t) (name : string) : Z :=
  match find (fun a => String.eqb (Assignment.name a) name) assignments_data with
  | Some a => default 0 (Assignment.points_available a)
  | None => 0
  end.

(** [only_logs m r]: whatever the state, [m] finishes with [r], sends
    nothing to the store and at most appends to the log. *)
Definition only_logs {A : Type} (m : M A) (r : outcome A) : Prop :=
  forall st, exists l,
    m st = (r, mk_state (db st) (journal st) (logs st ++ l)).

(** The outcome of a loop that builds a list: the first failure, or the
    list of the values. *)
Fixpoint all_ok {A : Type} (rs : list (outcome A)) : outcome (list A) :=
  match rs with
  | [] => Ok []
  | Raise e :: _ => Raise e
  | Ok a :: t =>
      match all_ok t with
      | Ok l => Ok (a :: l)
      | Raise e => Raise e
      end
  end.

(** The entry of a student, as a value: the loop body raises only when
    the percentage overflows. *)
Definition leaderboard_entry_result (fromisoformat : string -> option datetime)
    (grades_data : list Grade.t) (assignment_points : gmap string Z)
    (student : Student.t) : outcome Entry.t :=
  let student_grades :=
    student_grades_of (Student.github_username student) grades_data in
  let total_score := total_score_of student_grades in
  let total_possible := total_possible_of assignment_points student_grades in
  match percentage_of total_score total_possible with
  | Some percentage =>
      Ok (Entry.mk (Student.github_username student)
            (Student.fork_created_at student) (Student.last_updated_at student)
            (if default false (Student.has_fork student)
             then resolution_time_of fromisoformat (Student.fork_created_at student)
                    (Student.last_updated_at student)
             else None)
            (Student.has_fork student) total_score total_possible percentage
            (assignments_completed_of student_grades) None)
  | None => Raise (Exn OverflowError "integer division result too large for a float")
  end.

(** The entries the refresh computes from the three tables it reads. *)
Definition leaderboard_data_of (fromisoformat : string -> option datetime)
    (s : store) : outcome (list Entry.t) :=
  all_ok (map (leaderboard_entry_result fromisoformat (grades s)
                 (assignment_points_of (assignments s)))
              (students s)).

(** The two steps of [column_max] and [assignment_points_of]. *)
Definition max_step (acc c : option Z) : option Z :=
  match acc, c with
  | Some m, Some v => Some (Z.max m v)
  | None, Some v => Some v
  | _, None => acc
  end.

Definition points_step (d : gmap string Z) (a : Assignment.t) : gmap string Z :=
  match Assignment.points_available a with
  | Some p => if p =? 0 then d else <[Assignment.name a := p]> d
  | None => d
  end.

(** No table holds two rows with one key. *)
Definition unique_keys (s : store) : Prop :=
  NoDup (map Student.github_username (students s)) /\
  NoDup (map Assignment.name (assignments s)) /\
  NoDup (map grade_key (grades s)) /\
  NoDup (map Entry.github_username (admin_leaderboard s)).

Definition set_leaderboard (s : store) (t : list Entry.t) : store :=
  mk_store (students s) (assignments s) (grades s) t.

Definition is_upsert (c : call) : Prop :=
  match c with
  | UpsertStudents _ | UpsertAssignments _ | UpsertGrades _ | UpsertLeaderboard _ => True
  | _ => False
  end.

(** [respects I m]: running [m] keeps the property [I] of the store. *)
Definition respects (I : store -> Prop) {A : Type} (m : M A) : Prop :=
  forall st, I (db st) -> I (db (m st).2).

(** [sends Q m]: every request [m] sends to the store satisfies [Q]. *)
Definition sends (Q : call -> Prop) {A : Type} (m : M A) : Prop :=
  forall st, exists js,
    journal (m st).2 = journal st ++ js /\ Forall (fun e => Q e.1) js.

(** *** What a run leaves in the store

    The table a batch leaves when the store accepts the writes: the
    batch inserted or, when the insert is refused, each of its rows
    upserted. *)
Definition upsert_entries (batch tbl : list Entry.t) : list Entry.t :=
  fold_left
    (fun t p => upsert_row Entry.github_username Entry.github_username write_entry p t)
    batch tbl.

Definition batch_result (batch tbl : list Entry.t) : list Entry.t :=
  match insert_rows Entry.github_username Entry.github_username write_entry
          batch tbl with
  | Some t => t
  | None => upsert_entries batch tbl
  end.

(** The table the batches of a leaderboard leave. *)
Definition written (leaderboard_data tbl : list Entry.t) : list Entry.t :=
  fold_left (fun t b => batch_result b t) (batches leaderboard_data) tbl.

(** The requests a batch sends when the store answers the row writes:
    the insert of the batch and, when the table refuses it, the upsert
    of each row. *)
Definition batch_requests (batch tbl : list Entry.t) : list (call * option exn) :=
  match insert_rows Entry.github_username Entry.github_username write_entry
          batch tbl with
  | Some _ => [(InsertLeaderboard batch, None)]
  | None =>
      (InsertLeaderboard batch, Some unique_violation)
      :: map (fun row => (UpsertLeaderboard row, None)) batch
  end.

(** The requests of the batches, one batch after the other. *)
Fixpoint batches_requests (bs : list (list Entry.t)) (tbl : list Entry.t)
  : list (call * option exn) :=
  match bs with
  | [] => []
  | b :: t => batch_requests b tbl ++ batches_requests t (batch_result b tbl)
  end.

(** The exception a failed refresh raises. *)
Definition refresh_failure (e : exn) : exn :=
  Exn SupabaseSyncError ("Failed to refresh admin leaderboard: " ++ exn_msg e)%string.

(** The outcome and the store of a refresh whose queries and row writes
    the store answers; [clears] tells whether the clear step succeeds. *)
Definition refresh_effect_with (clears : bool)
    (fromisoformat : string -> option datetime) (s : store)
  : outcome unit * store :=
  match students s with
  | [] => (Ok tt, s)
  | _ =>
      match leaderboard_data_of fromisoformat s with
      | Ok data =>
          (Ok tt,
           set_leaderboard s
             (written (rank data) (if clears then [] else admin_leaderboard s)))
      | Raise e => (Raise (refresh_failure e), s)
      end
  end.

Definition refresh_effect := refresh_effect_with true.

(** The store answers a request whenever it is sent; it refuses it
    whenever it is sent. *)
Definition answers (fault : nat -> call -> option exn) (c : call) : Prop :=
  forall n, fault n c = None.

Definition refuses (fault : nat -> call -> option exn) (c : call) : Prop :=
  forall n, fault n c <> None.

(** The outcome and the store of the retry loop around an upsert that
    the store answers the same way at each attempt: [res] is the table
    the upsert leaves, or [None] when it is refused. *)
Definition upsert_effect {R : Type} (max_retries : Z) (what : string)
    (res : option (list R)) (set : list R -> store) (s : store)
  : outcome unit * store :=
  if 0 <? max_retries then
    match res with
    | Some t => (Ok tt, set t)
    | None => (Raise (sync_failure what second_time_violation), s)
    end
  else (Ok tt, s).

Definition assignments_effect (max_retries : Z) (data : list AssignmentInfo.t)
    (s : store) : outcome unit * store :=
  match data with
  | [] => (Ok tt, s)
  | _ =>
      upsert_effect max_retries "assignments"
        (upsert_rows Assignment.name Assignment.name write_assignment
           (map assignment_record data) (assignments s))
        (fun t => mk_store (students s) t (grades s) (admin_leaderboard s)) s
  end.

Definition students_effect (max_retries : Z) (data : list StudentInfo.t)
    (s : store) : outcome unit * store :=
  match data with
  | [] => (Ok tt, s)
  | _ =>
      upsert_effect max_retries "students"
        (upsert_rows StudentRecord.github_username Student.github_username
           write_student (map student_record data) (students s))
        (fun t => mk_store t (assignments s) (grades s) (admin_leaderboard s)) s
  end.

(** The record of a row of the grades frame, as a value. *)
Definition grade_record_result (row : GradeRow.t) : outcome (option Grade.t) :=
  let points_awarded := GradeRow.points_awarded row in
  match (if notna points_awarded
         then match py_int points_awarded with
              | Ok z => Ok (Some z)
              | Raise e => Raise e
              end
         else Ok None) with
  | Ok p =>
      Ok (Some (Grade.mk (strip (GradeRow.github_username row))
                  (strip (GradeRow.assignment_name row)) p))
  | Raise e =>
      match exn_cls e with
      | KeyError | ValueError | TypeError => Ok None
      | _ => Raise e
      end
  end.

Definition grades_effect (max_retries : Z) (grades_df : list GradeRow.t)
    (s : store) : outcome unit * store :=
  match grades_df with
  | [] => (Ok tt, s)
  | _ =>
      match all_ok (map grade_record_result grades_df) with
      | Raise e => (Raise e, s)
      | Ok records =>
          match omap id records with
          | [] => (Ok tt, s)
          | grades_data =>
              upsert_effect max_retries "grades"
                (upsert_rows grade_key grade_key write_grade grades_data (grades s))
                (fun t => mk_store (students s) (assignments s) t (admin_leaderboard s)) s
          end
      end
  end.

(** One effect after another; a failure stops the sequence. *)
Definition and_then (f g : store -> outcome unit * store) (s : store)
  : outcome unit * store :=
  match f s with
  | (Ok _, s') => g s'
  | (Raise e, s') => (Raise e, s')
  end.

Definition sync_effect (fromisoformat : string -> option datetime)
    (max_retries : Z) (acc : working_set) (consolidated_df : list GradeRow.t)
  : store -> outcome unit * store :=
  and_then (assignments_effect max_retries (assignment_info acc))
    (and_then (students_effect max_retries (map snd (students_with_repo_info acc)))
       (and_then (grades_effect max_retries consolidated_df)
          (refresh_effect fromisoformat))).

(** [follows m f]: from any state, [m] finishes with the outcome and the
    store that [f] gives for the store of the state; the journal and the
    log only grow. *)
Definition follows {A : Type} (m : M A) (f : store -> outcome A * store) : Prop :=
  forall st, exists j l,
    m st = ((f (db st)).1, mk_state (f (db st)).2 (journal st ++ j) (logs st ++ l)).

(** The store answers every request except, possibly, [c0]. *)
Definition fails_at_most_on (fault : nat -> call -> option exn) (c0 : call) : Prop :=
  forall n c, c <> c0 -> fault n c = None.

(** The outcome and the store of [process_assignments_in_memory] when
    the store answers every request; [acc] is the working set the loop
    over the assignments has built. *)
Definition in_memory_effect (fromisoformat : string -> option datetime)
    (max_retries : Z) (acc : working_set) (s : store)
  : outcome (list GradeRow.t) * store :=
  match all_grades acc with
  | [] => (Ok [], s)
  | _ =>
      let consolidated_df := concat (all_grades acc) in
      match sync_effect fromisoformat max_retries acc consolidated_df s with
      | (Ok _, s') => (Ok consolidated_df, s')
      | (Raise e, s') => (Raise e, s')
      end
  end.

(** ** Sample rows

    Rows for the worked examples of the specification. *)

(** A leaderboard entry before ranking, with the three fields the sort
    reads. *)
Definition entry_with (github_username : string) (resolution_time_hours : option Z)
    (percentage : Z) : Entry.t :=
  Entry.mk github_username None None resolution_time_hours
    (Some true) 0 0 percentage 0 None.

Definition four_students : list Entry.t :=
  [ entry_with "A" (Some 10) 80; entry_with "B" (Some 10) 95;
    entry_with "C" None 100; entry_with "D" (Some 5) 50 ].

(** A store that never fails of its own. *)
Definition no_fault : nat -> call -> option exn := fun _ _ => None.

Definition empty_store : store := mk_store [] [] [] [].

Definition initial (s : store) : state := mk_state s [] [].

(** A store whose access policy rejects the clear of the leaderboard. *)
Definition clear_refused : nat -> call -> option exn :=
  fun _ c =>
    match c with
    | DeleteLeaderboard => Some (Exn APIError "violates row-level security policy")
    | _ => None
    end.

(** Two students with their grades, and a leaderboard left by an earlier
    run: an old row of alice and a row of carol, who is no longer a
    student. *)
Definition class_store : store :=
  mk_store
    [ Student.mk "alice" (Some "2024-01-01T00:00:00Z") (Some "2024-01-03T01:59:59Z")
        (Some 49) (Some true);
      Student.mk "bob" None None None (Some false) ]
    [ Assignment.mk "part-1" (Some 60); Assignment.mk "part-2" (Some 40) ]
    [ Grade.mk "alice" "part-1" (Some 45); Grade.mk "alice" "part-2" (Some 30);
      Grade.mk "bob" "part-1" (Some 60) ]
    [ Entry.mk "alice" None None None (Some false) 0 0 0 0 (Some 2);
      Entry.mk "carol" None None (Some 7) (Some true) 100 100 100 2 (Some 1) ].

Definition alice_entry : Entry.t :=
  Entry.mk "alice" (Some "2024-01-01T00:00:00Z") (Some "2024-01-03T01:59:59Z")
    (Some 49) (Some true) 75 100 75 2 (Some 1).

Definition bob_entry : Entry.t :=
  Entry.mk "bob" None None None (Some false) 60 60 100 1 (Some 2).

Definition carol_entry : Entry.t :=
  Entry.mk "carol" None None (Some 7) (Some true) 100 100 100 2 (Some 1).

(** A store with a student and the grade of somebody who is not one. *)
Definition grades_of_a_stranger : store :=
  mk_store [Student.mk "alice" None None None None]
    [Assignment.mk "part-1" (Some 10)]
    [Grade.mk "bob" "part-1" (Some 10)] [].

(** The extract interface of a classroom with one assignment whose
    extract has no [student_repository_url] column. *)
Definition extract_without_urls (assignment_id : string) : option (list Row.t) :=
  if String.eqb assignment_id "1"
  then Some [Row.mk "bob" (CInt 10) (Some 10) UrlDefault]
  else None.

(** A grades frame with an infinite [points_awarded], and one with a
    text that is not a number. *)
Definition frame_with_infinity : list GradeRow.t :=
  [GradeRow.mk "alice" "part-1" (CInt 10); GradeRow.mk "bob" "part-1" CInf].

Definition frame_with_text : list GradeRow.t :=
  [GradeRow.mk "alice" "part-1" (CInt 10); GradeRow.mk "bob" "part-1" (CText "n/a")].

(** The extracts of a classroom with two assignments, and the
    repository interface that knows the fork of alice. *)
Definition class_extract (assignment_id : string) : option (list Row.t) :=
  if String.eqb assignment_id "1" then
    Some [ Row.mk "alice" (CInt 45) (Some 60)
             (UrlText "https://github.com/B4OS-Dev/part-1-alice");
           Row.mk "bob" (CInt 60) (Some 60) UrlNaN ]
  else if String.eqb assignment_id "2" then
    Some [ Row.mk "alice" (CInt 30) (Some 40)
             (UrlText "https://github.com/B4OS-Dev/part-2-alice") ]
  else None.

Definition class_repositories (url : url_cell) : option RepoInfo.t :=
  match url with
  | UrlText s =>
      if String.eqb s "https://github.com/B4OS-Dev/part-1-alice"
      then Some (RepoInfo.mk (Some "2024-01-01T00:00:00Z")
                   (Some "2024-01-03T01:59:59Z") true)
      else None
  | _ => None
  end.

Definition class_assignments : list (string * string * string) :=
  [("1", "Part 1", "B4OS-Dev/part-1"); ("2", "Part 2", "B4OS-Dev/part-2")].

(** A fork created in 1900 and last updated in 2024, next to a student
    without a fork. *)
Definition old_fork_store : store :=
  mk_store
    [ Student.mk "veteran" (Some "1900-01-01T00:00:00Z") (Some "2024-01-01T00:00:00Z")
        None (Some true);
      Student.mk "newcomer" None None None (Some false) ]
    [] [] [].

(** * The GitHub side and the whole run *)

(** ** More of Python's strings *)

Definition newline : ascii := ascii_of_nat 10.
Definition tab : ascii := ascii_of_nat 9.
Definition slash : ascii := "/"%char.

(** [s.split(sep)] for a separator of one character: the pieces between
    its occurrences, the empty ones included; never an empty list. *)
Fixpoint split_on (sep : ascii) (s : string) : list string :=
  match s with
  | EmptyString => [EmptyString]
  | String c t =>
      if Ascii.eqb c sep then EmptyString :: split_on sep t
      else match split_on sep t with
           | piece :: rest => String c piece :: rest
           | [] => [String c EmptyString]
           end
  end.

(** [s.split()]: the maximal runs of characters that are not
    whitespace. *)
Fixpoint split_whitespace (s : string) : list string :=
  match s with
  | EmptyString => []
  | String c t =>
      if is_space c then split_whitespace t
      else match t with
           | EmptyString => [String c EmptyString]
           | String d _ =>
               if is_space d then String c EmptyString :: split_whitespace t
               else match split_whitespace t with
                    | word :: rest => String c word :: rest
                    | [] => [String c EmptyString]
                    end
           end
  end.

(** [s.replace(old, new)] for a non-empty [old]: the occurrences of
    [old] are replaced from left to right, without overlap.  [skip]
    counts the characters of an occurrence still to pass. *)
Fixpoint replace_from (old new : string) (skip : nat) (s : string) : string :=
  match s with
  | EmptyString => EmptyString
  | String c t =>
      match skip with
      | S k => replace_from old new k t
      | O =>
          if String.prefix old s
          then (new ++ replace_from old new (String.length old - 1) t)%string
          else String c (replace_from old new 0 t)
      end
  end.

Definition replace (old new s : string) : string := replace_from old new 0 s.

(** [sep.join(pieces)] *)
Definition join (sep : string) (pieces : list string) : string :=
  String.concat sep pieces.


(** ** The exceptions of a run

    The GitHub side raises [GitHubCLIError], a class of its own; a run
    fails with it or with one of the exceptions of the store side. *)

Inductive failure : Type :=
| GitHubCLIError (msg : string)
| Other (e : exn).

(** [str(e)] *)
Definition failure_msg (f : failure) : string :=
  match f with
  | GitHubCLIError msg => msg
  | Other e => exn_msg e
  end.

Inductive result (A : Type) : Type :=
| Returns (a : A)
| Fails (f : failure).
Arguments Returns {A} a.
Arguments Fails {A} f.

(** Computations of the GitHub side and of the whole run. *)
Definition Job (A : Type) : Type := state -> result A * state.

#[local] Instance Job_ret : MRet Job := fun A a st => (Returns a, st).

#[local] Instance Job_bind : MBind Job := fun A B f m st =>
  match m st with
  | (Returns a, st') => f a st'
  | (Fails e, st') => (Fails e, st')
  end.

Definition fail {A : Type} (f : failure) : Job A := fun st => (Fails f, st).

(** [try: m except ... as e: handler e] *)
Definition rescue {A : Type} (m : Job A) (handler : failure -> Job A) : Job A :=
  fun st =>
    match m st with
    | (Returns a, st') => (Returns a, st')
    | (Fails f, st') => handler f st'
    end.

(** A computation of the store side, run as part of a job. *)
Definition lift {A : Type} (m : M A) : Job A :=
  fun st =>
    match m st with
    | (Ok a, st') => (Returns a, st')
    | (Raise e, st') => (Fails (Other e), st')
    end.

Definition note (l : log_level) (msg : string) : Job unit := lift (log l msg).

Definition lift_outcome {A : Type} (r : outcome A) : Job A :=
  match r with
  | Ok a => mret a
  | Raise e => fail (Other e)
  end.

(** ** The configuration *)

Module SyncConfig.
Record t : Type := mk {
  supabase_url : string;
  supabase_key : string;
  classroom_name : string;
  assignment_id : option string;
  log_level : string;
  max_retries : Z;
  timeout_seconds : Z
}.
End SyncConfig.

(** [repr] of a list of texts that need no escaping. *)
Definition repr_list (l : list string) : string :=
  ("[" ++ join ", " (map (fun s => "'" ++ s ++ "'") l) ++ "]")%string.

(** [int(s)] on a text of the environment. *)
Definition int_of_env (s : string) : outcome Z :=
  match int_of_text s with
  | Some z => Ok z
  | None => Raise (Exn ValueError "invalid literal for int() with base 10")
  end.

Definition required_vars : list string :=
  ["SUPABASE_URL"; "SUPABASE_KEY"; "CLASSROOM_NAME"].

(** [create_config_from_env]; the environment is a map from the names
    of its variables to their texts, [os.getenv] its lookup. *)
Definition create_config_from_env (env : gmap string string) : M SyncConfig.t :=
  let missing_vars := List.filter (fun var => falsy_text (env !! var)) required_vars in
  match missing_vars with
  | _ :: _ =>
      raise (Exn ValueError
               ("Missing required environment variables: " ++ repr_list missing_vars)%string)
  | [] =>
      (if falsy_text (env !! "GITHUB_TOKEN")
       then log WARNING
              "GITHUB_TOKEN not found. Repository information will be limited by rate limits."
       else mret tt) ;;
      match int_of_env (default "3" (env !! "MAX_RETRIES")) with
      | Raise e => raise e
      | Ok max_retries =>
          match int_of_env (default "30" (env !! "TIMEOUT_SECONDS")) with
          | Raise e => raise e
          | Ok timeout_seconds =>
              mret (SyncConfig.mk (default "" (env !! "SUPABASE_URL"))
                      (default "" (env !! "SUPABASE_KEY"))
                      (default "" (env !! "CLASSROOM_NAME"))
                      (env !! "ASSIGNMENT_ID")
                      (default "INFO" (env !! "LOG_LEVEL"))
                      max_retries timeout_seconds)
          end
      end
  end.

(** ** The GitHub command line and the repository lookup *)

(** What [subprocess.run(..., check=True)] does: it completes with the
    text of the standard output, or raises. *)
Inductive completed_process : Type :=
| Completed (stdout : string)
| TimeoutExpired
| CalledProcessError (stderr : string)
| RunFailure (msg : string).

(** The payload of [GET /repos/{owner}/{repo}], as far as it is read. *)
Module RepoData.
Record t : Type := mk {
  created_at : option string;
  updated_at : option string;
  fork : option bool
}.
End RepoData.

(** What [requests.get] does: a response with its status code and its
    JSON body ([None] when the body is not a JSON object), or an
    exception. *)
Inductive http_reply : Type :=
| Response (status_code : Z) (json : option RepoData.t)
| RequestFailure (msg : string).

(** The headers of the lookup: an [Authorization] header when a token
    is set and not empty. *)
Definition authorization (github_token : option string) : option string :=
  match github_token with
  | Some token =>
      if String.eqb token "" then None else Some ("token " ++ token)%string
  | None => None
  end.

(** [_parse_classroom_list] *)
Definition _parse_classroom_list (output : string) : outcome (list (string * string)) :=
  let lines := split_on newline (strip output) in
  if (length lines <? 4)%nat
  then Raise (Exn DataValidationError "Invalid classroom list format")
  else
    Ok (omap (fun line =>
                if String.eqb (strip line) "" then None
                else match split_whitespace line with
                     | classroom_id :: name :: _ => Some (classroom_id, name)
                     | _ => None
                     end)
             (skipn 3 lines)).

(** [_parse_assignments_list] *)
Definition _parse_assignments_list (output : string)
  : outcome (list (string * string * string)) :=
  let lines := split_on newline (strip output) in
  if (length lines <? 4)%nat
  then Raise (Exn DataValidationError "Invalid assignments list format")
  else
    Ok (omap (fun line =>
                if String.eqb (strip line) "" then None
                else match split_on tab line with
                     | p0 :: p1 :: _ :: _ :: _ :: _ :: p6 :: _ => Some (p0, p1, p6)
                     | _ => None
                     end)
             (skipn 3 lines)).

Section GitHub.

(** The operating system, the network and the process environment. *)
Variable subprocess_run : list string -> Z -> completed_process.
Variable requests_get : string -> option string -> http_reply.
Variable env : gmap string string.

Variable config : SyncConfig.t.

(** [_execute_gh_command] *)
Definition _execute_gh_command (command : string) : Job string :=
  match subprocess_run (split_whitespace command) (SyncConfig.timeout_seconds config) with
  | Completed stdout => mret stdout
  | TimeoutExpired =>
      note ERROR ("GitHub CLI command timed out: " ++ command)%string ;;
      fail (GitHubCLIError ("Command timed out: " ++ command)%string)
  | CalledProcessError stderr =>
      note ERROR ("GitHub CLI command failed: " ++ command ++ ", Error: " ++ stderr)%string ;;
      fail (GitHubCLIError ("Command failed: " ++ stderr)%string)
  | RunFailure msg =>
      note ERROR ("Unexpected error executing command: " ++ command
                  ++ ", Error: " ++ msg)%string ;;
      fail (GitHubCLIError ("Unexpected error: " ++ msg)%string)
  end.

(** The two handlers every listing shares: a GitHubCLIError is logged
    and raised again, any other exception is logged and raised as a
    GitHubCLIError. *)
Definition cli_errors {A : Type} (failed unexpected : string) (m : Job A) : Job A :=
  rescue m
    (fun f =>
       match f with
       | GitHubCLIError msg =>
           note ERROR (failed ++ msg)%string ;;
           fail f
       | Other e =>
           note ERROR (unexpected ++ exn_msg e)%string ;;
           fail (GitHubCLIError ("Unexpected error: " ++ exn_msg e)%string)
       end).

(** [get_classroom_id]: the id of the first classroom of the listing
    that has the name. *)
Definition get_classroom_id (classroom_name : string) : Job (option string) :=
  cli_errors "Failed to get classroom list: " "Unexpected error getting classroom ID: "
    (output ← _execute_gh_command "gh classroom list";
     classrooms ← lift_outcome (_parse_classroom_list output);
     match List.find (fun c => String.eqb c.2 classroom_name) classrooms with
     | Some (classroom_id, _) => mret (Some classroom_id)
     | None =>
         note WARNING ("Classroom '" ++ classroom_name ++ "' not found")%string ;;
         mret None
     end).

(** [get_assignments] *)
Definition get_assignments (classroom_id : string)
  : Job (list (string * string * string)) :=
  cli_errors "Failed to get assignments: " "Unexpected error getting assignments: "
    (output ← _execute_gh_command ("gh classroom assignments -c " ++ classroom_id)%string;
     lift_outcome (_parse_assignments_list output)).

(** [get_repository_info], without the warnings it logs: the lookup
    never raises. *)
Definition get_repository_info (repo_url : url_cell) : option RepoInfo.t :=
  match repo_url with
  | UrlText repo_url =>
      if String.eqb repo_url "" then None
      else
        match split_on slash (replace "https://github.com/" "" repo_url) with
        | [owner; repo] =>
            let github_token := env !! "GITHUB_TOKEN" in
            let headers := authorization github_token in
            let api_url := ("https://api.github.com/repos/" ++ owner ++ "/" ++ repo)%string in
            match requests_get api_url headers with
            | Response status_code json =>
                if status_code =? 200
                then
                  match json with
                  | Some repo_data =>
                      Some (RepoInfo.mk (RepoData.created_at repo_data)
                              (RepoData.updated_at repo_data)
                              (default false (RepoData.fork repo_data)))
                  | None => None
                  end
                else None
            | RequestFailure _ => None
            end
        | _ => None
        end
  | _ => None
  end.

(** The store may fail, timestamps are parsed by Python and the grade
    extracts are downloaded as in the sync. *)
Variable fault : nat -> call -> option exn.
Variable fromisoformat : string -> option datetime.
Variable download_grades_to_dataframe : string -> option (list Row.t).

(** [a for a in assignment_data if a[0] == self.config.assignment_id],
    when an assignment id is configured. *)
Definition select_assignment (assignment_data : list (string * string * string))
  : list (string * string * string) :=
  if falsy_text (SyncConfig.assignment_id config) then assignment_data
  else List.filter
         (fun a => bool_decide (Some a.1.1 = SyncConfig.assignment_id config))
         assignment_data.

(** The body of the [try] of [run_sync]. *)
Definition run_sync_try : Job unit :=
  classroom_id ← get_classroom_id (SyncConfig.classroom_name config);
  if falsy_text classroom_id
  then fail (GitHubCLIError
               ("Classroom '" ++ SyncConfig.classroom_name config ++ "' not found")%string)
  else
    assignment_data ← get_assignments (default "" classroom_id);
    match assignment_data with
    | [] => note WARNING "No assignments found"
    | _ =>
        let assignment_data := select_assignment assignment_data in
        consolidated_df ←
          lift (process_assignments_in_memory fault fromisoformat get_repository_info
                  download_grades_to_dataframe (SyncConfig.max_retries config)
                  assignment_data);
        match consolidated_df with
        | [] => note WARNING "Sync completed but no data was processed"
        | _ => mret tt
        end
    end.

(** [run_sync]: every exception is logged and raised again. *)
Definition run_sync : Job unit :=
  rescue run_sync_try
    (fun f =>
       note ERROR ("Error during sync process: " ++ failure_msg f)%string ;;
       fail f).

End GitHub.

(** ** Vocabulary of the further properties *)

(** Every character of a text has a property; some character has it. *)
Fixpoint string_forall (p : ascii -> bool) (s : string) : bool :=
  match s with
  | EmptyString => true
  | String c t => p c && string_forall p t
  end.

Fixpoint string_exists (p : ascii -> bool) (s : string) : bool :=
  match s with
  | EmptyString => false
  | String c t => p c || string_exists p t
  end.

Definition first_char (s : string) : option ascii :=
  match s with
  | EmptyString => None
  | String c _ => Some c
  end.

Fixpoint last_char (s : string) : option ascii :=
  match s with
  | EmptyString => None
  | String c EmptyString => Some c
  | String _ t => last_char t
  end.

(** A text starts, or ends, with a character that [strip] keeps. *)
Definition kept_first (drop : ascii -> bool) (s : string) : Prop :=
  forall c, first_char s = Some c -> drop c = false.

Definition kept_last (drop : ascii -> bool) (s : string) : Prop :=
  forall c, last_char s = Some c -> drop c = false.

(** A text of ASCII characters: the texts the model of Python's
    strings is about. *)
Definition is_ascii (c : ascii) : bool := (nat_of_ascii c <? 128)%nat.

Definition ascii_text (s : string) : Prop := string_forall is_ascii s = true.

(** The alphabet of a slug, and the ASCII letters and digits. *)
Definition slug_alphabet (c : ascii) : bool :=
  is_lower c || is_digit c || Ascii.eqb c hyphen.

Definition is_alnum (c : ascii) : bool :=
  is_lower c || is_upper c || is_digit c.

(** A lowercase letter or a digit: what is left of the letters and
    digits of a name once it is in lower case. *)
Definition letter_or_digit (c : ascii) : bool := is_lower c || is_digit c.

(** No two adjacent characters of a text are both [c]. *)
Fixpoint no_run (c : ascii) (s : string) : bool :=
  match s with
  | String a (String b _ as t) =>
      negb (Ascii.eqb a c && Ascii.eqb b c) && no_run c t
  | _ => true
  end.

(** A text without the character [c]; a text without whitespace. *)
Definition free_of (c : ascii) (s : string) : bool :=
  string_forall (fun x => negb (Ascii.eqb x c)) s.

Definition no_space (s : string) : bool :=
  string_forall (fun x => negb (is_space x)) s.

(** The output of a listing command: the lines of a header, then the
    lines of the rows, each ended by a newline but for whitespace [tail]
    after the last one. *)
Definition listing (header lines : list string) (tail : string) : string :=
  (join (String newline "") (header ++ lines) ++ tail)%string.

(** A text that is not empty and does not end with whitespace. *)
Definition ends_visibly (s : string) : Prop :=
  s <> "" /\ kept_last is_space s.

(** [quiet m]: whatever the state, the job [m] sends nothing to the
    store and at most appends to the log. *)
Definition quiet {A : Type} (m : Job A) : Prop :=
  forall st, exists l, (m st).2 = mk_state (db st) (journal st) (logs st ++ l).

(** [n] records of the log, each an error. *)
Definition errors (n : nat) (l : list log_record) : Prop :=
  length l = n /\ Forall (fun r => level r = ERROR) l.

(** The error a failed attempt of a table sync logs. *)
Definition error_of (what : string) (e : exn) : log_record :=
  Build_log_record ERROR ("Error syncing " ++ what ++ ": " ++ exn_msg e)%string.

(** The queries of the refresh, and its writes. *)
Definition is_query (c : call) : Prop :=
  match c with
  | SelectStudents | SelectGrades | SelectAssignments => True
  | _ => False
  end.

Definition is_leaderboard_write (c : call) : Prop :=
  match c with
  | DeleteLeaderboard | InsertLeaderboard _ | UpsertLeaderboard _ => True
  | _ => False
  end.

(** The dictionary of students has one entry per key, the key of an
    entry is the username of its student, and it is stripped. *)
Definition well_keyed (students : list (string * StudentInfo.t)) : Prop :=
  NoDup (map fst students) /\
  Forall (fun kv => StudentInfo.github_username kv.2 = kv.1 /\ strip kv.1 = kv.1)
         students.

(** [yields m P]: whenever [m] returns a value, the value has the
    property [P]. *)
Definition yields {A : Type} (m : M A) (P : A -> Prop) : Prop :=
  forall st a st', m st = (Ok a, st') -> P a.

(** The record the processing keeps of a listed assignment: none when
    the assignment has no extract or its name is refused. *)
Definition assignment_info_of (download_grades_to_dataframe : string -> option (list Row.t))
    (assignment : string * string * string) : option AssignmentInfo.t :=
  match download_grades_to_dataframe assignment.1.1 with
  | None => None
  | Some [] => None
  | Some df =>
      match format_assignment_name assignment.1.2 with
      | Ok formatted_name =>
          Some (AssignmentInfo.mk formatted_name
                  (resolve_points_available formatted_name
                     (Some (map Row.points_available df))))
      | Raise _ => None
      end
  end.

(** The number of occurrences of a character in a text. *)
Fixpoint count_char (c : ascii) (s : string) : nat :=
  match s with
  | EmptyString => 0
  | String x t => (if Ascii.eqb x c then 1 else 0) + count_char c t
  end.

(** What the lookup makes of the reply to its request. *)
Definition repository_of (reply : http_reply) : option RepoInfo.t :=
  match reply with
  | Response 200 (Some repo_data) =>
      Some (RepoInfo.mk (RepoData.created_at repo_data)
              (RepoData.updated_at repo_data)
              (default false (RepoData.fork repo_data)))
  | _ => None
  end.

(** ** More sample data *)

(** The output of [gh classroom list] for two classrooms. *)
Definition classroom_rows : list (string * string * list string) :=
  [ ("101", "B4OS-Dev-2025", ["https://classroom.github.com/classrooms/101"]);
    ("102", "Rust-Basics", ["https://classroom.github.com/classrooms/102"]) ].

Definition classroom_listing : string :=
  listing ["2 Available Classrooms"; ""; "ID   Name   URL"]
    (map (fun row => join "   " (row.1.1 :: row.1.2 :: row.2)) classroom_rows)
    (String newline "").

(** The output of [gh classroom assignments] for two assignments. *)
Definition assignment_rows : list (list string) :=
  [ ["1"; "Part 1"; "false"; "individual"; ""; "true";
     "B4OS-Dev/part-1"; "3"; "3"; "2"];
    ["2"; "Part 2"; "false"; "individual"; ""; "true";
     "B4OS-Dev/part-2"; "3"; "1"; "1"] ].

Definition assignment_listing : string :=
  listing ["2 Assignments for B4OS-Dev-2025"; ""; "ID  Title  Public  Type  Deadline  Editor  Repository  Accepted  Submissions  Passing"]
    (map (join (String tab "")) assignment_rows) (String newline "").

(** A command line that answers the two listings. *)
Definition class_cli (command : list string) (timeout : Z) : completed_process :=
  match command with
  | ["gh"; "classroom"; "list"] => Completed classroom_listing
  | ["gh"; "classroom"; "assignments"; "-c"; "101"] => Completed assignment_listing
  | _ => CalledProcessError "unknown command"
  end.

(** A command line whose output is not a listing. *)
Definition broken_cli (command : list string) (timeout : Z) : completed_process :=
  Completed "gh: not logged in".

(** A network without GitHub. *)
Definition offline (url : string) (authorization : option string) : http_reply :=
  RequestFailure "connection refused".

Definition class_config : SyncConfig.t :=
  SyncConfig.mk "https://example.supabase.co" "key" "B4OS-Dev-2025" None "INFO" 3 30.

(** An environment that sets the three required variables and asks for
    no attempt. *)
Definition zero_retries_env : gmap string string :=
  <["SUPABASE_URL" := "https://example.supabase.co"]>
    (<["SUPABASE_KEY" := "key"]>
       (<["CLASSROOM_NAME" := "B4OS-Dev-2025"]>
          (<["MAX_RETRIES" := "0"]> ∅))).

(** A store that refuses every request. *)
Definition store_down : nat -> call -> option exn :=
  fun _ _ => Some (Exn APIError "service unavailable").

(** A store that refuses its first two requests. *)
Definition store_waking_up : nat -> call -> option exn :=
  fun n _ => if (n <? 2)%nat then Some (Exn APIError "service unavailable") else None.

(** A store that answers the queries and refuses every write. *)
Definition read_only_store : nat -> call -> option exn :=
  fun _ c =>
    match c with
    | SelectStudents | SelectGrades | SelectAssignments => None
    | _ => Some (Exn APIError "permission denied")
    end.

(** Two assignments whose names have one slug. *)
Definition colliding_assignments : list (string * string * string) :=
  [("1", "Part 1", "B4OS-Dev/part-1"); ("2", "part-1", "B4OS-Dev/part-1-bis")].

(** The record [sync_grades_to_supabase] makes of a row whose
    [points_awarded] is not infinite: none for a text that is not a
    number. *)
Definition grade_of (row : GradeRow.t) : option Grade.t :=
  match GradeRow.points_awarded row with
  | CNaN =>
      Some (Grade.mk (strip (GradeRow.github_username row))
              (strip (GradeRow.assignment_name row)) None)
  | c =>
      match py_int c with
      | Ok z =>
          Some (Grade.mk (strip (GradeRow.github_username row))
                  (strip (GradeRow.assignment_name row)) (Some z))
      | Raise _ => None
      end
  end.

(** * Properties *)

(** ** Rounding *)

Module PyFloatFacts.
Import PyFloat.

Lemma rne_cases n d :
  0 < d -> rne n d = n / d \/ rne n d = n / d + 1 /\ d <= 2 * (n mod d).
Proof.
  intros Hd. unfold rne.
  destruct (2 * (n mod d) <? d) eqn:E1; [now left|].
  apply Z.ltb_ge in E1.
  destruct (d <? 2 * (n mod d)); [now right|].
  destruct (Z.even (n / d)); [now left | now right].
Qed.

Lemma rne_lower n d k : 0 < d -> k * d <= n -> k <= rne n d.
Proof.
  intros Hd Hk.
  assert (k <= n / d) by (apply Z.div_le_lower_bound; lia).
  destruct (rne_cases n d Hd) as [-> | [-> _]]; lia.
Qed.

Lemma rne_upper n d k : 0 < d -> n <= k * d -> rne n d <= k.
Proof.
  intros Hd Hk.
  pose proof (Z.div_mod n d ltac:(lia)) as Hdm.
  pose proof (Z.mod_pos_bound n d Hd) as Hr.
  destruct (rne_cases n d Hd) as [-> | [-> Hhalf]].
  - apply Z.div_le_upper_bound; lia.
  - assert (n / d < k) by nia. lia.
Qed.

Lemma rne_nonneg n d : 0 < d -> 0 <= n -> 0 <= rne n d.
Proof. intros Hd Hn. apply rne_lower; lia. Qed.

Lemma pow2_gt0 k : 0 <= k -> 0 < 2 ^ k.
Proof. intros. apply Z.pow_pos_nonneg; lia. Qed.

(** [ilog2 n d] is the floor of the binary logarithm of [n / d]. *)
Lemma ilog2_spec n d :
  0 < n -> 0 < d ->
  let k := ilog2 n d in
  (0 <= k -> d * 2 ^ k <= n < d * 2 ^ (k + 1)) /\
  (k < 0 -> d <= n * 2 ^ (- k) < 2 * d).
Proof.
  intros Hn Hd. unfold ilog2.
  pose proof (Z.log2_spec n Hn) as [Ha1 Ha2].
  pose proof (Z.log2_spec d Hd) as [Hb1 Hb2].
  pose proof (Z.log2_nonneg n) as Ha0.
  pose proof (Z.log2_nonneg d) as Hb0.
  set (a := Z.log2 n) in *. set (b := Z.log2 d) in *.
  rewrite Z.pow_succ_r in Ha2, Hb2 by lia.
  destruct (0 <=? a - b) eqn:Ek.
  - apply Z.leb_le in Ek.
    assert (Hab : 2 ^ a = 2 ^ b * 2 ^ (a - b))
      by (rewrite <- Z.pow_add_r by lia; f_equal; lia).
    pose proof (pow2_gt0 (a - b) Ek) as Hp.
    pose proof (pow2_gt0 b Hb0) as Hpb.
    destruct (n <? d * 2 ^ (a - b)) eqn:Et.
    + apply Z.ltb_lt in Et. cbv zeta. split.
      * intros Hk. replace (a - b - 1 + 1) with (a - b) by lia.
        split; [|exact Et].
        assert (Hs : 2 ^ (a - b) = 2 * 2 ^ (a - b - 1))
          by (rewrite <- Z.pow_succ_r by lia; f_equal; lia).
        pose proof (pow2_gt0 (a - b - 1) Hk). nia.
      * intros Hk. assert (a - b = 0) as Hz by lia.
        rewrite Hz in *. replace (- (0 - 1)) with 1 by lia.
        change (2 ^ 0) with 1 in *. change (2 ^ 1) with 2. nia.
    + apply Z.ltb_ge in Et. cbv zeta. split; [|lia].
      intros _. split; [exact Et|].
      rewrite Z.pow_add_r by lia. change (2 ^ 1) with 2. nia.
  - apply Z.leb_gt in Ek.
    assert (Hab : 2 ^ b = 2 ^ a * 2 ^ (- (a - b)))
      by (rewrite <- Z.pow_add_r by lia; f_equal; lia).
    pose proof (pow2_gt0 (- (a - b)) ltac:(lia)) as Hp.
    pose proof (pow2_gt0 a Ha0) as Hpa.
    destruct (n * 2 ^ (- (a - b)) <? d) eqn:Et.
    + apply Z.ltb_lt in Et. cbv zeta. split; [lia|].
      intros _. replace (- (a - b - 1)) with (- (a - b) + 1) by lia.
      rewrite Z.pow_add_r by lia. change (2 ^ 1) with 2. nia.
    + apply Z.ltb_ge in Et. cbv zeta. split; [lia|].
      intros _. nia.
Qed.

(** A ratio below [2 ^ (K + 1)] has a logarithm of at most [K]. *)
Lemma ilog2_upper n d K :
  0 < n -> 0 < d -> 0 <= K -> n < d * 2 ^ (K + 1) -> ilog2 n d <= K.
Proof.
  intros Hn Hd HK Hlt.
  destruct (Z.le_gt_cases (ilog2 n d) K) as [|Hgt]; [assumption|exfalso].
  destruct (ilog2_spec n d Hn Hd) as [H1 _].
  destruct (H1 ltac:(lia)) as [Hlow _].
  assert (2 ^ (K + 1) <= 2 ^ ilog2 n d) by (apply Z.pow_le_mono_r; lia).
  pose proof (pow2_gt0 (K + 1) ltac:(lia)). nia.
Qed.

(** Rounding a ratio that lies between [0] and an integer [c] gives a
    double between [0] and [c]. *)
Lemma nearest_between n d c :
  0 < d -> 0 <= n <= c * d -> c < 2 ^ 52 ->
  let y := nearest n d in
  finite y = true /\ 0 < den y /\ 0 <= num y <= c * den y.
Proof.
  intros Hd Hn Hc. unfold nearest.
  destruct (n =? 0) eqn:E0.
  { cbn. repeat split; lia. }
  apply Z.eqb_neq in E0.
  assert (Hpos : 0 < n) by lia.
  rewrite Z.abs_eq by lia. rewrite (Z.sgn_pos n Hpos).
  assert (HL : ilog2 n d <= 51).
  { apply ilog2_upper; try lia. change (51 + 1) with 52. nia. }
  set (e := Z.max (ilog2 n d - 52) (-1074)).
  assert (He : e <= -1) by lia.
  replace (0 <=? e) with false by (symmetry; apply Z.leb_gt; lia).
  cbv zeta. unfold finite, num, den. cbn [mant expo].
  replace (0 <=? e) with false by (symmetry; apply Z.leb_gt; lia).
  pose proof (pow2_gt0 (- e) ltac:(lia)) as HP.
  split; [reflexivity|]. split; [exact HP|].
  rewrite Z.mul_1_l. split.
  - apply rne_nonneg; nia.
  - apply rne_upper; [lia | nia].
Qed.

(** Rounding to the nearest integer is off by at most a half. *)
Lemma rne_error n d : 0 < d -> 2 * Z.abs (rne n d * d - n) <= d.
Proof.
  intros Hd. unfold rne.
  pose proof (Z.div_mod n d ltac:(lia)) as Hdm.
  pose proof (Z.mod_pos_bound n d Hd) as Hr.
  destruct (2 * (n mod d) <? d) eqn:E1.
  - apply Z.ltb_lt in E1. nia.
  - apply Z.ltb_ge in E1. destruct (d <? 2 * (n mod d)) eqn:E2.
    + apply Z.ltb_lt in E2. nia.
    + apply Z.ltb_ge in E2. destruct (Z.even (n / d)); nia.
Qed.

(** A ratio not below [2 ^ - K] has a logarithm not below [- K]. *)
Lemma ilog2_lower n d K :
  0 < n -> 0 < d -> 0 <= K -> d <= n * 2 ^ K -> - K <= ilog2 n d.
Proof.
  intros Hn Hd HK Hle.
  destruct (Z.le_gt_cases (- K) (ilog2 n d)) as [|Hlt]; [assumption|exfalso].
  destruct (ilog2_spec n d Hn Hd) as [_ H2].
  destruct (H2 ltac:(lia)) as [_ Hup].
  assert (2 * 2 ^ K <= 2 ^ (- ilog2 n d)).
  { rewrite <- Z.pow_succ_r by lia. apply Z.pow_le_mono_r; lia. }
  pose proof (pow2_gt0 K HK). nia.
Qed.

(** In the normal range the nearest double of a positive ratio is off
    by at most [2 ^ -53] of the ratio. *)
Lemma nearest_error n d :
  0 < n -> 0 < d -> -1074 <= ilog2 n d - 52 ->
  let y := nearest n d in
  0 < den y /\ 0 <= num y /\
  Z.abs (num y * d - n * den y) * 2 ^ 53 <= n * den y.
Proof.
  intros Hn Hd Hnorm. unfold nearest.
  replace (n =? 0) with false by (symmetry; apply Z.eqb_neq; lia).
  rewrite Z.abs_eq by lia. rewrite (Z.sgn_pos n Hn).
  rewrite Z.max_l by lia.
  set (k := ilog2 n d) in *.
  destruct (ilog2_spec n d Hn Hd) as [Hk1 Hk2]. fold k in Hk1, Hk2.
  change (2 ^ 53) with (2 * 2 ^ 52).
  destruct (0 <=? k - 52) eqn:Ee.
  - apply Z.leb_le in Ee. cbv zeta. unfold num, den. cbn [mant expo].
    replace (0 <=? k - 52) with true by (symmetry; apply Z.leb_le; lia).
    destruct (Hk1 ltac:(lia)) as [Hlow _].
    pose proof (pow2_gt0 (k - 52) Ee) as HP.
    assert (Hpow : 2 ^ k = 2 ^ (k - 52) * 2 ^ 52)
      by (rewrite <- Z.pow_add_r by lia; f_equal; lia).
    set (P := 2 ^ (k - 52)) in *.
    pose proof (rne_error n (d * P) ltac:(nia)) as Herr.
    set (m := rne n (d * P)) in *.
    split; [lia|]. split.
    + rewrite Z.mul_1_l. apply Z.mul_nonneg_nonneg; [|lia].
      apply rne_nonneg; nia.
    + rewrite Z.mul_1_l, Z.mul_1_r.
      replace (m * P * d - n) with (m * (d * P) - n) by ring.
      rewrite Hpow in Hlow. nia.
  - apply Z.leb_gt in Ee. cbv zeta. unfold num, den. cbn [mant expo].
    replace (0 <=? k - 52) with false by (symmetry; apply Z.leb_gt; lia).
    pose proof (pow2_gt0 (- (k - 52)) ltac:(lia)) as HP.
    set (P := 2 ^ (- (k - 52))) in *.
    pose proof (rne_error (n * P) d Hd) as Herr.
    set (m := rne (n * P) d) in *.
    assert (Hbig : d * 2 ^ 52 <= n * P).
    { destruct (Z.le_gt_cases 0 k) as [Hk | Hk].
      - destruct (Hk1 Hk) as [Hlow _].
        assert (HP2 : 2 ^ 52 = 2 ^ k * P).
        { unfold P. rewrite <- Z.pow_add_r by lia. f_equal. lia. }
        rewrite HP2. nia.
      - destruct (Hk2 Hk) as [Hlow _].
        assert (HP2 : P = 2 ^ (- k) * 2 ^ 52).
        { unfold P. rewrite <- Z.pow_add_r by lia. f_equal. lia. }
        rewrite HP2. nia. }
    split; [exact HP|]. split.
    + rewrite Z.mul_1_l. apply rne_nonneg; nia.
    + rewrite Z.mul_1_l. nia.
Qed.

(** Rounding a ratio below [2 ^ 52] that lies between two integers gives
    a double between them. *)
Lemma nearest_sandwich n d a b :
  0 < d -> 0 <= n < d * 2 ^ 52 -> a * d <= n <= b * d ->
  let y := nearest n d in
  finite y = true /\ 0 < den y /\ a * den y <= num y <= b * den y.
Proof.
  intros Hd Hn Hab. unfold nearest.
  destruct (n =? 0) eqn:E0.
  { apply Z.eqb_eq in E0. subst n. cbn. repeat split; nia. }
  apply Z.eqb_neq in E0.
  assert (Hpos : 0 < n) by lia.
  rewrite Z.abs_eq by lia. rewrite (Z.sgn_pos n Hpos).
  assert (HL : ilog2 n d <= 51).
  { apply ilog2_upper; try lia. }
  set (e := Z.max (ilog2 n d - 52) (-1074)).
  assert (He : e <= -1) by lia.
  replace (0 <=? e) with false by (symmetry; apply Z.leb_gt; lia).
  cbv zeta. unfold finite, num, den. cbn [mant expo].
  replace (0 <=? e) with false by (symmetry; apply Z.leb_gt; lia).
  pose proof (pow2_gt0 (- e) ltac:(lia)) as HP.
  split; [reflexivity|]. split; [exact HP|].
  rewrite Z.mul_1_l. split.
  - apply rne_lower; [lia|]. nia.
  - apply rne_upper; [lia|]. nia.
Qed.

(** The double nearest to the opposite of a ratio is the opposite
    double. *)
Lemma nearest_opp n d :
  nearest (- n) d = mk (- mant (nearest n d)) (expo (nearest n d)).
Proof.
  unfold nearest.
  destruct (n =? 0) eqn:E0.
  - apply Z.eqb_eq in E0. subst n. reflexivity.
  - apply Z.eqb_neq in E0.
    replace (- n =? 0) with false by (symmetry; apply Z.eqb_neq; lia).
    rewrite Z.abs_opp, Z.sgn_opp. cbn [mant expo]. f_equal. lia.
Qed.

Lemma num_opp x : num (mk (- mant x) (expo x)) = - num x.
Proof. unfold num. cbn. destruct (0 <=? expo x); lia. Qed.

Lemma finite_opp x : finite (mk (- mant x) (expo x)) = finite x.
Proof. unfold finite. cbn. now rewrite Z.abs_opp. Qed.

Lemma trunc_div_int_opp x k :
  0 < den (div_int x k) ->
  trunc (div_int (mk (- mant x) (expo x)) k) = - trunc (div_int x k).
Proof.
  intros Hd. unfold div_int. rewrite num_opp.
  change (den (mk (- mant x) (expo x))) with (den x).
  rewrite nearest_opp. unfold trunc. rewrite num_opp.
  change (den (mk _ (expo ?y))) with (den y).
  apply Z.quot_opp_l. unfold div_int in Hd. lia.
Qed.

(** The hours of a difference of [us] microseconds that is not negative:
    the double of the seconds, divided by [3600] and truncated, is the
    number of whole hours or, when the difference is within a
    millisecond of the next whole hour, possibly that next hour. *)
Lemma hours_nonneg us :
  0 <= us < 2 ^ 59 ->
  let ts := nearest us (10 ^ 6) in
  let h := trunc (div_int ts 3600) in
  finite ts = true /\ 0 < den ts /\ 0 < den (div_int ts 3600) /\
  us / hour <= h <= us / hour + 1 /\
  (us mod hour + 1000 <= hour -> h = us / hour).
Proof.
  intros Hus. cbv zeta.
  set (q := us / hour).
  pose proof (Z.div_mod us hour ltac:(discriminate)) as Hdm. fold q in Hdm.
  pose proof (Z.mod_pos_bound us hour ltac:(reflexivity)) as Hr.
  assert (Hq0 : 0 <= q) by (apply Z.div_pos; [lia | reflexivity]).
  unfold hour in *. change (10 ^ 6) with 1000000 in *.
  change (2 ^ 59) with 576460752303423488 in Hus.
  assert (Hq1 : q < 2 ^ 28).
  { change (2 ^ 28) with 268435456. lia. }
  change (2 ^ 28) with 268435456 in Hq1.
  destruct (nearest_sandwich us 1000000 (3600 * q) (3600 * (q + 1)))
    as (Hf & Hd1 & Hlo1 & Hhi1);
    [lia | change (2 ^ 52) with 4503599627370496; lia | lia |].
  set (ts := nearest us 1000000) in *.
  set (N1 := num ts) in *. set (D1 := den ts) in *.
  assert (HqD : 0 <= q * D1) by nia.
  assert (HN1lo : q * (D1 * 3600) <= N1) by lia.
  assert (HN1hi : N1 <= (q + 1) * (D1 * 3600)) by lia.
  assert (HN1r : 0 <= N1 < D1 * 3600 * 2 ^ 52).
  { change (2 ^ 52) with 4503599627370496. split; [lia|].
    assert ((q + 1) * (D1 * 3600) <= 268435456 * (D1 * 3600))
      by (apply Z.mul_le_mono_nonneg_r; lia).
    lia. }
  destruct (nearest_sandwich N1 (D1 * 3600) q (q + 1) ltac:(lia) HN1r
              (conj HN1lo HN1hi)) as (_ & Hd2 & Hlo2 & Hhi2).
  change (nearest N1 (D1 * 3600)) with (div_int ts 3600) in Hd2, Hlo2, Hhi2.
  set (y := div_int ts 3600) in *.
  set (N2 := num y) in *. set (D2 := den y) in *.
  split; [exact Hf|]. split; [exact Hd1|]. split; [exact Hd2|].
  assert (Hh : trunc y = N2 / D2).
  { unfold trunc. fold N2 D2. apply Z.quot_div_nonneg; nia. }
  rewrite Hh. split.
  - split.
    + apply Z.div_le_lower_bound; lia.
    + apply Z.div_le_upper_bound; lia.
  - intros Hgap.
    destruct (Z.eq_dec us 0) as [-> | Hne].
    { subst N2 D2 y N1 D1 ts. vm_compute. reflexivity. }
    assert (Hpos : 0 < us) by lia.
    (* the two roundings, each within 2^-53 of the ratio *)
    destruct (nearest_error us 1000000 Hpos ltac:(lia)) as (_ & _ & He1).
    { assert (-20 <= ilog2 us 1000000); [|lia].
      apply (ilog2_lower us 1000000 20); try lia; change (2 ^ 20) with 1048576; lia. }
    change (nearest us 1000000) with ts in He1. fold N1 D1 in He1.
    assert (HN1 : 0 < N1).
    { change (2 ^ 53) with 9007199254740992 in He1.
      destruct (Z.le_gt_cases N1 0) as [Hle|]; [|assumption]. exfalso.
      assert (N1 = 0) by nia. subst N1. rewrite H in He1. nia. }
    destruct (nearest_error N1 (D1 * 3600) HN1 ltac:(lia)) as (_ & _ & He2).
    { assert (-32 <= ilog2 N1 (D1 * 3600)); [|lia].
      apply (ilog2_lower N1 (D1 * 3600) 32); try lia.
      change (2 ^ 53) with 9007199254740992 in He1.
      change (2 ^ 32) with 4294967296.
      (* N1 * 10^6 * 2 >= us * D1 >= D1 *)
      assert (us * D1 <= 2 * (N1 * 1000000)) by nia.
      nia. }
    change (nearest N1 (D1 * 3600)) with y in He2. fold N2 D2 in He2.
    change (2 ^ 53) with 9007199254740992 in He1, He2.
    assert (Hlt : N2 < (q + 1) * D2).
    { set (B := 9007199254740992) in *.
      assert (Ha : N1 * 1000000 * B <= us * D1 * (B + 1)) by lia.
      assert (Hb : N2 * (D1 * 3600) * B <= N1 * D2 * (B + 1)) by lia.
      assert (Hc : N2 * (D1 * 3600) * B * (1000000 * B)
                   <= us * D1 * (B + 1) * (D2 * (B + 1))).
      { transitivity (N1 * D2 * (B + 1) * (1000000 * B)).
        - apply Z.mul_le_mono_nonneg_r; [subst B; lia | exact Hb].
        - replace (N1 * D2 * (B + 1) * (1000000 * B))
            with (N1 * 1000000 * B * (D2 * (B + 1))) by ring.
          apply Z.mul_le_mono_nonneg_r; [subst B; nia | exact Ha]. }
      assert (Hd : us * ((B + 1) * (B + 1)) < (us + 1000) * (B * B))
        by (subst B; nia).
      assert (He : (us + 1000) <= (q + 1) * 3600000000) by lia.
      (* cancel D1 * D2 *)
      assert (Hf' : N2 * 3600000000 * (B * B) * D1
                    <= us * ((B + 1) * (B + 1)) * D2 * D1).
      { replace (N2 * 3600000000 * (B * B) * D1)
          with (N2 * (D1 * 3600) * B * (1000000 * B)) by ring.
        replace (us * ((B + 1) * (B + 1)) * D2 * D1)
          with (us * D1 * (B + 1) * (D2 * (B + 1))) by ring.
        exact Hc. }
      apply Z.mul_le_mono_pos_r in Hf'; [|exact Hd1].
      assert (Hg : N2 * 3600000000 * (B * B) < (q + 1) * 3600000000 * (B * B) * D2).
      { eapply Z.le_lt_trans; [exact Hf'|].
        apply Z.lt_le_trans with ((us + 1000) * (B * B) * D2).
        - apply Z.mul_lt_mono_pos_r; [exact Hd2 | exact Hd].
        - apply Z.mul_le_mono_nonneg_r; [lia|].
          apply Z.mul_le_mono_nonneg_r; [subst B; lia | exact He]. }
      replace ((q + 1) * 3600000000 * (B * B) * D2)
        with ((q + 1) * D2 * (3600000000 * (B * B))) in Hg by ring.
      rewrite <- (Z.mul_assoc N2) in Hg.
      apply Z.mul_lt_mono_pos_r in Hg; [exact Hg | subst B; lia]. }
    symmetry. apply (Z.div_unique N2 D2 q (N2 - q * D2)); lia.
Qed.

Lemma abs_mul_pos a b : 0 <= b -> Z.abs (a * b) = Z.abs a * b.
Proof. intros Hb. rewrite Z.abs_mul. f_equal. lia. Qed.

(** The percentage is an integer nearest to [100 * s / p]: the two
    roundings of the float arithmetic are too small to move it to another
    integer; at an exact half it is one of the two neighbours. *)
Lemma percentage_of_nearest s p :
  0 <= s < 2 ^ 43 -> 0 < p < 2 ^ 1000 ->
  exists k, percentage_of s p = Some k /\ 2 * Z.abs (k * p - 100 * s) <= p.
Proof.
  intros Hs Hp. unfold percentage_of.
  replace (0 <? p) with true by (symmetry; apply Z.ltb_lt; lia).
  assert (H43 : 2 ^ 43 = 8796093022208) by reflexivity.
  assert (H52 : 2 ^ 52 = 4503599627370496) by reflexivity.
  destruct (nearest_sandwich s p 0 (2 ^ 43)) as (Hf1 & Hd1 & Hlo1 & Hhi1);
    [lia | nia | nia |].
  unfold truediv. rewrite Hf1.
  set (x := nearest s p) in *. set (N1 := num x) in *. set (D1 := den x) in *.
  destruct (nearest_sandwich (N1 * 100) D1 0 (100 * 2 ^ 43))
    as (Hf2 & Hd2 & Hlo2 & Hhi2); [lia | nia | nia |].
  unfold mul_int. fold N1 D1. rewrite Hf2.
  set (y := nearest (N1 * 100) D1) in *.
  set (N2 := num y) in *. set (D2 := den y) in *.
  exists (round y). split; [reflexivity|].
  unfold round. fold N2 D2.
  pose proof (rne_error N2 D2 Hd2) as He3.
  set (k := rne N2 D2) in *.
  destruct (Z.eq_dec s 0) as [-> | Hs0].
  { assert (Hk : k = 0) by (subst k N2 D2 y N1 D1 x; vm_compute; reflexivity).
    rewrite Hk. cbn. lia. }
  assert (Hspos : 0 < s) by lia.
  set (K := 2 ^ 1000) in *.
  assert (HK : 0 < K) by (subst K; apply pow2_gt0; lia).
  destruct (nearest_error s p Hspos ltac:(lia)) as (_ & _ & He1).
  { assert (-1000 <= ilog2 s p); [|lia].
    apply (ilog2_lower s p 1000); try lia; fold K; nia. }
  change (nearest s p) with x in He1. fold N1 D1 in He1.
  change (2 ^ 53) with 9007199254740992 in He1.
  set (B := 9007199254740992) in *.
  assert (HB : B = 9007199254740992) by reflexivity.
  assert (HsD : 0 < s * D1) by nia.
  assert (HN1 : 0 < N1).
  { destruct (Z.le_gt_cases N1 0) as [Hle|]; [|assumption]. exfalso.
    assert (N1 = 0) by lia. rewrite H in He1.
    replace (0 * p - s * D1) with (- (s * D1)) in He1 by ring.
    rewrite Z.abs_opp, Z.abs_eq in He1 by lia. nia. }
  (* N1 * p <= 2 * s * D1 and s * D1 <= 2 * N1 * p *)
  assert (Hup1 : N1 * p <= 2 * (s * D1)) by lia.
  assert (Hlow1 : s * D1 <= 2 * (N1 * p)) by lia.
  destruct (nearest_error (N1 * 100) D1 ltac:(lia) Hd1) as (_ & _ & He2).
  { assert (-1001 <= ilog2 (N1 * 100) D1); [|lia].
    apply (ilog2_lower (N1 * 100) D1 1001); try lia.
    replace (2 ^ 1001) with (2 * K)
      by (subst K; rewrite <- Z.pow_succ_r by lia; reflexivity).
    assert (D1 <= s * D1) by nia.
    assert (N1 * p <= N1 * K) by (apply Z.mul_le_mono_nonneg_l; lia).
    lia. }
  change (nearest (N1 * 100) D1) with y in He2. fold N2 D2 in He2.
  change (2 ^ 53) with B in He2.
  (* the three errors *)
  set (e1 := N1 * p - s * D1) in *.
  set (e2 := N2 * D1 - N1 * 100 * D2) in *.
  set (e3 := k * D2 - N2) in *.
  assert (Hid : (k * p - 100 * s) * (D1 * D2)
                = e3 * (D1 * p) + e2 * p + e1 * (100 * D2))
    by (subst e1 e2 e3; ring).
  assert (HW : 0 < D1 * D2) by nia.
  assert (HD1p : 0 <= D1 * p) by nia.
  assert (Hsum : Z.abs (k * p - 100 * s) * (D1 * D2)
                 <= Z.abs e3 * (D1 * p) + Z.abs e2 * p + Z.abs e1 * (100 * D2)).
  { rewrite <- abs_mul_pos by lia. rewrite Hid.
    rewrite <- (abs_mul_pos e3) by lia.
    rewrite <- (abs_mul_pos e2 p) by lia.
    rewrite <- (abs_mul_pos e1) by lia. lia. }
  set (X := Z.abs (k * p - 100 * s)) in *.
  set (a1 := Z.abs e1) in *. set (a2 := Z.abs e2) in *. set (a3 := Z.abs e3) in *.
  assert (Ha1 : 0 <= a1) by (subst a1; lia).
  assert (Ha2 : 0 <= a2) by (subst a2; lia).
  assert (Ha3 : 0 <= a3) by (subst a3; lia).
  (* multiply by 2 * B *)
  assert (T3 : 2 * a3 * (D1 * p) * B <= D2 * (D1 * p) * B).
  { apply Z.mul_le_mono_nonneg_r; [lia|].
    apply Z.mul_le_mono_nonneg_r; [lia | exact He3]. }
  assert (T2 : 2 * (a2 * B) * p <= 2 * (N1 * 100 * D2) * p).
  { apply Z.mul_le_mono_nonneg_r; [lia|]. lia. }
  assert (T2' : 2 * (N1 * 100 * D2) * p <= 400 * (s * D1) * D2).
  { replace (2 * (N1 * 100 * D2) * p) with (200 * D2 * (N1 * p)) by ring.
    replace (400 * (s * D1) * D2) with (200 * D2 * (2 * (s * D1))) by ring.
    apply Z.mul_le_mono_nonneg_l; lia. }
  assert (T1 : 2 * (a1 * B) * (100 * D2) <= 2 * (s * D1) * (100 * D2)).
  { apply Z.mul_le_mono_nonneg_r; lia. }
  assert (Hall : 2 * X * B * (D1 * D2) <= (p * B + 600 * s) * (D1 * D2)).
  { replace (2 * X * B * (D1 * D2)) with (2 * B * (X * (D1 * D2))) by ring.
    transitivity (2 * B * (a3 * (D1 * p) + a2 * p + a1 * (100 * D2))).
    - apply Z.mul_le_mono_nonneg_l; [lia | exact Hsum].
    - replace (2 * B * (a3 * (D1 * p) + a2 * p + a1 * (100 * D2)))
        with (2 * a3 * (D1 * p) * B + 2 * (a2 * B) * p + 2 * (a1 * B) * (100 * D2))
        by ring.
      replace ((p * B + 600 * s) * (D1 * D2))
        with (D2 * (D1 * p) * B + 400 * (s * D1) * D2 + 2 * (s * D1) * (100 * D2))
        by ring.
      lia. }
  apply Z.mul_le_mono_pos_r in Hall; [|exact HW].
  assert (2 * X * B < (p + 1) * B) by lia.
  assert (2 * X < p + 1); [|lia].
  apply (Z.mul_lt_mono_pos_r B); lia.
Qed.

End PyFloatFacts.

(** The percentage of a score between [0] and the possible total is an
    integer between [0] and [100]: the quotient is a double in [0, 1],
    its product by [100] a double in [0, 100]. *)
Lemma percentage_of_bounds s p :
  0 <= s <= p -> exists k, percentage_of s p = Some k /\ 0 <= k <= 100.
Proof.
  intros Hs. unfold percentage_of.
  destruct (0 <? p) eqn:Ep; [|exists 0; split; [reflexivity | lia]].
  apply Z.ltb_lt in Ep.
  destruct (PyFloatFacts.nearest_between s p 1 Ep ltac:(lia) ltac:(reflexivity))
    as (Hf & Hd & Hn).
  unfold PyFloat.truediv. rewrite Hf.
  set (x := PyFloat.nearest s p) in *.
  destruct (PyFloatFacts.nearest_between (PyFloat.num x * 100) (PyFloat.den x) 100
              Hd ltac:(lia) ltac:(reflexivity)) as (Hf' & Hd' & Hn').
  unfold PyFloat.mul_int. rewrite Hf'.
  set (y := PyFloat.nearest (PyFloat.num x * 100) (PyFloat.den x)) in *.
  exists (PyFloat.round y). split; [reflexivity|]. unfold PyFloat.round. split.
  - apply PyFloatFacts.rne_nonneg; lia.
  - apply PyFloatFacts.rne_upper; lia.
Qed.

Lemma percentage_of_no_total s p : p <= 0 -> percentage_of s p = Some 0.
Proof.
  intros Hp. unfold percentage_of.
  replace (0 <? p) with false by (symmetry; apply Z.ltb_ge; lia). reflexivity.
Qed.

(** ** The order of the sort keys *)

Lemma ascii_compare_refl x : Ascii.compare x x = Eq.
Proof. unfold Ascii.compare. apply N.compare_refl. Qed.

Lemma ascii_compare_trans x y z :
  Ascii.compare x y = Lt -> Ascii.compare y z = Lt -> Ascii.compare x z = Lt.
Proof.
  unfold Ascii.compare. rewrite !N.compare_lt_iff. apply N.lt_trans.
Qed.

Lemma string_compare_refl a : String.compare a a = Eq.
Proof. induction a as [|x a IH]; cbn; [reflexivity|]. now rewrite ascii_compare_refl. Qed.

Lemma string_compare_trans a : forall b c,
  String.compare a b = Lt -> String.compare b c = Lt -> String.compare a c = Lt.
Proof.
  induction a as [|x a IH]; intros [|y b] [|z c]; cbn; try congruence.
  destruct (Ascii.compare x y) eqn:Exy; try congruence;
    destruct (Ascii.compare y z) eqn:Eyz; try congruence; intros H1 H2.
  - apply Ascii.compare_eq_iff in Exy, Eyz. subst.
    rewrite ascii_compare_refl. eauto.
  - apply Ascii.compare_eq_iff in Exy. subst. now rewrite Eyz.
  - apply Ascii.compare_eq_iff in Eyz. subst. now rewrite Exy.
  - now rewrite (ascii_compare_trans x y z).
Qed.

Lemma string_ltb_irrefl a : String.ltb a a = false.
Proof. unfold String.ltb. now rewrite string_compare_refl. Qed.

Lemma string_ltb_trans a b c :
  String.ltb a b = true -> String.ltb b c = true -> String.ltb a c = true.
Proof.
  unfold String.ltb. intros H1 H2.
  destruct (String.compare a b) eqn:E1; try discriminate.
  destruct (String.compare b c) eqn:E2; try discriminate.
  now rewrite (string_compare_trans a b c).
Qed.

Lemma string_ltb_total a b :
  String.ltb a b = false -> String.ltb b a = false -> a = b.
Proof.
  unfold String.ltb. rewrite (String.compare_antisym b a).
  destruct (String.compare a b) eqn:E; cbn; try discriminate.
  intros _ _. now apply String.compare_eq_iff.
Qed.

(** [key_ltb] spelled out: resolution time first, then the higher
    percentage, then the username. *)
Lemma key_ltb_spec a1 a2 a3 b1 b2 b3 :
  key_ltb (a1, a2, a3) (b1, b2, b3) = true <->
  a1 < b1 \/ (a1 = b1 /\ (a2 < b2 \/ (a2 = b2 /\ String.ltb a3 b3 = true))).
Proof.
  unfold key_ltb.
  destruct (a1 =? b1) eqn:E1; cbn.
  - apply Z.eqb_eq in E1. destruct (a2 =? b2) eqn:E2; cbn.
    + apply Z.eqb_eq in E2. intuition lia.
    + apply Z.eqb_neq in E2. rewrite Z.ltb_lt. intuition lia.
  - apply Z.eqb_neq in E1. rewrite Z.ltb_lt. intuition lia.
Qed.

Lemma key_ltb_irrefl k : key_ltb k k = false.
Proof.
  destruct k as [[k1 k2] k3]. apply not_true_is_false. rewrite key_ltb_spec.
  rewrite string_ltb_irrefl. intuition (lia || discriminate).
Qed.

Lemma key_ltb_trans a b c :
  key_ltb a b = true -> key_ltb b c = true -> key_ltb a c = true.
Proof.
  destruct a as [[a1 a2] a3], b as [[b1 b2] b3], c as [[c1 c2] c3].
  rewrite !key_ltb_spec.
  intros [?|[? [?|[? H1]]]] [?|[? [?|[? H2]]]]; try (intuition lia).
  right. split; [lia|]. right. split; [lia|]. eapply string_ltb_trans; eauto.
Qed.

Lemma key_ltb_total a b :
  key_ltb a b = false -> key_ltb b a = false -> a = b.
Proof.
  destruct a as [[a1 a2] a3], b as [[b1 b2] b3].
  intros H1 H2.
  apply not_true_iff_false in H1, H2. rewrite key_ltb_spec in H1, H2.
  assert (a1 = b1) by lia. assert (a2 = b2) by lia. subst.
  f_equal. apply string_ltb_total.
  - apply not_true_is_false. intuition lia.
  - apply not_true_is_false. intuition lia.
Qed.

(** If [c] does not precede [b] and [b] does not precede [a], then [c]
    does not precede [a]. *)
Lemma key_ltb_negtrans a b c :
  key_ltb c b = false -> key_ltb b a = false -> key_ltb c a = false.
Proof.
  intros H1 H2. apply not_true_is_false. intros H3.
  destruct (key_ltb a b) eqn:Eab.
  - rewrite (key_ltb_trans c a b H3 Eab) in H1. discriminate.
  - assert (a = b) by (apply key_ltb_total; assumption). subst.
    rewrite H3 in H1. discriminate.
Qed.

(** ** The stable sort *)

Section SortFacts.
Context {A K : Type} `{EqDecision K}.
Variable key : A -> K.
Variable ltb : K -> K -> bool.
Hypothesis ltb_irrefl : forall k, ltb k k = false.
Hypothesis ltb_trans : forall a b c, ltb a b = true -> ltb b c = true -> ltb a c = true.
Hypothesis ltb_negtrans :
  forall a b c, ltb c b = false -> ltb b a = false -> ltb c a = false.

Lemma ltb_asym a b : ltb a b = true -> ltb b a = false.
Proof.
  intros H. apply not_true_is_false. intros H'.
  pose proof (ltb_trans a b a H H') as Haa. rewrite ltb_irrefl in Haa. discriminate.
Qed.

Lemma insert_sorted_perm x l : Permutation (insert_sorted key ltb x l) (x :: l).
Proof.
  induction l as [|y t IH]; cbn; [reflexivity|].
  destruct (ltb (key y) (key x)); [|reflexivity].
  rewrite IH. apply perm_swap.
Qed.

Lemma list_sort_perm l : Permutation (list_sort key ltb l) l.
Proof.
  induction l as [|x t IH]; cbn; [reflexivity|].
  rewrite insert_sorted_perm. now constructor.
Qed.

Lemma insert_sorted_sorted x l :
  key_sorted key ltb l -> key_sorted key ltb (insert_sorted key ltb x l).
Proof.
  unfold key_sorted. induction 1 as [|y t Hs IH Hy]; cbn.
  - constructor; constructor.
  - destruct (ltb (key y) (key x)) eqn:E.
    + constructor; [exact IH|].
      rewrite Forall_forall. intros z Hz.
      rewrite insert_sorted_perm in Hz.
      apply elem_of_cons in Hz as [-> | Hz]; [now apply ltb_asym|].
      rewrite Forall_forall in Hy. now apply Hy.
    + constructor; [now constructor|].
      constructor; [exact E|].
      rewrite Forall_forall in Hy |- *. intros z Hz.
      apply (ltb_negtrans _ (key y)); [now apply Hy | exact E].
Qed.

Lemma list_sort_sorted l : key_sorted key ltb (list_sort key ltb l).
Proof.
  induction l as [|x t IH]; cbn; [constructor|].
  now apply insert_sorted_sorted.
Qed.

(** Stability: the elements of one key keep their order. *)
Lemma insert_sorted_stable k x l :
  filter (fun a => key a = k) (insert_sorted key ltb x l)
  = filter (fun a => key a = k) (x :: l).
Proof.
  induction l as [|y t IH]; cbn; [reflexivity|].
  destruct (ltb (key y) (key x)) eqn:E; [|reflexivity].
  rewrite (filter_cons _ y (insert_sorted key ltb x t)), IH.
  rewrite !filter_cons.
  destruct (decide (key y = k)) as [Hy|Hy], (decide (key x = k)) as [Hx|Hx];
    try reflexivity.
  exfalso. rewrite Hy, Hx, ltb_irrefl in E. discriminate.
Qed.

Lemma list_sort_stable k l :
  filter (fun a => key a = k) (list_sort key ltb l)
  = filter (fun a => key a = k) l.
Proof.
  induction l as [|x t IH]; cbn; [reflexivity|].
  rewrite insert_sorted_stable, !filter_cons, IH. reflexivity.
Qed.

End SortFacts.

(** ** Ranking positions *)

Lemma add_ranking_positions_length l : forall i,
  length (add_ranking_positions i l) = length l.
Proof. induction l as [|x t IH]; intros i; cbn; [reflexivity|]. now rewrite IH. Qed.

Lemma add_ranking_positions_lookup l : forall i (n : nat),
  add_ranking_positions i l !! n
  = set_ranking_position (i + Z.of_nat n) <$> l !! n.
Proof.
  induction l as [|x t IH]; intros i n; [reflexivity|].
  destruct n as [|n]; cbn.
  - now rewrite Z.add_0_r.
  - rewrite IH. do 2 f_equal. lia.
Qed.

Lemma add_ranking_positions_positions l : forall i,
  map Entry.ranking_position (add_ranking_positions i l)
  = map (fun n => Some (i + Z.of_nat n)) (seq 0 (length l)).
Proof.
  induction l as [|x t IH]; intros i; cbn; [reflexivity|].
  rewrite Z.add_0_r. f_equal. rewrite IH, <- seq_shift, map_map.
  apply map_ext. intros n. f_equal. lia.
Qed.

Lemma sort_key_set_ranking_position i x :
  sort_key (set_ranking_position i x) = sort_key x.
Proof. reflexivity. Qed.

Lemma StronglySorted_lookup {A : Type} (R : A -> A -> Prop) (l : list A) :
  StronglySorted R l ->
  forall (i j : nat) a b, (i < j)%nat -> l !! i = Some a -> l !! j = Some b -> R a b.
Proof.
  induction 1 as [|x t Hs IH Hx]; intros i j a b Hij Ha Hb; [discriminate|].
  destruct j as [|j]; [lia|]. cbn in Hb.
  destruct i as [|i]; cbn in Ha.
  - injection Ha as <-. rewrite Forall_forall in Hx. apply Hx.
    eapply list_elem_of_lookup_2; eauto.
  - eapply IH; [|eassumption..]. lia.
Qed.

(** Claim C1, as amended.  The leaderboard is the stable sort of the
    students' entries by the key (resolution time ascending, a missing
    resolution time counting as 999999 hours; percentage descending;
    username ascending): a permutation of the entries, in key order, the
    entries of one key in their original order.  The ranking positions
    are then 1, 2, ..., n along the sorted sequence.  A student without a
    resolution time comes after every student whose resolution time is
    below 999999 hours, and the four students A, B, C, D of the
    specification come out as D, B, A, C. *)
Theorem C1_leaderboard_order (leaderboard_data : list Entry.t) :
  let sorted := list_sort sort_key key_ltb leaderboard_data in
  let ranked := rank leaderboard_data in
  Permutation sorted leaderboard_data /\
  key_sorted sort_key key_ltb sorted /\
  (forall k, filter (fun x => sort_key x = k) sorted
             = filter (fun x => sort_key x = k) leaderboard_data) /\
  (forall a b,
      key_ltb (sort_key a) (sort_key b) = true <->
      let ra := default 999999 (Entry.resolution_time_hours a) in
      let rb := default 999999 (Entry.resolution_time_hours b) in
      ra < rb \/
      (ra = rb /\
       (Entry.percentage b < Entry.percentage a \/
        (Entry.percentage a = Entry.percentage b /\
         String.ltb (Entry.github_username a) (Entry.github_username b) = true)))) /\
  (forall n : nat,
      ranked !! n = set_ranking_position (Z.of_nat n + 1) <$> sorted !! n) /\
  map Entry.ranking_position ranked
  = map (fun n => Some (Z.of_nat n)) (seq 1 (length leaderboard_data)) /\
  (forall (i j : nat) a b h,
      ranked !! i = Some a -> ranked !! j = Some b ->
      Entry.resolution_time_hours a = None ->
      Entry.resolution_time_hours b = Some h -> h < 999999 ->
      (j < i)%nat) /\
  map Entry.github_username (rank four_students) = ["D"; "B"; "A"; "C"].
Proof.
  intros sorted ranked.
  assert (Hsorted : key_sorted sort_key key_ltb sorted)
    by (apply list_sort_sorted; [apply key_ltb_irrefl | apply key_ltb_trans
                                | apply key_ltb_negtrans]).
  assert (Hlookup : forall n : nat,
             ranked !! n = set_ranking_position (Z.of_nat n + 1) <$> sorted !! n).
  { intros n. unfold ranked, rank. rewrite add_ranking_positions_lookup.
    fold sorted. do 2 f_equal. lia. }
  split; [apply list_sort_perm|].
  split; [exact Hsorted|].
  split; [intros k; apply list_sort_stable, key_ltb_irrefl|].
  split.
  { intros a b. unfold sort_key. rewrite key_ltb_spec.
    destruct (Entry.resolution_time_hours a), (Entry.resolution_time_hours b);
      cbn; intuition lia. }
  split; [exact Hlookup|].
  split.
  { unfold ranked, rank. rewrite add_ranking_positions_positions.
    fold sorted. unfold sorted.
    rewrite (Permutation_length (list_sort_perm sort_key key_ltb leaderboard_data)).
    rewrite <- seq_shift, map_map. apply map_ext. intros n. f_equal. lia. }
  split; [|reflexivity].
  intros i j a b h Ha Hb Hra Hrb Hh.
  rewrite Hlookup in Ha, Hb.
  destruct (sorted !! i) as [a0|] eqn:Ea; [|discriminate].
  destruct (sorted !! j) as [b0|] eqn:Eb; [|discriminate].
  injection Ha as <-. injection Hb as <-. cbn in Hra, Hrb.
  assert (Hlt : key_ltb (sort_key b0) (sort_key a0) = true).
  { unfold sort_key. rewrite Hra, Hrb. apply key_ltb_spec. lia. }
  destruct (Nat.lt_trichotomy i j) as [Hij | [Heq | Hji]]; [| |exact Hji].
  - pose proof (StronglySorted_lookup _ _ Hsorted i j a0 b0 Hij Ea Eb) as Hle.
    cbv beta in Hle. rewrite Hle in Hlt. discriminate.
  - subst j. rewrite Ea in Eb. injection Eb as <-.
    rewrite Hra in Hrb. discriminate.
Qed.

(** The ranking theorem at the four students of the specification: C,
    without a resolution time, is ranked after D. *)
Lemma C1_leaderboard_order_witness :
  rank four_students !! 3%nat = Some (set_ranking_position 4 (entry_with "C" None 100)) /\
  rank four_students !! 0%nat = Some (set_ranking_position 1 (entry_with "D" (Some 5) 50)) /\
  (0 < 3)%nat.
Proof.
  split; [reflexivity|]. split; [reflexivity|].
  destruct (C1_leaderboard_order four_students)
    as (_ & _ & _ & _ & _ & _ & Hlast & _).
  apply (Hlast 3%nat 0%nat (set_ranking_position 4 (entry_with "C" None 100))
           (set_ranking_position 1 (entry_with "D" (Some 5) 50)) 5);
    [reflexivity | reflexivity | reflexivity | reflexivity | lia].
Defined.

(** ** Computations that only log *)

Lemma state_eta st : mk_state (db st) (journal st) (logs st ++ []) = st.
Proof. destruct st. cbn. now rewrite app_nil_r. Qed.

Lemma only_logs_ret {A : Type} (a : A) : only_logs (mret a) (Ok a).
Proof. intros st. exists []. unfold mret, M_ret. now rewrite state_eta. Qed.

Lemma only_logs_raise {A : Type} (e : exn) : only_logs (@raise A e) (Raise e).
Proof. intros st. exists []. unfold raise. now rewrite state_eta. Qed.

Lemma only_logs_log l msg : only_logs (log l msg) (Ok tt).
Proof. intros st. eexists. reflexivity. Qed.

Lemma only_logs_bind {A B : Type} (m : M A) (f : A -> M B) a r :
  only_logs m (Ok a) -> only_logs (f a) r -> only_logs (m ≫= f) r.
Proof.
  intros Hm Hf st. destruct (Hm st) as [l1 H1].
  destruct (Hf (mk_state (db st) (journal st) (logs st ++ l1))) as [l2 H2].
  exists (l1 ++ l2). unfold mbind, M_bind. rewrite H1, H2. cbn.
  now rewrite app_assoc.
Qed.

Lemma only_logs_bind_raise {A B : Type} (m : M A) (f : A -> M B) e :
  only_logs m (Raise e) -> only_logs (m ≫= f) (Raise e).
Proof.
  intros Hm st. destruct (Hm st) as [l1 H1].
  exists l1. unfold mbind, M_bind. now rewrite H1.
Qed.

Lemma only_logs_collect {A B : Type} (body : A -> M B) (g : A -> outcome B) xs :
  (forall x, only_logs (body x) (g x)) ->
  only_logs (collect xs body) (all_ok (map g xs)).
Proof.
  intros Hbody. induction xs as [|x t IH]; cbn; [apply only_logs_ret|].
  specialize (Hbody x). destruct (g x) as [b|e].
  - eapply only_logs_bind; [exact Hbody|].
    destruct (all_ok (map g t)) as [bs|e].
    + eapply only_logs_bind; [exact IH | apply only_logs_ret].
    + now apply only_logs_bind_raise.
  - now apply only_logs_bind_raise.
Qed.

Section LifecycleFacts.
Variable fromisoformat : string -> option datetime.

(** The method returns the value of [resolution_time_of] and never
    raises. *)
Lemma calculate_resolution_time_only_logs created_at updated_at :
  only_logs (calculate_resolution_time fromisoformat created_at updated_at)
            (Ok (resolution_time_of fromisoformat created_at updated_at)).
Proof.
  unfold calculate_resolution_time, resolution_time_of.
  destruct (calculate_resolution_time_try fromisoformat created_at updated_at).
  - apply only_logs_ret.
  - eapply only_logs_bind; [apply only_logs_log | apply only_logs_ret].
Qed.

Lemma leaderboard_entry_only_logs grades_data assignment_points student :
  only_logs (leaderboard_entry fromisoformat grades_data assignment_points student)
            (leaderboard_entry_result fromisoformat grades_data assignment_points student).
Proof.
  unfold leaderboard_entry, leaderboard_entry_result.
  destruct (percentage_of _ _) as [p|]; cbn [lift_option].
  - eapply only_logs_bind; [apply only_logs_ret|].
    destruct (default false (Student.has_fork student)).
    + eapply only_logs_bind;
        [apply calculate_resolution_time_only_logs | apply only_logs_ret].
    + eapply only_logs_bind; [apply only_logs_ret | apply only_logs_ret].
  - apply only_logs_bind_raise, only_logs_raise.
Qed.

Lemma leaderboard_entry_value grades_data assignment_points student st entry st' :
  leaderboard_entry fromisoformat grades_data assignment_points student st
  = (Ok entry, st') ->
  leaderboard_entry_result fromisoformat grades_data assignment_points student
  = Ok entry.
Proof.
  intros H.
  destruct (leaderboard_entry_only_logs grades_data assignment_points student st)
    as [l Hl].
  congruence.
Qed.

End LifecycleFacts.

(** ** Resolution time *)

Section ResolutionTime.
Variable fromisoformat : string -> option datetime.

Lemma datetime_sub_in_range du dc us :
  datetime_in_range du -> datetime_in_range dc ->
  datetime_sub du dc = Ok us -> Z.abs us < 2 ^ 59.
Proof.
  intros [Hwu Hou] [Hwc Hoc]. unfold datetime_sub.
  change (2 ^ 59) with 576460752303423488.
  change (10 ^ 6) with 1000000 in *.
  destruct (utcoffset du) as [ou|], (utcoffset dc) as [oc|]; intros H;
    try discriminate; injection H as <-.
  - specialize (Hou ou eq_refl). specialize (Hoc oc eq_refl). lia.
  - lia.
Qed.

(** The hours of a difference of [us] microseconds: the quotient by one
    hour truncated toward zero or, within a millisecond short of a whole
    number of hours, possibly the next hour away from zero. *)
Lemma hours_of_difference us :
  Z.abs us < 2 ^ 59 ->
  exists ts,
    total_seconds us = Some ts /\
    let h := PyFloat.trunc (PyFloat.div_int ts 3600) in
    (Z.abs us mod hour + 1000 <= hour -> h = Z.quot us hour) /\
    (h = Z.quot us hour \/ h = Z.quot us hour + Z.sgn us).
Proof.
  intros Hr. unfold total_seconds, PyFloat.truediv.
  destruct (Z.le_gt_cases 0 us) as [Hpos | Hneg].
  - destruct (PyFloatFacts.hours_nonneg us ltac:(lia)) as (Hf & _ & _ & Hb & Hgap).
    rewrite Hf. eexists. split; [reflexivity|]. cbv zeta.
    rewrite Z.abs_eq by lia.
    rewrite (Z.quot_div_nonneg us hour) by (unfold hour; lia).
    split; [exact Hgap|].
    destruct (Z.eq_dec us 0) as [-> | Hne].
    + left. apply Hgap. vm_compute. discriminate.
    + rewrite (Z.sgn_pos us) by lia. lia.
  - set (v := - us).
    destruct (PyFloatFacts.hours_nonneg v ltac:(lia)) as (Hf & _ & Hd & Hb & Hgap).
    replace us with (- v) by lia.
    rewrite PyFloatFacts.nearest_opp, PyFloatFacts.finite_opp, Hf.
    eexists. split; [reflexivity|]. cbv zeta.
    rewrite (PyFloatFacts.trunc_div_int_opp _ _ Hd).
    rewrite Z.abs_opp, (Z.abs_eq v) by lia.
    rewrite Z.quot_opp_l by (unfold hour; lia).
    rewrite (Z.quot_div_nonneg v hour) by (unfold hour; lia).
    rewrite Z.sgn_opp, (Z.sgn_pos v) by lia.
    split; [intros Hg; now rewrite (Hgap Hg) | lia].
Qed.

(** A difference of whole seconds is never within a millisecond short of
    a whole number of hours. *)
Lemma whole_seconds_gap us :
  us mod 10 ^ 6 = 0 -> Z.abs us mod hour + 1000 <= hour.
Proof.
  intros Hs. unfold hour. change (10 ^ 6) with 1000000 in *.
  assert (Ha : Z.abs us mod 1000000 = 0).
  { destruct (Z.abs_eq_or_opp us) as [-> | ->]; [exact Hs|].
    apply Z.mod_opp_l_z; [lia | exact Hs]. }
  apply Z.mod_divide in Ha; [|lia]. destruct Ha as [m ->].
  rewrite Z.mul_mod_distr_r by lia.
  pose proof (Z.mod_pos_bound m 3600 ltac:(lia)). lia.
Qed.

(** Two timestamps that parse and can be subtracted. *)
Lemma resolution_time_of_parsed created updated dc du us :
  created <> "" -> updated <> "" ->
  fromisoformat (replace_Z created) = Some dc ->
  fromisoformat (replace_Z updated) = Some du ->
  datetime_sub du dc = Ok us -> Z.abs us < 2 ^ 59 ->
  exists h,
    resolution_time_of fromisoformat (Some created) (Some updated) = Some h /\
    (Z.abs us mod hour + 1000 <= hour -> h = Z.quot us hour) /\
    (h = Z.quot us hour \/ h = Z.quot us hour + Z.sgn us).
Proof.
  intros Hc Hu Hdc Hdu Hs Hr.
  unfold resolution_time_of, calculate_resolution_time_try, falsy_text.
  apply String.eqb_neq in Hc, Hu. rewrite Hc, Hu. cbn [orb].
  unfold parse_timestamp. rewrite Hdc, Hdu, Hs.
  destruct (hours_of_difference us Hr) as (ts & -> & Hh).
  eexists. split; [reflexivity | exact Hh].
Qed.

Lemma resolution_time_of_malformed created updated :
  fromisoformat (replace_Z created) = None \/
  fromisoformat (replace_Z updated) = None ->
  resolution_time_of fromisoformat (Some created) (Some updated) = None.
Proof.
  intros H. unfold resolution_time_of, calculate_resolution_time_try.
  destruct (falsy_text (Some created) || falsy_text (Some updated));
    [reflexivity|].
  unfold parse_timestamp.
  destruct (fromisoformat (replace_Z created)); [|reflexivity].
  destruct (fromisoformat (replace_Z updated)); [|reflexivity].
  destruct H; discriminate.
Qed.

Lemma resolution_time_of_mixed created updated dc du e :
  fromisoformat (replace_Z created) = Some dc ->
  fromisoformat (replace_Z updated) = Some du ->
  datetime_sub du dc = Raise e ->
  resolution_time_of fromisoformat (Some created) (Some updated) = None.
Proof.
  intros Hdc Hdu He. unfold resolution_time_of, calculate_resolution_time_try.
  destruct (falsy_text (Some created) || falsy_text (Some updated));
    [reflexivity|].
  unfold parse_timestamp. now rewrite Hdc, Hdu, He.
Qed.

(** Claim C3, as amended.  For a student whose fork flag is true and
    whose two timestamps parse as datetimes (both with, or both without,
    a UTC offset), [resolution_time_hours] is the [int] of the double
    [total_seconds() / 3600].  It is the difference (last update less
    creation) divided by one hour and truncated toward zero, which is
    the floor whenever the last update is not earlier than the creation,
    provided the difference is not within a millisecond short of a whole
    number of hours: so for every difference of whole seconds.  Within
    that millisecond it is that truncated quotient or the next hour away
    from zero.  A malformed timestamp, and a pair of which only one
    carries an offset, give [None]; the method never raises.  For a
    student whose fork flag is not true, [resolution_time_hours] is
    [None] whatever the timestamps. *)
Theorem C3_resolution_time :
  (forall created updated dc du us,
      created <> "" -> updated <> "" ->
      fromisoformat (replace_Z created) = Some dc ->
      fromisoformat (replace_Z updated) = Some du ->
      datetime_in_range dc -> datetime_in_range du ->
      datetime_sub du dc = Ok us ->
      exists h,
        resolution_time_of fromisoformat (Some created) (Some updated) = Some h /\
        (Z.abs us mod hour + 1000 <= hour -> h = Z.quot us hour) /\
        (us mod 10 ^ 6 = 0 -> h = Z.quot us hour) /\
        (h = Z.quot us hour \/ h = Z.quot us hour + Z.sgn us) /\
        (0 <= us -> Z.quot us hour = us / hour)) /\
  (forall created updated,
      fromisoformat (replace_Z created) = None \/
      fromisoformat (replace_Z updated) = None ->
      resolution_time_of fromisoformat (Some created) (Some updated) = None) /\
  (forall created updated dc du e,
      fromisoformat (replace_Z created) = Some dc ->
      fromisoformat (replace_Z updated) = Some du ->
      datetime_sub du dc = Raise e ->
      resolution_time_of fromisoformat (Some created) (Some updated) = None) /\
  (forall created_at updated_at st,
      (calculate_resolution_time fromisoformat created_at updated_at st).1
      = Ok (resolution_time_of fromisoformat created_at updated_at)) /\
  (forall grades_data assignment_points student st entry st',
      leaderboard_entry fromisoformat grades_data assignment_points student st
      = (Ok entry, st') ->
      (Student.has_fork student = Some true ->
       Entry.resolution_time_hours entry
       = resolution_time_of fromisoformat (Student.fork_created_at student)
           (Student.last_updated_at student)) /\
      (Student.has_fork student <> Some true ->
       Entry.resolution_time_hours entry = None)).
Proof.
  split.
  { intros created updated dc du us Hc Hu Hdc Hdu Hrc Hru Hs.
    destruct (resolution_time_of_parsed created updated dc du us Hc Hu Hdc Hdu Hs
                (datetime_sub_in_range du dc us Hru Hrc Hs))
      as (h & Hres & Hgap & Hnear).
    exists h. split; [exact Hres|]. split; [exact Hgap|].
    split; [intros Hw; apply Hgap, whole_seconds_gap, Hw|].
    split; [exact Hnear|].
    intros H0. apply Z.quot_div_nonneg; [exact H0 | reflexivity]. }
  split; [exact resolution_time_of_malformed|].
  split; [exact resolution_time_of_mixed|].
  split.
  { intros c u st.
    destruct (calculate_resolution_time_only_logs fromisoformat c u st) as [l ->].
    reflexivity. }
  intros grades_data assignment_points student st entry st' H.
  apply leaderboard_entry_value in H. unfold leaderboard_entry_result in H.
  destruct (percentage_of _ _); [|discriminate]. injection H as <-. cbn.
  split.
  - intros ->. reflexivity.
  - intros Hf. destruct (Student.has_fork student) as [[|]|];
      [exfalso; now apply Hf | reflexivity | reflexivity].
Qed.

End ResolutionTime.

(** The resolution-time theorem at a fork created on 2024-01-01 and last
    updated two days, one hour, 59 minutes and 59 seconds later. *)
Lemma C3_resolution_time_witness :
  resolution_time_of fromisoformat_reader
    (Some "2024-01-01T00:00:00Z") (Some "2024-01-03T01:59:59Z") = Some 49.
Proof.
  destruct (C3_resolution_time fromisoformat_reader) as (Hparsed & _).
  destruct (Hparsed "2024-01-01T00:00:00Z" "2024-01-03T01:59:59Z"
              (Build_datetime 63839664000000000 (Some 0))
              (Build_datetime 63839843999000000 (Some 0)) 179999000000)
    as (h & Hres & _ & Hwhole & _).
  - discriminate.
  - discriminate.
  - reflexivity.
  - reflexivity.
  - split; [cbn; lia | intros o Ho; injection Ho as <-; lia].
  - split; [cbn; lia | intros o Ho; injection Ho as <-; lia].
  - reflexivity.
  - rewrite Hres, (Hwhole eq_refl). reflexivity.
Defined.

(** Claim C3 as stated fails.  A fork whose last update is one second
    earlier than its creation gets 0 hours, while the floor of
    -1 / 3600 is -1.  And a fork created one microsecond after the
    start of year 1 and last updated at the start of year 2000 gets
    17522856 hours, while its age is one microsecond short of them and
    the floor is 17522855: the double of the seconds is rounded up. *)
Lemma C3_floor_counterexample :
  let alice :=
    Student.mk "alice" (Some "2024-01-01T00:00:01Z") (Some "2024-01-01T00:00:00Z")
      None (Some true) in
  let bob :=
    Student.mk "bob" (Some "0001-01-01T00:00:00.000001+00:00")
      (Some "2000-01-01T00:00:00+00:00") None (Some true) in
  fromisoformat_reader (replace_Z "2024-01-01T00:00:01Z")
  = Some (Build_datetime 63839664001000000 (Some 0)) /\
  fromisoformat_reader (replace_Z "2024-01-01T00:00:00Z")
  = Some (Build_datetime 63839664000000000 (Some 0)) /\
  (63839664000000000 - 63839664001000000) / hour = -1 /\
  Entry.resolution_time_hours <$>
    value_of (leaderboard_entry fromisoformat_reader [] ∅ alice
                (initial empty_store)).1
  = Some (Some 0) /\
  fromisoformat_reader (replace_Z "0001-01-01T00:00:00.000001+00:00")
  = Some (Build_datetime 1 (Some 0)) /\
  fromisoformat_reader (replace_Z "2000-01-01T00:00:00+00:00")
  = Some (Build_datetime 63082281600000000 (Some 0)) /\
  (63082281600000000 - 1) / hour = 17522855 /\
  Entry.resolution_time_hours <$>
    value_of (leaderboard_entry fromisoformat_reader [] ∅ bob
                (initial empty_store)).1
  = Some (Some 17522856).
Proof. vm_compute. repeat split. Qed.

(** ** Points of an assignment *)

Lemma column_max_fold column : forall acc,
  match fold_left max_step column acc with
  | Some m => is_maximum (acc :: column) m
  | None => no_value (acc :: column)
  end.
Proof.
  induction column as [|c t IH]; intros acc; cbn.
  - destruct acc as [a|].
    + split; [left|]. intros v Hv. apply list_elem_of_singleton in Hv. injection Hv as ->. lia.
    + intros v Hv. apply list_elem_of_singleton in Hv. discriminate.
  - specialize (IH (max_step acc c)).
    destruct (fold_left max_step t (max_step acc c)) as [m|].
    + destruct IH as [Hin Hmax]. split.
      * apply elem_of_cons in Hin as [Hin|Hin]; [|do 2 right; exact Hin].
        destruct acc as [a|], c as [v|]; cbn in Hin; try discriminate.
        -- injection Hin as ->. destruct (Z.max_spec a v) as [[_ ->]|[_ ->]];
             [right; left | left].
        -- rewrite Hin. left.
        -- injection Hin as ->. right; left.
      * intros v Hv.
        assert (Hacc : forall w, max_step acc c = Some w -> w <= m)
          by (intros w Hw; apply Hmax; rewrite <- Hw; left).
        apply elem_of_cons in Hv as [Hv|Hv]; [|apply elem_of_cons in Hv as [Hv|Hv]].
        -- subst acc. destruct c as [w|]; cbn in Hacc.
           ++ specialize (Hacc _ eq_refl). lia.
           ++ now apply Hacc.
        -- subst c. destruct acc as [a|]; cbn in Hacc.
           ++ specialize (Hacc _ eq_refl). lia.
           ++ now apply Hacc.
        -- apply Hmax. now right.
    + intros v Hv.
      apply elem_of_cons in Hv as [Hv|Hv]; [|apply elem_of_cons in Hv as [Hv|Hv]].
      * subst acc. apply (IH (match c with Some w => Z.max v w | None => v end)).
        destruct c; left.
      * subst c. apply (IH (match acc with Some a => Z.max a v | None => v end)).
        destruct acc; left.
      * apply (IH v). now right.
Qed.

Lemma column_max_spec column :
  match column_max column with
  | Some m => is_maximum column m
  | None => no_value column
  end.
Proof.
  unfold column_max. fold max_step.
  pose proof (column_max_fold column None) as H.
  destruct (fold_left max_step column None) as [m|].
  - destruct H as [Hin Hmax]. split.
    + apply elem_of_cons in Hin as [Hin|Hin]; [discriminate | exact Hin].
    + intros v Hv. apply Hmax. now right.
  - intros v Hv. apply (H v). now right.
Qed.

Lemma is_maximum_unique column m m' :
  is_maximum column m -> is_maximum column m' -> m = m'.
Proof. intros [H1 H2] [H3 H4]. specialize (H2 _ H3). specialize (H4 _ H1). lia. Qed.

Lemma column_max_is_maximum column m :
  is_maximum column m -> column_max column = Some m.
Proof.
  intros Hm. pose proof (column_max_spec column) as H.
  destruct (column_max column) as [m'|].
  - f_equal. eapply is_maximum_unique; eauto.
  - destruct Hm as [Hin _]. now apply H in Hin.
Qed.

Lemma column_max_no_value column : no_value column -> column_max column = None.
Proof.
  intros Hn. pose proof (column_max_spec column) as H.
  destruct (column_max column) as [m|]; [|reflexivity].
  destruct H as [Hin _]. now apply Hn in Hin.
Qed.

Lemma non_zero_points_elem column p :
  p ∈ non_zero_points column <-> Some p ∈ column /\ 0 < p.
Proof.
  unfold non_zero_points. rewrite list_elem_of_omap. split.
  - intros ([v|] & Hin & Hv); [|discriminate].
    destruct (0 <? v) eqn:E; [|discriminate]. injection Hv as ->.
    apply Z.ltb_lt in E. auto.
  - intros [Hin Hp]. exists (Some p). split; [exact Hin|].
    now replace (0 <? p) with true by (symmetry; apply Z.ltb_lt; lia).
Qed.

(** The first element of the filtered column is the first strictly
    positive value. *)
Lemma non_zero_points_first column p :
  first_positive column p -> head (non_zero_points column) = Some p.
Proof.
  intros (before & after & -> & Hp & Hbefore).
  unfold non_zero_points. rewrite omap_app.
  assert (Hnil : omap (fun c : option Z =>
                         match c with
                         | Some v => if 0 <? v then Some v else None
                         | None => None
                         end) before = []).
  { induction before as [|[v|] t IH]; cbn; [reflexivity| |].
    - replace (0 <? v) with false
        by (symmetry; apply Z.ltb_ge, Hbefore; left).
      apply IH. intros w Hw. apply Hbefore. now right.
    - apply IH. intros w Hw. apply Hbefore. now right. }
  rewrite Hnil. cbn.
  now replace (0 <? p) with true by (symmetry; apply Z.ltb_lt; lia).
Qed.

(** Claim C4.  The points of an assignment are (1) the maximum of the
    column when it is not zero; when the maximum is zero or the column
    has no value, (2) the first strictly positive value of the column if
    there is one, and with none (3) 100 when the slug contains "part-2",
    (4) [None] otherwise.  The column [0, 0, 50, 50] resolves to 50, and
    an all-zero column under a slug containing "part-2" to 100. *)
Theorem C4_points_available (formatted_name : string) (column : list (option Z)) :
  let resolved := resolve_points_available formatted_name (Some column) in
  let part_2 := contains "part-2" (lower formatted_name) in
  (forall m, is_maximum column m -> m <> 0 -> resolved = Some m) /\
  (is_maximum column 0 \/ no_value column ->
   (forall p, first_positive column p -> resolved = Some p) /\
   ((forall v, Some v ∈ column -> v <= 0) ->
    (part_2 = true -> resolved = Some 100) /\
    (part_2 = false -> resolved = None))) /\
  resolve_points_available formatted_name (Some [Some 0; Some 0; Some 50; Some 50])
  = Some 50 /\
  ((forall c, c ∈ column -> c = Some 0) -> part_2 = true -> resolved = Some 100).
Proof.
  intros resolved part_2.
  assert (Hlow : is_maximum column 0 \/ no_value column ->
                 resolved = match non_zero_points column with
                            | p :: _ => Some p
                            | [] => if part_2 then Some 100 else None
                            end).
  { intros [Hm|Hn]; unfold resolved, resolve_points_available.
    - now rewrite (column_max_is_maximum _ _ Hm).
    - now rewrite (column_max_no_value _ Hn). }
  assert (Hnone : (forall v, Some v ∈ column -> v <= 0) -> non_zero_points column = []).
  { intros Hv. destruct (non_zero_points column) as [|p t] eqn:E; [reflexivity|].
    assert (Hp : p ∈ non_zero_points column) by (rewrite E; left).
    apply non_zero_points_elem in Hp as [Hin Hp]. apply Hv in Hin. lia. }
  split.
  { intros m Hm Hm0. unfold resolved, resolve_points_available.
    rewrite (column_max_is_maximum _ _ Hm).
    now replace (m =? 0) with false by (symmetry; apply Z.eqb_neq; lia). }
  split.
  { intros Hz. specialize (Hlow Hz). split.
    - intros p Hp. apply non_zero_points_first in Hp. rewrite Hlow.
      destruct (non_zero_points column); cbn in Hp; congruence.
    - intros Hv. rewrite Hlow, (Hnone Hv). split; intros ->; reflexivity. }
  split; [reflexivity|].
  intros Hall Hp2.
  assert (Hv : forall v, Some v ∈ column -> v <= 0).
  { intros v Hin. apply Hall in Hin. injection Hin as ->. lia. }
  rewrite Hlow, (Hnone Hv), Hp2; [reflexivity|].
  destruct column as [|c t].
  - right. intros v Hin. now apply elem_of_nil in Hin.
  - left. split.
    + rewrite <- (Hall c) by left. left.
    + exact Hv.
Qed.

(** The points theorem at an all-zero column of the second part of the
    Moria assignment. *)
Lemma C4_points_available_witness :
  format_assignment_name "The Moria Mining Codex (Part 2)"
  = Ok "the-moria-mining-codex-part-2" /\
  resolve_points_available "the-moria-mining-codex-part-2" (Some [Some 0; Some 0; Some 0])
  = Some 100.
Proof.
  split; [reflexivity|].
  destruct (C4_points_available "the-moria-mining-codex-part-2" [Some 0; Some 0; Some 0])
    as (_ & _ & _ & Hzero).
  apply Hzero; [|reflexivity].
  intros c Hc. repeat (apply elem_of_cons in Hc as [->|Hc]; [reflexivity|]).
  now apply elem_of_nil in Hc.
Defined.

(** ** Totals of a student *)

(** Skipping the zero scores with the null ones does not change the
    sum. *)
Lemma total_score_of_non_null student_grades :
  total_score_of student_grades
  = sum_Z (omap Grade.points_awarded student_grades).
Proof.
  unfold total_score_of.
  induction student_grades as [|g t IH]; [reflexivity|].
  cbn [omap list_omap]. unfold truthy_Z at 1.
  destruct (Grade.points_awarded g) as [z|]; [|exact IH].
  destruct (z =? 0) eqn:E; cbn [negb sum_Z fold_right].
  - apply Z.eqb_eq in E. subst z. fold (sum_Z (omap Grade.points_awarded t)).
    rewrite <- IH. reflexivity.
  - fold (sum_Z (omap Grade.points_awarded t)). rewrite <- IH. reflexivity.
Qed.

Lemma points_step_lookup d a n :
  points_step d a !! n
  = if decide (Assignment.name a = n)
    then (if truthy_Z (Assignment.points_available a)
          then Assignment.points_available a else d !! n)
    else d !! n.
Proof.
  unfold points_step, truthy_Z.
  destruct (Assignment.points_available a) as [p|]; [|now destruct (decide _)].
  destruct (p =? 0); cbn; [now destruct (decide _)|].
  destruct (decide (Assignment.name a = n)) as [->|Hne].
  - apply lookup_insert_eq.
  - now apply lookup_insert_ne.
Qed.

Lemma find_name_none rows n :
  n ∉ map Assignment.name rows ->
  find (fun a => String.eqb (Assignment.name a) n) rows = None.
Proof.
  induction rows as [|a t IH]; cbn; [reflexivity|].
  intros Hn. apply not_elem_of_cons in Hn as [Hne Hn].
  destruct (String.eqb_spec (Assignment.name a) n); [congruence | auto].
Qed.

Lemma assignment_points_fold rows : forall d n,
  NoDup (map Assignment.name rows) ->
  fold_left points_step rows d !! n
  = match find (fun a => String.eqb (Assignment.name a) n) rows with
    | Some a => if truthy_Z (Assignment.points_available a)
                then Assignment.points_available a else d !! n
    | None => d !! n
    end.
Proof.
  induction rows as [|a t IH]; intros d n Hnd; [reflexivity|].
  cbn [map] in Hnd. apply NoDup_cons in Hnd as [Hfresh Hnd].
  cbn [fold_left find].
  rewrite (IH _ _ Hnd), points_step_lookup.
  destruct (String.eqb_spec (Assignment.name a) n) as [Heq|Hne].
  - subst n. rewrite (find_name_none t _ Hfresh). now rewrite decide_True.
  - now rewrite decide_False.
Qed.

(** With one row per assignment name, the dictionary of the refresh
    gives each name the points the table holds for it, unresolved points
    counting as zero. *)
Lemma assignment_points_of_lookup rows n :
  NoDup (map Assignment.name rows) ->
  default 0 (assignment_points_of rows !! n) = points_or_zero rows n.
Proof.
  intros Hnd. unfold assignment_points_of, points_or_zero.
  fold points_step. rewrite (assignment_points_fold rows ∅ n Hnd).
  rewrite lookup_empty.
  destruct (find _ rows) as [a|]; [|reflexivity].
  unfold truthy_Z. destruct (Assignment.points_available a) as [p|]; [|reflexivity].
  destruct (p =? 0) eqn:E; cbn; [|reflexivity].
  apply Z.eqb_eq in E. now subst.
Qed.

Lemma total_possible_of_table rows student_grades :
  NoDup (map Assignment.name rows) ->
  total_possible_of (assignment_points_of rows) student_grades
  = sum_Z (map (fun g => points_or_zero rows (Grade.assignment_name g))
               student_grades).
Proof.
  intros Hnd. unfold total_possible_of. f_equal.
  apply map_ext. intros g. now apply assignment_points_of_lookup.
Qed.

(** Claim C5, as amended.  In the entry of a student, [total_score] is
    the sum of the non-null [points_awarded] of the student's grade
    records; [total_possible] is the sum, over those records, of the
    [points_available] of the record's assignment (0 when unresolved);
    [percentage] is 0 when [total_possible] is not positive and
    otherwise Python's [round] of the double
    [(total_score / total_possible) * 100].  For a score that is not
    negative and below [2 ^ 43], that is an integer nearest to
    [100 * total_score / total_possible]: the nearest one when there is
    one and, at an exact half, one of the two neighbours.  It is between
    0 and 100 whenever [0 <= total_score <= total_possible], and the
    entry is then always produced. *)
Theorem C5_totals_and_percentage (fromisoformat : string -> option datetime)
    (grades_data : list Grade.t) (assignments_data : list Assignment.t)
    (student : Student.t) (st : state) :
  NoDup (map Assignment.name assignments_data) ->
  let student_grades :=
    student_grades_of (Student.github_username student) grades_data in
  let total_score := sum_Z (omap Grade.points_awarded student_grades) in
  let total_possible :=
    sum_Z (map (fun g => points_or_zero assignments_data (Grade.assignment_name g))
               student_grades) in
  let run :=
    leaderboard_entry fromisoformat grades_data
      (assignment_points_of assignments_data) student st in
  (forall entry, run.1 = Ok entry ->
     Entry.total_score entry = total_score /\
     Entry.total_possible entry = total_possible /\
     percentage_of total_score total_possible = Some (Entry.percentage entry) /\
     (total_possible <= 0 -> Entry.percentage entry = 0) /\
     (0 <= total_score < 2 ^ 43 -> 0 < total_possible < 2 ^ 1000 ->
      2 * Z.abs (Entry.percentage entry * total_possible - 100 * total_score)
      <= total_possible)) /\
  (0 <= total_score <= total_possible ->
   exists entry, run.1 = Ok entry /\ 0 <= Entry.percentage entry <= 100) /\
  (0 <= total_score < 2 ^ 43 -> total_possible < 2 ^ 1000 ->
   exists entry, run.1 = Ok entry).
Proof.
  intros Hnd student_grades total_score total_possible run.
  destruct (leaderboard_entry_only_logs fromisoformat grades_data
              (assignment_points_of assignments_data) student st) as [l Hrun].
  fold run in Hrun. rewrite Hrun. cbn [fst].
  unfold leaderboard_entry_result.
  rewrite total_score_of_non_null, (total_possible_of_table _ _ Hnd).
  fold student_grades total_score total_possible.
  split; [|split].
  - intros entry He.
    destruct (percentage_of total_score total_possible) as [p|] eqn:Ep;
      [|discriminate].
    injection He as <-. cbn. repeat split.
    + intros Hz. rewrite (percentage_of_no_total _ _ Hz) in Ep. congruence.
    + intros Hs Hp.
      destruct (PyFloatFacts.percentage_of_nearest _ _ Hs Hp) as (k & Hk & Hnear).
      rewrite Hk in Ep. injection Ep as <-. exact Hnear.
  - intros Hrange.
    destruct (percentage_of_bounds _ _ Hrange) as (k & -> & Hk).
    eexists. split; [reflexivity|]. exact Hk.
  - intros Hs Hp.
    destruct (Z.le_gt_cases total_possible 0) as [Hz | Hpos].
    + rewrite (percentage_of_no_total _ _ Hz). eexists. reflexivity.
    + destruct (PyFloatFacts.percentage_of_nearest _ _ Hs (conj Hpos Hp))
        as (k & -> & _).
      eexists. reflexivity.
Qed.

(** The totals theorem at a student with 45 points out of 60 on one
    assignment and 30 out of 40 on another: the percentage is between 0
    and 100 and within a half of 75. *)
Lemma C5_totals_and_percentage_witness :
  let grades_data :=
    [Grade.mk "alice" "part-1" (Some 45); Grade.mk "alice" "part-2" (Some 30);
     Grade.mk "bob" "part-1" None] in
  let assignments_data :=
    [Assignment.mk "part-1" (Some 60); Assignment.mk "part-2" (Some 40)] in
  let student := Student.mk "alice" None None None None in
  exists entry,
    (leaderboard_entry fromisoformat_reader grades_data
       (assignment_points_of assignments_data) student (initial empty_store)).1
    = Ok entry /\
    0 <= Entry.percentage entry <= 100 /\
    2 * Z.abs (Entry.percentage entry * 100 - 100 * 75) <= 100.
Proof.
  intros grades_data assignments_data student.
  destruct (C5_totals_and_percentage fromisoformat_reader grades_data
              assignments_data student (initial empty_store))
    as (Hentry & Hrange & _).
  - apply (bool_decide_unpack _). vm_compute. exact I.
  - destruct Hrange as (entry & He & Hb); [vm_compute; split; discriminate|].
    exists entry. split; [exact He|]. split; [exact Hb|].
    destruct (Hentry entry He) as (_ & _ & _ & _ & Hnear).
    apply Hnear; vm_compute; split; congruence.
Defined.

(** Claim C5 as stated fails.  An assignment with unresolved points adds
    its score to [total_score] and nothing to [total_possible], and the
    percentage leaves the range 0 to 100.  And 23 points out of 40 are
    57.5 per cent, which rounds to 58, while the double [23 / 40] is
    below 0.575 and its product by 100 below 57.5: the percentage is
    57. *)
Lemma C5_percentage_counterexample :
  let student := Student.mk "alice" None None None None in
  (let grades_data :=
     [Grade.mk "alice" "part-1" (Some 100); Grade.mk "alice" "part-3" (Some 50)] in
   let assignments_data :=
     [Assignment.mk "part-1" (Some 100); Assignment.mk "part-3" None] in
   (fun entry => (Entry.total_score entry, Entry.total_possible entry,
                  Entry.percentage entry)) <$>
     value_of (leaderboard_entry fromisoformat_reader grades_data
                 (assignment_points_of assignments_data) student
                 (initial empty_store)).1
   = Some (150, 100, 150)) /\
  (let grades_data := [Grade.mk "alice" "part-1" (Some 23)] in
   let assignments_data := [Assignment.mk "part-1" (Some 40)] in
   (fun entry => (Entry.total_score entry, Entry.total_possible entry,
                  Entry.percentage entry)) <$>
     value_of (leaderboard_entry fromisoformat_reader grades_data
                 (assignment_points_of assignments_data) student
                 (initial empty_store)).1
   = Some (23, 40, 57) /\
   PyFloat.rne (100 * 23) 40 = 58).
Proof. vm_compute. repeat split. Qed.

(** ** Completed assignments *)

Lemma size_list_to_set_remove_dups (l : list string) :
  size (list_to_set l : gset string) = length (remove_dups l).
Proof.
  assert (Hsame : (list_to_set l : gset string) = list_to_set (remove_dups l)).
  { apply set_eq. intros x. now rewrite !elem_of_list_to_set, elem_of_remove_dups. }
  rewrite Hsame. apply size_list_to_set, NoDup_remove_dups.
Qed.

Lemma student_grades_names_keys u (g1 : list Grade.t) : forall g2 : list Grade.t,
  map grade_key g1 = map grade_key g2 ->
  map Grade.assignment_name (student_grades_of u g1)
  = map Grade.assignment_name (student_grades_of u g2).
Proof.
  unfold student_grades_of.
  induction g1 as [|a t IH]; intros [|b t'] H; try discriminate; [reflexivity|].
  cbn [map] in H. unfold grade_key at 1 3 in H. injection H as Hu Hn Ht.
  rewrite !filter_cons, Hu.
  destruct (decide (Grade.github_username b = u)); cbn [map]; rewrite (IH _ Ht);
    congruence.
Qed.

(** Claim C9.  [assignments_completed] is the number of distinct
    assignment names among the grade records of the student: the length
    of any duplicate-free list of exactly those names.  It does not
    depend on the [points_awarded] of the records. *)
Theorem C9_assignments_completed (fromisoformat : string -> option datetime)
    (grades_data : list Grade.t) (assignment_points : gmap string Z)
    (student : Student.t) (st : state) (entry : Entry.t) :
  (leaderboard_entry fromisoformat grades_data assignment_points student st).1
  = Ok entry ->
  let names :=
    map Grade.assignment_name
      (student_grades_of (Student.github_username student) grades_data) in
  Entry.assignments_completed entry = Z.of_nat (length (remove_dups names)) /\
  (forall distinct : list string,
      NoDup distinct ->
      (forall n, n ∈ distinct <->
                 exists g, g ∈ grades_data /\
                           Grade.github_username g = Student.github_username student /\
                           Grade.assignment_name g = n) ->
      Entry.assignments_completed entry = Z.of_nat (length distinct)) /\
  (forall grades_data' st' entry',
      map grade_key grades_data' = map grade_key grades_data ->
      (leaderboard_entry fromisoformat grades_data' assignment_points student st').1
      = Ok entry' ->
      Entry.assignments_completed entry' = Entry.assignments_completed entry).
Proof.
  intros Hrun names.
  assert (Hcount : forall gd s e,
             (leaderboard_entry fromisoformat gd assignment_points student s).1 = Ok e ->
             Entry.assignments_completed e
             = Z.of_nat (length (remove_dups
                 (map Grade.assignment_name
                    (student_grades_of (Student.github_username student) gd))))).
  { intros gd s e He.
    destruct (leaderboard_entry_only_logs fromisoformat gd assignment_points
                student s) as [l Hl].
    rewrite Hl in He. cbn [fst] in He. unfold leaderboard_entry_result in He.
    destruct (percentage_of _ _); [|discriminate]. injection He as <-.
    cbn. unfold assignments_completed_of.
    now rewrite size_list_to_set_remove_dups. }
  split; [now apply Hcount in Hrun|]. split.
  - intros distinct Hnd Hiff. rewrite (Hcount _ _ _ Hrun). f_equal.
    apply Permutation_length, NoDup_Permutation;
      [apply NoDup_remove_dups | exact Hnd |].
    intros n. rewrite elem_of_remove_dups, Hiff. fold names. unfold names.
    rewrite list_elem_of_fmap. unfold student_grades_of. split.
    + intros (g & -> & Hg). apply list_elem_of_filter in Hg as [Hu Hg]. eauto.
    + intros (g & Hg & Hu & <-). exists g. split; [reflexivity|].
      apply list_elem_of_filter. auto.
  - intros gd' s' e' Hkeys He'.
    rewrite (Hcount _ _ _ Hrun), (Hcount _ _ _ He').
    now rewrite (student_grades_names_keys _ _ _ Hkeys).
Qed.

(** The count theorem at a student with a null score and a zero score
    on two assignments: both count. *)
Lemma C9_assignments_completed_witness :
  let grades_data :=
    [Grade.mk "alice" "part-1" None; Grade.mk "alice" "part-2" (Some 0);
     Grade.mk "bob" "part-1" (Some 7)] in
  let student := Student.mk "alice" None None None None in
  let entry := Entry.mk "alice" None None None None 0 0 0 2 None in
  (leaderboard_entry fromisoformat_reader grades_data ∅ student
     (initial empty_store)).1 = Ok entry /\
  Entry.assignments_completed entry = 2.
Proof.
  intros grades_data student entry.
  split; [reflexivity|].
  exact (proj1 (C9_assignments_completed fromisoformat_reader grades_data ∅
                  student (initial empty_store) entry eq_refl)).
Defined.

(** ** Tables with a unique key *)

Section TableFacts.
Context {P R K : Type} `{EqDecision K}.
Variable key_p : P -> K.
Variable key_r : R -> K.
Variable write : P -> option R -> R.
Hypothesis write_key_new : forall p, key_r (write p None) = key_p p.
Hypothesis write_key_old :
  forall p r, key_r r = key_p p -> key_r (write p (Some r)) = key_p p.
Hypothesis write_again : forall p old, write p (Some (write p old)) = write p old.

Local Abbreviation upsert := (upsert_row key_p key_r write).
Local Abbreviation upsert_all :=
  (fold_left (fun t p => upsert_row key_p key_r write p t)).

Lemma has_key_elem k (tbl : list R) :
  has_key key_r k tbl = true <-> k ∈ map key_r tbl.
Proof.
  unfold has_key. induction tbl as [|r t IH]; cbn.
  - split; [discriminate | intros H; now apply elem_of_nil in H].
  - rewrite orb_true_iff, IH, elem_of_cons, bool_decide_eq_true. intuition.
Qed.

Lemma distinct_keys_NoDup (ps : list P) :
  distinct_keys key_p ps = true <-> NoDup (map key_p ps).
Proof.
  induction ps as [|p t IH]; cbn.
  - split; [constructor | reflexivity].
  - rewrite andb_true_iff, negb_true_iff, IH, NoDup_cons.
    apply and_iff_compat_r. rewrite <- not_true_iff_false. apply not_iff_compat.
    rewrite existsb_exists, list_elem_of_fmap. split.
    + intros (q & Hq & Hk). apply bool_decide_eq_true in Hk.
      exists q. split; [congruence | now apply list_elem_of_In].
    + intros (q & Hk & Hq). exists q.
      split; [now apply list_elem_of_In | apply bool_decide_eq_true; congruence].
Qed.

Lemma upsert_row_keys p (tbl : list R) :
  map key_r (upsert p tbl)
  = if has_key key_r (key_p p) tbl then map key_r tbl
    else map key_r tbl ++ [key_p p].
Proof.
  unfold has_key. induction tbl as [|r t IH]; cbn.
  - now rewrite write_key_new.
  - destruct (bool_decide (key_r r = key_p p)) eqn:E; cbn.
    + apply bool_decide_eq_true in E. rewrite write_key_old by exact E.
      now rewrite E.
    + rewrite IH. now destruct (existsb _ t).
Qed.

Lemma upsert_row_NoDup p (tbl : list R) :
  NoDup (map key_r tbl) -> NoDup (map key_r (upsert p tbl)).
Proof.
  intros Hnd. rewrite upsert_row_keys.
  destruct (has_key key_r (key_p p) tbl) eqn:E; [exact Hnd|].
  apply NoDup_app. split; [exact Hnd|]. split; [|apply NoDup_singleton].
  intros k Hk Hk'. apply list_elem_of_singleton in Hk'. subst k.
  apply has_key_elem in Hk. congruence.
Qed.

Lemma upsert_all_NoDup ps : forall tbl : list R,
  NoDup (map key_r tbl) -> NoDup (map key_r (upsert_all ps tbl)).
Proof.
  induction ps as [|p t IH]; intros tbl Hnd; cbn; [exact Hnd|].
  apply IH, upsert_row_NoDup, Hnd.
Qed.

Lemma upsert_rows_NoDup ps (tbl tbl' : list R) :
  upsert_rows key_p key_r write ps tbl = Some tbl' ->
  NoDup (map key_r tbl) -> NoDup (map key_r tbl').
Proof.
  unfold upsert_rows. destruct (distinct_keys key_p ps); [|discriminate].
  intros H. injection H as <-. apply upsert_all_NoDup.
Qed.

Lemma insert_rows_NoDup ps (tbl tbl' : list R) :
  insert_rows key_p key_r write ps tbl = Some tbl' ->
  NoDup (map key_r tbl) -> NoDup (map key_r tbl').
Proof.
  unfold insert_rows.
  destruct (distinct_keys key_p ps) eqn:Ed; [|discriminate]. cbn.
  destruct (forallb _ ps) eqn:Ef; [|discriminate].
  intros H Hnd. injection H as <-.
  rewrite map_app, map_map.
  rewrite (map_ext (fun p => key_r (write p None)) key_p) by apply write_key_new.
  apply NoDup_app. split; [exact Hnd|]. split; [|now apply distinct_keys_NoDup].
  intros k Hk Hk'. apply list_elem_of_fmap in Hk' as (p & -> & Hp).
  rewrite forallb_forall in Ef. apply list_elem_of_In in Hp.
  specialize (Ef p Hp). apply negb_true_iff in Ef.
  apply has_key_elem in Hk. congruence.
Qed.

Lemma upsert_row_has_key p q (tbl : list R) :
  has_key key_r (key_p p) tbl = true ->
  has_key key_r (key_p p) (upsert q tbl) = true.
Proof.
  rewrite !has_key_elem, upsert_row_keys.
  destruct (has_key key_r (key_p q) tbl); [auto|].
  intros H. apply elem_of_app. now left.
Qed.

Lemma upsert_row_again p (tbl : list R) : upsert p (upsert p tbl) = upsert p tbl.
Proof.
  induction tbl as [|r t IH]; cbn.
  - rewrite write_key_new, bool_decide_eq_true_2 by reflexivity.
    now rewrite write_again.
  - destruct (bool_decide (key_r r = key_p p)) eqn:E; cbn.
    + apply bool_decide_eq_true in E. rewrite write_key_old by exact E.
      rewrite bool_decide_eq_true_2 by reflexivity. now rewrite write_again.
    + now rewrite E, IH.
Qed.

Lemma upsert_row_comm p q (tbl : list R) :
  key_p p <> key_p q ->
  has_key key_r (key_p p) tbl = true ->
  upsert p (upsert q tbl) = upsert q (upsert p tbl).
Proof.
  intros Hne. unfold has_key. induction tbl as [|r t IH]; cbn; [discriminate|].
  destruct (bool_decide (key_r r = key_p p)) eqn:Ep;
    destruct (bool_decide (key_r r = key_p q)) eqn:Eq; cbn.
  - apply bool_decide_eq_true in Ep, Eq. congruence.
  - intros _. rewrite Ep. apply bool_decide_eq_true in Ep.
    rewrite (write_key_old p r Ep).
    now rewrite (bool_decide_eq_false_2 (key_p p = key_p q)) by exact Hne.
  - intros Hp. rewrite Eq. apply bool_decide_eq_true in Eq.
    rewrite (write_key_old q r Eq).
    now rewrite (bool_decide_eq_false_2 (key_p q = key_p p)) by congruence.
  - intros Hp. now rewrite Ep, Eq, (IH Hp).
Qed.

Lemma upsert_all_comm p ps : forall tbl : list R,
  key_p p ∉ map key_p ps ->
  has_key key_r (key_p p) tbl = true ->
  upsert p (upsert_all ps tbl) = upsert_all ps (upsert p tbl).
Proof.
  induction ps as [|q t IH]; intros tbl Hfresh Hp; cbn; [reflexivity|].
  cbn in Hfresh. apply not_elem_of_cons in Hfresh as [Hne Hfresh].
  rewrite (IH _ Hfresh) by now apply upsert_row_has_key.
  now rewrite upsert_row_comm.
Qed.

Lemma upsert_row_gets_key p (tbl : list R) :
  has_key key_r (key_p p) (upsert p tbl) = true.
Proof.
  apply has_key_elem. rewrite upsert_row_keys.
  destruct (has_key key_r (key_p p) tbl) eqn:E.
  - now apply has_key_elem.
  - apply elem_of_app. right. left.
Qed.

(** The same rows upserted a second time leave the table as it is. *)
Lemma upsert_all_again ps : forall tbl : list R,
  NoDup (map key_p ps) ->
  upsert_all ps (upsert_all ps tbl) = upsert_all ps tbl.
Proof.
  induction ps as [|p t IH]; intros tbl Hnd; cbn; [reflexivity|].
  cbn in Hnd. apply NoDup_cons in Hnd as [Hfresh Hnd].
  rewrite (upsert_all_comm p t _ Hfresh) by apply upsert_row_gets_key.
  rewrite upsert_row_again. now apply IH.
Qed.

Lemma upsert_rows_again ps (tbl tbl' : list R) :
  upsert_rows key_p key_r write ps tbl = Some tbl' ->
  upsert_rows key_p key_r write ps tbl' = Some tbl'.
Proof.
  unfold upsert_rows. destruct (distinct_keys key_p ps) eqn:E; [|discriminate].
  intros H. injection H as <-. f_equal.
  now apply upsert_all_again, distinct_keys_NoDup.
Qed.

Lemma upsert_rows_refused ps (tbl tbl' : list R) :
  upsert_rows key_p key_r write ps tbl = None ->
  upsert_rows key_p key_r write ps tbl' = None.
Proof. unfold upsert_rows. now destruct (distinct_keys key_p ps). Qed.

End TableFacts.

(** ** Invariants of a run *)

Section Respects.
Variable I : store -> Prop.

Lemma respects_ret {A : Type} (a : A) : respects I (mret a).
Proof. intros st H. exact H. Qed.

Lemma respects_raise {A : Type} (e : exn) : respects I (@raise A e).
Proof. intros st H. exact H. Qed.

Lemma respects_log l msg : respects I (log l msg).
Proof. intros st H. exact H. Qed.

Lemma respects_bind {A B : Type} (m : M A) (f : A -> M B) :
  respects I m -> (forall a, respects I (f a)) -> respects I (m ≫= f).
Proof.
  intros Hm Hf st H. specialize (Hm st H).
  unfold mbind, M_bind. destruct (m st) as [[a|e] st']; cbn in *.
  - now apply Hf.
  - exact Hm.
Qed.

Lemma respects_catch {A : Type} (m : M A) (h : exn -> M A) :
  respects I m -> (forall e, respects I (h e)) -> respects I (catch m h).
Proof.
  intros Hm Hh st H. specialize (Hm st H).
  unfold catch. destruct (m st) as [[a|e] st']; cbn in *.
  - exact Hm.
  - now apply Hh.
Qed.

Lemma respects_for_each {A : Type} (xs : list A) (body : A -> M unit) :
  (forall x, respects I (body x)) -> respects I (for_each xs body).
Proof.
  intros Hb. induction xs as [|x t IH]; cbn; [apply respects_ret|].
  apply respects_bind; [apply Hb | intros _; exact IH].
Qed.

Lemma respects_collect {A B : Type} (xs : list A) (body : A -> M B) :
  (forall x, respects I (body x)) -> respects I (collect xs body).
Proof.
  intros Hb. induction xs as [|x t IH]; cbn; [apply respects_ret|].
  apply respects_bind; [apply Hb | intros b].
  apply respects_bind; [exact IH | intros bs; apply respects_ret].
Qed.

Lemma respects_only_logs {A : Type} (m : M A) r : only_logs m r -> respects I m.
Proof. intros Hm st H. destruct (Hm st) as [l ->]. exact H. Qed.

Lemma respects_execute fault {A : Type} c (run : store -> outcome (A * store)) :
  (forall s a s', I s -> run s = Ok (a, s') -> I s') ->
  respects I (execute fault c run).
Proof.
  intros Hrun st H. unfold execute.
  destruct (fault _ c); [exact H|].
  destruct (run (db st)) as [[a s']|e] eqn:E; cbn; [|exact H].
  eapply Hrun; eauto.
Qed.

Lemma respects_retry max_retries what request attempts :
  respects I request -> respects I (retry max_retries what request attempts).
Proof.
  intros Hr. induction attempts as [|a t IH]; cbn; [apply respects_ret|].
  apply respects_catch; [exact Hr | intros e].
  apply respects_bind; [apply respects_log | intros _].
  destruct (_ =? _); [apply respects_raise | exact IH].
Qed.

End Respects.

Section Sends.
Variable Q : call -> Prop.

Lemma sends_only_logs {A : Type} (m : M A) r : only_logs m r -> sends Q m.
Proof.
  intros Hm st. destruct (Hm st) as [l ->]. exists []. cbn.
  split; [now rewrite app_nil_r | constructor].
Qed.

Lemma sends_ret {A : Type} (a : A) : sends Q (mret a).
Proof. eapply sends_only_logs, only_logs_ret. Qed.

Lemma sends_raise {A : Type} (e : exn) : sends Q (@raise A e).
Proof. eapply sends_only_logs, only_logs_raise. Qed.

Lemma sends_log l msg : sends Q (log l msg).
Proof. eapply sends_only_logs, only_logs_log. Qed.

Lemma sends_bind {A B : Type} (m : M A) (f : A -> M B) :
  sends Q m -> (forall a, sends Q (f a)) -> sends Q (m ≫= f).
Proof.
  intros Hm Hf st. destruct (Hm st) as (j1 & H1 & F1).
  unfold mbind, M_bind. destruct (m st) as [[a|e] st']; cbn in *.
  - destruct (Hf a st') as (j2 & H2 & F2). exists (j1 ++ j2).
    rewrite H2, H1, app_assoc. split; [reflexivity | now apply Forall_app].
  - eauto.
Qed.

Lemma sends_catch {A : Type} (m : M A) (h : exn -> M A) :
  sends Q m -> (forall e, sends Q (h e)) -> sends Q (catch m h).
Proof.
  intros Hm Hh st. destruct (Hm st) as (j1 & H1 & F1).
  unfold catch. destruct (m st) as [[a|e] st']; cbn in *.
  - eauto.
  - destruct (Hh e st') as (j2 & H2 & F2). exists (j1 ++ j2).
    rewrite H2, H1, app_assoc. split; [reflexivity | now apply Forall_app].
Qed.

Lemma sends_for_each {A : Type} (xs : list A) (body : A -> M unit) :
  (forall x, sends Q (body x)) -> sends Q (for_each xs body).
Proof.
  intros Hb. induction xs as [|x t IH]; cbn; [apply sends_ret|].
  apply sends_bind; [apply Hb | intros _; exact IH].
Qed.

Lemma sends_execute fault {A : Type} c (run : store -> outcome (A * store)) :
  Q c -> sends Q (execute fault c run).
Proof.
  intros Hc st. unfold execute.
  destruct (fault _ c); [eexists; split; [reflexivity | now repeat constructor]|].
  destruct (run (db st)) as [[a s']|e]; cbn;
    eexists; split; try reflexivity; now repeat constructor.
Qed.

Lemma sends_retry max_retries what request attempts :
  sends Q request -> sends Q (retry max_retries what request attempts).
Proof.
  intros Hr. induction attempts as [|a t IH]; cbn; [apply sends_ret|].
  apply sends_catch; [exact Hr | intros e].
  apply sends_bind; [apply sends_log | intros _].
  destruct (_ =? _); [apply sends_raise | exact IH].
Qed.

End Sends.

(** ** The four tables *)

Lemma write_student_again p old :
  write_student p (Some (write_student p old)) = write_student p old.
Proof.
  destruct p as [u f l r]. destruct old as [[u' f' l' r' h']|]; cbn;
    destruct f, l, r; reflexivity.
Qed.

Lemma write_student_key_old p r :
  Student.github_username r = StudentRecord.github_username p ->
  Student.github_username (write_student p (Some r)) = StudentRecord.github_username p.
Proof. intros H. exact H. Qed.

Section ProgramFacts.
Variable fault : nat -> call -> option exn.
Variable fromisoformat : string -> option datetime.
Variable get_repository_info : url_cell -> option RepoInfo.t.
Variable download_grades_to_dataframe : string -> option (list Row.t).
Variable max_retries : Z.

(** *** No request ever leaves two rows with one key *)

Lemma respects_select_students : respects unique_keys (select_students fault).
Proof. apply respects_execute. intros s a s' H E. now injection E as _ <-. Qed.

Lemma respects_select_grades : respects unique_keys (select_grades fault).
Proof. apply respects_execute. intros s a s' H E. now injection E as _ <-. Qed.

Lemma respects_select_assignments : respects unique_keys (select_assignments fault).
Proof. apply respects_execute. intros s a s' H E. now injection E as _ <-. Qed.

Lemma respects_delete_leaderboard : respects unique_keys (delete_leaderboard fault).
Proof.
  apply respects_execute. intros s a s' (H1 & H2 & H3 & H4) E.
  injection E as _ <-. repeat split; try assumption. constructor.
Qed.

Lemma respects_insert_leaderboard batch :
  respects unique_keys (insert_leaderboard fault batch).
Proof.
  apply respects_execute. intros s a s' (H1 & H2 & H3 & H4) E.
  destruct (insert_rows _ _ _ batch (admin_leaderboard s)) as [t|] eqn:Et;
    [|discriminate].
  injection E as _ <-. repeat split; try assumption. cbn.
  eapply (insert_rows_NoDup Entry.github_username Entry.github_username write_entry);
    eauto.
Qed.

Lemma respects_upsert_leaderboard row :
  respects unique_keys (upsert_leaderboard fault row).
Proof.
  apply respects_execute. intros s a s' (H1 & H2 & H3 & H4) E.
  destruct (upsert_rows _ _ _ [row] (admin_leaderboard s)) as [t|] eqn:Et;
    [|discriminate].
  injection E as _ <-. repeat split; try assumption. cbn.
  eapply (upsert_rows_NoDup Entry.github_username Entry.github_username write_entry);
    eauto.
Qed.

Lemma respects_upsert_students rows :
  respects unique_keys (upsert_students fault rows).
Proof.
  apply respects_execute. intros s a s' (H1 & H2 & H3 & H4) E.
  destruct (upsert_rows _ _ _ rows (students s)) as [t|] eqn:Et; [|discriminate].
  injection E as _ <-. repeat split; try assumption. cbn.
  eapply (upsert_rows_NoDup StudentRecord.github_username Student.github_username
            write_student); eauto using write_student_key_old.
Qed.

Lemma respects_upsert_assignments rows :
  respects unique_keys (upsert_assignments fault rows).
Proof.
  apply respects_execute. intros s a s' (H1 & H2 & H3 & H4) E.
  destruct (upsert_rows _ _ _ rows (assignments s)) as [t|] eqn:Et; [|discriminate].
  injection E as _ <-. repeat split; try assumption. cbn.
  eapply (upsert_rows_NoDup Assignment.name Assignment.name write_assignment); eauto.
Qed.

Lemma respects_upsert_grades rows :
  respects unique_keys (upsert_grades fault rows).
Proof.
  apply respects_execute. intros s a s' (H1 & H2 & H3 & H4) E.
  destruct (upsert_rows _ _ _ rows (grades s)) as [t|] eqn:Et; [|discriminate].
  injection E as _ <-. repeat split; try assumption. cbn.
  eapply (upsert_rows_NoDup grade_key grade_key write_grade); eauto.
Qed.

Lemma respects_write_batch batch : respects unique_keys (write_batch fault batch).
Proof.
  apply respects_catch; [apply respects_insert_leaderboard | intros e].
  apply respects_bind; [apply respects_log | intros _].
  apply respects_for_each. intros student.
  apply respects_catch; [apply respects_upsert_leaderboard | intros e'].
  apply respects_log.
Qed.

Lemma respects_refresh_admin_leaderboard :
  respects unique_keys (refresh_admin_leaderboard fault fromisoformat).
Proof.
  apply respects_catch.
  - apply respects_bind; [apply respects_select_students | intros [|s t]].
    + apply respects_log.
    + apply respects_bind; [apply respects_select_grades | intros gs].
      apply respects_bind; [apply respects_select_assignments | intros asg].
      apply respects_bind.
      * apply respects_collect. intros x.
        eapply respects_only_logs, leaderboard_entry_only_logs.
      * intros data. apply respects_bind.
        -- apply respects_catch; [apply respects_delete_leaderboard | intros e].
           apply respects_log.
        -- intros _. apply respects_for_each, respects_write_batch.
  - intros e. apply respects_bind; [apply respects_log | intros _].
    apply respects_raise.
Qed.

Lemma respects_sync_students students_data :
  respects unique_keys (sync_students_to_supabase fault max_retries students_data).
Proof.
  destruct students_data as [|s t]; [apply respects_log|].
  apply respects_retry, respects_upsert_students.
Qed.

Lemma respects_sync_assignments assignments_data :
  respects unique_keys (sync_assignments_to_supabase fault max_retries assignments_data).
Proof.
  destruct assignments_data as [|s t]; [apply respects_log|].
  apply respects_retry, respects_upsert_assignments.
Qed.

Lemma grade_record_only_logs row : exists r, only_logs (grade_record row) r.
Proof.
  unfold grade_record.
  destruct (notna (GradeRow.points_awarded row)).
  - destruct (py_int (GradeRow.points_awarded row)) as [z|e].
    + eexists. apply only_logs_ret.
    + destruct (exn_cls e); eexists;
        first [ apply only_logs_raise
              | eapply only_logs_bind; [apply only_logs_log | apply only_logs_ret] ].
  - eexists. apply only_logs_ret.
Qed.

Lemma respects_sync_grades grades_df :
  respects unique_keys (sync_grades_to_supabase fault max_retries grades_df).
Proof.
  destruct grades_df as [|s t]; [apply respects_log|].
  apply respects_bind.
  - apply respects_collect. intros row.
    destruct (grade_record_only_logs row) as [r Hr].
    eapply respects_only_logs, Hr.
  - intros records. destruct (omap id records); [apply respects_log|].
    apply respects_retry, respects_upsert_grades.
Qed.

Lemma respects_sync_to_supabase acc consolidated_df :
  respects unique_keys
    (sync_to_supabase fault fromisoformat max_retries acc consolidated_df).
Proof.
  apply respects_bind; [apply respects_sync_assignments | intros _].
  apply respects_bind; [apply respects_sync_students | intros _].
  apply respects_bind; [apply respects_sync_grades | intros _].
  apply respects_refresh_admin_leaderboard.
Qed.

(** *** The three table syncs send upserts only *)

Lemma sends_sync_students students_data :
  sends is_upsert (sync_students_to_supabase fault max_retries students_data).
Proof.
  destruct students_data as [|s t]; [apply sends_log|].
  apply sends_retry, sends_execute. exact Logic.I.
Qed.

Lemma sends_sync_assignments assignments_data :
  sends is_upsert (sync_assignments_to_supabase fault max_retries assignments_data).
Proof.
  destruct assignments_data as [|s t]; [apply sends_log|].
  apply sends_retry, sends_execute. exact Logic.I.
Qed.

Lemma sends_sync_grades grades_df :
  sends is_upsert (sync_grades_to_supabase fault max_retries grades_df).
Proof.
  destruct grades_df as [|s t]; [apply sends_log|].
  apply sends_bind.
  - destruct (grade_record_only_logs s) as [r0 _].
    assert (Hc : exists r, only_logs (collect (s :: t) grade_record) r).
    { generalize (s :: t). intros rows. induction rows as [|x xs [r IH]]; cbn.
      - eexists. apply only_logs_ret.
      - destruct (grade_record_only_logs x) as [[b|e] Hx].
        + destruct r as [bs|e].
          * eexists. eapply only_logs_bind; [exact Hx|].
            eapply only_logs_bind; [exact IH | apply only_logs_ret].
          * eexists. eapply only_logs_bind; [exact Hx|].
            apply only_logs_bind_raise, IH.
        + eexists. apply only_logs_bind_raise, Hx. }
    destruct Hc as [r Hr]. eapply sends_only_logs, Hr.
  - intros records. destruct (omap id records); [apply sends_log|].
    apply sends_retry, sends_execute. exact Logic.I.
Qed.

End ProgramFacts.

(** ** Runs whose requests the store answers *)

Lemma bind_ok {A B : Type} (m : M A) (f : A -> M B) st a st' :
  m st = (Ok a, st') -> (m ≫= f) st = f a st'.
Proof. intros H. unfold mbind, M_bind. now rewrite H. Qed.

Lemma bind_raise {A B : Type} (m : M A) (f : A -> M B) st e st' :
  m st = (Raise e, st') -> (m ≫= f) st = (Raise e, st').
Proof. intros H. unfold mbind, M_bind. now rewrite H. Qed.

Lemma catch_ok {A : Type} (m : M A) (h : exn -> M A) st a st' :
  m st = (Ok a, st') -> catch m h st = (Ok a, st').
Proof. intros H. unfold catch. now rewrite H. Qed.

Lemma catch_raise {A : Type} (m : M A) (h : exn -> M A) st e st' :
  m st = (Raise e, st') -> catch m h st = h e st'.
Proof. intros H. unfold catch. now rewrite H. Qed.

Lemma follows_only_logs {A : Type} (m : M A) r :
  only_logs m r -> follows m (fun s => (r, s)).
Proof. intros H st. destruct (H st) as [l ->]. exists [], l. cbn. now rewrite app_nil_r. Qed.

Lemma follows_ext {A : Type} (m : M A) f g :
  (forall s, f s = g s) -> follows m f -> follows m g.
Proof. intros E H st. destruct (H st) as (j & l & ->). exists j, l. now rewrite E. Qed.

Lemma follows_and_then (m k : M unit) f g :
  follows m f -> follows k g -> follows (m ;; k) (and_then f g).
Proof.
  intros Hm Hk st. destruct (Hm st) as (j1 & l1 & H1).
  unfold and_then. destruct (f (db st)) as [[[]|e] s1]; cbn in H1.
  - rewrite (bind_ok _ _ _ _ _ H1).
    destruct (Hk (mk_state s1 (journal st ++ j1) (logs st ++ l1)))
      as (j2 & l2 & ->). cbn.
    exists (j1 ++ j2), (l1 ++ l2). now rewrite !app_assoc.
  - rewrite (bind_raise _ _ _ _ _ H1). eauto.
Qed.

Section RunFacts.
Variable fault : nat -> call -> option exn.
Variable fromisoformat : string -> option datetime.
Variable max_retries : Z.

Lemma execute_answered {A : Type} c (run : store -> outcome (A * store)) st :
  answers fault c ->
  execute fault c run st
  = match run (db st) with
    | Ok (a, s') => (Ok a, mk_state s' (journal st ++ [(c, None)]) (logs st))
    | Raise e => (Raise e, mk_state (db st) (journal st ++ [(c, Some e)]) (logs st))
    end.
Proof. intros H. unfold execute. now rewrite H. Qed.

(** The retry loop around a request that fails at each attempt ends by
    raising the failure of the sync. *)
Lemma retry_refused c (run : store -> outcome (unit * store)) what e :
  answers fault c ->
  forall (n k : nat) st,
    (0 < n)%nat -> Z.of_nat (k + n) = max_retries ->
    run (db st) = Raise e ->
    exists j l,
      retry max_retries what (execute fault c run) (seq k n) st
      = (Raise (sync_failure what e),
         mk_state (db st) (journal st ++ j) (logs st ++ l)).
Proof.
  intros Hc. induction n as [|n IH]; intros k st Hn Hk Hrun; [lia|].
  cbn [seq retry].
  assert (Hex : execute fault c run st
                = (Raise e, mk_state (db st) (journal st ++ [(c, Some e)]) (logs st)))
    by (rewrite execute_answered, Hrun; auto).
  rewrite (catch_raise _ _ _ _ _ Hex).
  unfold mbind, M_bind, log. cbn [db journal logs].
  destruct (Z.of_nat k =? max_retries - 1) eqn:Et.
  - unfold raise. eauto.
  - apply Z.eqb_neq in Et.
    destruct (IH (S k) (mk_state (db st) (journal st ++ [(c, Some e)])
                          (logs st ++ [Build_log_record ERROR
                             ("Error syncing " ++ what ++ ": " ++ exn_msg e)%string])))
      as (j & l & ->); [lia | lia | exact Hrun |].
    cbn. exists ([(c, Some e)] ++ j), ([Build_log_record ERROR
                             ("Error syncing " ++ what ++ ": " ++ exn_msg e)%string] ++ l).
    now rewrite !app_assoc.
Qed.

Lemma retry_follows c (run : store -> outcome (unit * store)) what :
  answers fault c ->
  follows (retry max_retries what (execute fault c run) (range max_retries))
    (fun s =>
       if 0 <? max_retries then
         match run s with
         | Ok (_, s') => (Ok tt, s')
         | Raise e => (Raise (sync_failure what e), s)
         end
       else (Ok tt, s)).
Proof.
  intros Hc st. unfold range.
  destruct (0 <? max_retries) eqn:E.
  - apply Z.ltb_lt in E.
    destruct (run (db st)) as [[[] s']|e] eqn:Hrun.
    + destruct (Z.to_nat max_retries) as [|n] eqn:En; [lia|].
      cbn [seq retry].
      assert (Hex : execute fault c run st
                    = (Ok tt, mk_state s' (journal st ++ [(c, None)]) (logs st)))
        by (rewrite execute_answered, Hrun; auto).
      rewrite (catch_ok _ _ _ _ _ Hex). exists [(c, None)], []. cbn.
      now rewrite app_nil_r.
    + apply (retry_refused c run what e Hc (Z.to_nat max_retries) 0%nat st);
        [lia | lia | exact Hrun].
  - apply Z.ltb_ge in E. replace (Z.to_nat max_retries) with 0%nat by lia.
    exists [], []. cbn. now rewrite !app_nil_r; destruct st.
Qed.

Lemma sync_assignments_follows assignments_data :
  (forall rows, answers fault (UpsertAssignments rows)) ->
  follows (sync_assignments_to_supabase fault max_retries assignments_data)
          (assignments_effect max_retries assignments_data).
Proof.
  intros Hc. destruct assignments_data as [|a t].
  - apply (follows_only_logs _ _ (only_logs_log _ _)).
  - unfold sync_assignments_to_supabase, upsert_assignments.
    eapply follows_ext; [|apply retry_follows, Hc].
    intros s. unfold assignments_effect, upsert_effect.
    destruct (0 <? max_retries); [|reflexivity].
    now destruct (upsert_rows _ _ _ _ (assignments s)).
Qed.

Lemma sync_students_follows students_data :
  (forall rows, answers fault (UpsertStudents rows)) ->
  follows (sync_students_to_supabase fault max_retries students_data)
          (students_effect max_retries students_data).
Proof.
  intros Hc. destruct students_data as [|a t].
  - apply (follows_only_logs _ _ (only_logs_log _ _)).
  - unfold sync_students_to_supabase, upsert_students.
    eapply follows_ext; [|apply retry_follows, Hc].
    intros s. unfold students_effect, upsert_effect.
    destruct (0 <? max_retries); [|reflexivity].
    now destruct (upsert_rows _ _ _ _ (students s)).
Qed.

Lemma grade_record_result_only_logs row :
  only_logs (grade_record row) (grade_record_result row).
Proof.
  unfold grade_record, grade_record_result.
  destruct (notna (GradeRow.points_awarded row)).
  - destruct (py_int (GradeRow.points_awarded row)) as [z|e].
    + apply only_logs_ret.
    + destruct (exn_cls e);
        first [ apply only_logs_raise
              | eapply only_logs_bind; [apply only_logs_log | apply only_logs_ret] ].
  - apply only_logs_ret.
Qed.

Lemma sync_grades_follows grades_df :
  (forall rows, answers fault (UpsertGrades rows)) ->
  follows (sync_grades_to_supabase fault max_retries grades_df)
          (grades_effect max_retries grades_df).
Proof.
  intros Hc. destruct grades_df as [|a t].
  - apply (follows_only_logs _ _ (only_logs_log _ _)).
  - unfold sync_grades_to_supabase, grades_effect.
    pose proof (only_logs_collect grade_record grade_record_result (a :: t)
                  grade_record_result_only_logs) as Hcol.
    intros st. destruct (Hcol st) as [l1 H1].
    destruct (all_ok (map grade_record_result (a :: t))) as [records|e].
    + rewrite (bind_ok _ _ _ _ _ H1).
      destruct (omap id records) as [|g gs] eqn:Eg.
      * exists [], (l1 ++ [Build_log_record WARNING "No valid grades data to sync"]).
        cbn. now rewrite app_nil_r, app_assoc.
      * assert (Hf : follows
                  (retry max_retries "grades" (upsert_grades fault (g :: gs))
                     (range max_retries))
                  (fun s => upsert_effect max_retries "grades"
                     (upsert_rows grade_key grade_key write_grade (g :: gs) (grades s))
                     (fun t => mk_store (students s) (assignments s) t
                                 (admin_leaderboard s)) s)).
        { eapply follows_ext; [|apply retry_follows, Hc].
          intros s. unfold upsert_effect.
          destruct (0 <? max_retries); [|reflexivity].
          now destruct (upsert_rows _ _ _ _ (grades s)). }
        destruct (Hf (mk_state (db st) (journal st) (logs st ++ l1)))
          as (j & l2 & ->). cbn.
        exists j, (l1 ++ l2). now rewrite app_assoc.
    + rewrite (bind_raise _ _ _ _ _ H1). exists [], l1. cbn. now rewrite app_nil_r.
Qed.

End RunFacts.

Section RefreshFacts.
Variable fault : nat -> call -> option exn.
Variable fromisoformat : string -> option datetime.
Hypothesis answers_insert : forall batch, answers fault (InsertLeaderboard batch).
Hypothesis answers_upsert : forall row, answers fault (UpsertLeaderboard row).

Lemma upsert_loop_follows batch :
  follows
    (for_each batch
       (fun student =>
          catch (upsert_leaderboard fault student)
            (fun individual_error =>
               log ERROR ("Failed to insert individual student "
                          ++ Entry.github_username student ++ ": "
                          ++ exn_msg individual_error)%string)))
    (fun s => (Ok tt, set_leaderboard s (upsert_entries batch (admin_leaderboard s)))).
Proof.
  induction batch as [|p t IH]; intros st; cbn [for_each].
  - exists [], []. cbn. rewrite !app_nil_r. now destruct st as [[] ? ?].
  - assert (Hex : upsert_leaderboard fault p st
                  = (Ok tt,
                     mk_state (set_leaderboard (db st)
                                 (upsert_row Entry.github_username Entry.github_username
                                    write_entry p (admin_leaderboard (db st))))
                       (journal st ++ [(UpsertLeaderboard p, None)]) (logs st))).
    { unfold upsert_leaderboard. rewrite execute_answered by apply answers_upsert.
      reflexivity. }
    rewrite (bind_ok _ _ _ _ _ (catch_ok _ _ _ _ _ Hex)).
    destruct (IH (mk_state (set_leaderboard (db st)
                              (upsert_row Entry.github_username Entry.github_username
                                 write_entry p (admin_leaderboard (db st))))
                    (journal st ++ [(UpsertLeaderboard p, None)]) (logs st)))
      as (j & l & ->). cbn.
    exists ([(UpsertLeaderboard p, None)] ++ j), l. now rewrite app_assoc.
Qed.

Lemma write_batch_follows batch :
  follows (write_batch fault batch)
    (fun s => (Ok tt, set_leaderboard s (batch_result batch (admin_leaderboard s)))).
Proof.
  intros st. unfold write_batch, batch_result.
  unfold insert_leaderboard at 1. unfold catch at 1.
  rewrite execute_answered by apply answers_insert.
  set (r := insert_rows Entry.github_username Entry.github_username write_entry
              batch (admin_leaderboard (db st))).
  clearbody r. destruct r as [t|].
  - exists [(InsertLeaderboard batch, None)], []. cbn [fst snd]. now rewrite app_nil_r.
  - erewrite bind_ok by (unfold log; reflexivity). cbn [db journal logs].
    destruct (upsert_loop_follows batch
                (mk_state (db st)
                   (journal st ++ [(InsertLeaderboard batch, Some unique_violation)])
                   (logs st ++ [Build_log_record ERROR
                      ("Failed to insert batch: " ++ exn_msg unique_violation)%string])))
      as (j & l & ->). cbn [fst snd db journal logs].
    exists ([(InsertLeaderboard batch, Some unique_violation)] ++ j),
           ([Build_log_record ERROR
               ("Failed to insert batch: " ++ exn_msg unique_violation)%string] ++ l).
    now rewrite !app_assoc.
Qed.

Lemma write_batches_follows bs :
  follows (for_each bs (write_batch fault))
    (fun s => (Ok tt,
               set_leaderboard s
                 (fold_left (fun t b => batch_result b t) bs (admin_leaderboard s)))).
Proof.
  induction bs as [|b t IH]; intros st; cbn [for_each].
  - exists [], []. cbn. rewrite !app_nil_r. now destruct st as [[] ? ?].
  - destruct (write_batch_follows b st) as (j1 & l1 & H1). cbn in H1.
    rewrite (bind_ok _ _ _ _ _ H1).
    destruct (IH (mk_state (set_leaderboard (db st)
                              (batch_result b (admin_leaderboard (db st))))
                    (journal st ++ j1) (logs st ++ l1))) as (j & l & ->). cbn.
    exists (j1 ++ j), (l1 ++ l). now rewrite !app_assoc.
Qed.

Hypothesis answers_students : answers fault SelectStudents.
Hypothesis answers_grades : answers fault SelectGrades.
Hypothesis answers_assignments : answers fault SelectAssignments.

(** The refresh, when the store answers the queries and the row writes
    and the clear step either always succeeds or always fails. *)
Lemma refresh_follows (clears : bool) :
  (if clears then answers fault DeleteLeaderboard
   else refuses fault DeleteLeaderboard) ->
  follows (refresh_admin_leaderboard fault fromisoformat)
          (refresh_effect_with clears fromisoformat).
Proof.
  intros Hclear st.
  unfold refresh_admin_leaderboard, refresh_admin_leaderboard_try, refresh_effect_with.
  set (st1 := mk_state (db st) (journal st ++ [(SelectStudents, None)]) (logs st)).
  assert (H1 : select_students fault st = (Ok (students (db st)), st1))
    by (unfold select_students; now rewrite execute_answered).
  destruct (students (db st)) as [|s0 ss] eqn:Es.
  { erewrite catch_ok; [|rewrite (bind_ok _ _ _ _ _ H1); reflexivity].
    eexists _, _. cbn. reflexivity. }
  set (st2 := mk_state (db st) (journal st1 ++ [(SelectGrades, None)]) (logs st)).
  assert (H2 : select_grades fault st1 = (Ok (grades (db st)), st2))
    by (unfold select_grades; now rewrite execute_answered).
  set (st3 := mk_state (db st) (journal st2 ++ [(SelectAssignments, None)]) (logs st)).
  assert (H3 : select_assignments fault st2 = (Ok (assignments (db st)), st3))
    by (unfold select_assignments; now rewrite execute_answered).
  pose proof (only_logs_collect _ _ (s0 :: ss)
                (leaderboard_entry_only_logs fromisoformat (grades (db st))
                   (assignment_points_of (assignments (db st))))) as Hcol.
  destruct (Hcol st3) as [l4 H4].
  unfold leaderboard_data_of. rewrite Es.
  destruct (all_ok _) as [data|e].
  - set (st4 := mk_state (db st3) (journal st3) (logs st3 ++ l4)) in *.
    assert (H5 : exists st5,
               clear_leaderboard fault st4 = (Ok tt, st5) /\
               db st5 = set_leaderboard (db st)
                          (if clears then [] else admin_leaderboard (db st)) /\
               (exists j, journal st5 = journal st ++ j) /\
               (exists l, logs st5 = logs st ++ l)).
    { unfold clear_leaderboard, delete_leaderboard, catch, execute.
      destruct clears.
      - rewrite Hclear. cbn. eexists. split; [reflexivity|]. cbn.
        split; [reflexivity|]. split; eexists; rewrite <- ?app_assoc; reflexivity.
      - destruct (fault _ DeleteLeaderboard) as [e|] eqn:Ef;
          [|now apply Hclear in Ef].
        cbn. eexists. split; [reflexivity|]. cbn.
        split; [now destruct (db st)|].
        split; eexists; rewrite <- ?app_assoc; reflexivity. }
    destruct H5 as (st5 & H5 & Hdb5 & [j5 Hj5] & [l5 Hl5]).
    destruct (write_batches_follows (batches (rank data)) st5) as (j6 & l6 & H6).
    erewrite catch_ok.
    2:{ rewrite (bind_ok _ _ _ _ _ H1), (bind_ok _ _ _ _ _ H2),
          (bind_ok _ _ _ _ _ H3), (bind_ok _ _ _ _ _ H4),
          (bind_ok _ _ _ _ _ H5). exact H6. }
    cbn. rewrite Hdb5, Hj5, Hl5. cbn.
    exists (j5 ++ j6), (l5 ++ l6). unfold written. now rewrite !app_assoc.
  - erewrite catch_raise.
    2:{ rewrite (bind_ok _ _ _ _ _ H1), (bind_ok _ _ _ _ _ H2),
          (bind_ok _ _ _ _ _ H3). apply (bind_raise _ _ _ _ _ H4). }
    unfold mbind, M_bind, log, raise. cbn.
    eexists _, _. unfold refresh_failure. rewrite <- !app_assoc. reflexivity.
Qed.

End RefreshFacts.

(** ** Batches *)

Lemma slices_concat {A : Type} (k : nat) : forall data : list A,
  (length data <= batch_size * k)%nat ->
  concat (map (fun i => slice data i batch_size)
              (map (fun j => (j * batch_size)%nat) (seq 0 k))) = data.
Proof.
  unfold slice.
  induction k as [|k IH]; intros data Hlen.
  - destruct data; [reflexivity | cbn in Hlen; lia].
  - cbn [seq map concat]. rewrite <- seq_shift, !map_map.
    transitivity (firstn batch_size data ++ skipn batch_size data);
      [|apply firstn_skipn].
    f_equal.
    etransitivity;
      [|apply (IH (skipn batch_size data)); rewrite length_skipn; lia].
    rewrite map_map. f_equal. apply map_ext. intros j.
    rewrite drop_drop. f_equal.
Qed.

(** The batches, one after the other, are the leaderboard. *)
Lemma batches_concat {A : Type} (data : list A) : concat (batches data) = data.
Proof.
  unfold batches, range_step. apply slices_concat.
  unfold batch_size.
  pose proof (Nat.div_mod_eq (length data + 10 - 1) 10).
  pose proof (Nat.mod_upper_bound (length data + 10 - 1) 10). lia.
Qed.

(** ** What the batches leave in the leaderboard table *)

Local Abbreviation upsert_entry :=
  (upsert_row Entry.github_username Entry.github_username write_entry).

Lemma upsert_entry_in p tbl : p ∈ upsert_entry p tbl.
Proof.
  induction tbl as [|r t IH]; cbn; [left|].
  destruct (bool_decide _); [left | right; exact IH].
Qed.

Lemma upsert_entry_keep r p tbl :
  r ∈ tbl -> Entry.github_username r <> Entry.github_username p ->
  r ∈ upsert_entry p tbl.
Proof.
  intros Hr Hne. induction tbl as [|x t IH]; [now apply elem_of_nil in Hr|].
  cbn. apply elem_of_cons in Hr as [<-|Hr].
  - rewrite bool_decide_eq_false_2 by exact Hne. left.
  - destruct (bool_decide _); right; auto.
Qed.

Lemma upsert_entries_keep r batch : forall tbl,
  r ∈ tbl -> Entry.github_username r ∉ map Entry.github_username batch ->
  r ∈ upsert_entries batch tbl.
Proof.
  unfold upsert_entries.
  induction batch as [|p t IH]; intros tbl Hr Hk; [exact Hr|].
  cbn in Hk. apply not_elem_of_cons in Hk as [Hne Hk].
  cbn. apply IH; [|exact Hk]. now apply upsert_entry_keep.
Qed.

Lemma upsert_entries_in r batch : forall tbl,
  NoDup (map Entry.github_username batch) -> r ∈ batch ->
  r ∈ upsert_entries batch tbl.
Proof.
  induction batch as [|p t IH]; intros tbl Hnd Hr; [now apply elem_of_nil in Hr|].
  cbn in Hnd. apply NoDup_cons in Hnd as [Hfresh Hnd].
  apply elem_of_cons in Hr as [->|Hr].
  - apply (upsert_entries_keep p t (upsert_entry p tbl)); [apply upsert_entry_in | exact Hfresh].
  - apply (IH (upsert_entry p tbl) Hnd Hr).
Qed.

Lemma insert_entries_result batch tbl t :
  insert_rows Entry.github_username Entry.github_username write_entry batch tbl
  = Some t -> t = tbl ++ batch.
Proof.
  unfold insert_rows. destruct (_ && _); [|discriminate].
  intros H. injection H as <-. unfold write_entry. now rewrite map_id.
Qed.

Lemma batch_result_keep r batch tbl :
  r ∈ tbl -> Entry.github_username r ∉ map Entry.github_username batch ->
  r ∈ batch_result batch tbl.
Proof.
  intros Hr Hk. unfold batch_result.
  destruct (insert_rows Entry.github_username Entry.github_username write_entry
              batch tbl) as [t|] eqn:Ei.
  - apply insert_entries_result in Ei as ->. apply elem_of_app. now left.
  - now apply upsert_entries_keep.
Qed.

Lemma batch_result_in r batch tbl :
  NoDup (map Entry.github_username batch) -> r ∈ batch ->
  r ∈ batch_result batch tbl.
Proof.
  intros Hnd Hr. unfold batch_result.
  destruct (insert_rows Entry.github_username Entry.github_username write_entry
              batch tbl) as [t|] eqn:Ei.
  - apply insert_entries_result in Ei as ->. apply elem_of_app. now right.
  - now apply upsert_entries_in.
Qed.

Lemma batch_results_keep r bs : forall tbl,
  r ∈ tbl -> Entry.github_username r ∉ map Entry.github_username (concat bs) ->
  r ∈ fold_left (fun t b => batch_result b t) bs tbl.
Proof.
  induction bs as [|b t IH]; intros tbl Hr Hk; [exact Hr|].
  cbn in Hk. rewrite map_app in Hk. apply not_elem_of_app in Hk as [Hb Hk].
  cbn. apply IH; [|exact Hk]. now apply batch_result_keep.
Qed.

Lemma batch_results_in r bs : forall tbl,
  NoDup (map Entry.github_username (concat bs)) -> r ∈ concat bs ->
  r ∈ fold_left (fun t b => batch_result b t) bs tbl.
Proof.
  induction bs as [|b t IH]; intros tbl Hnd Hr; [now apply elem_of_nil in Hr|].
  cbn in Hnd, Hr. rewrite map_app in Hnd.
  apply NoDup_app in Hnd as (Hb & Hdisj & Ht).
  cbn. apply elem_of_app in Hr as [Hr|Hr].
  - apply batch_results_keep; [now apply batch_result_in|].
    apply Hdisj. apply list_elem_of_fmap. eauto.
  - now apply IH.
Qed.

(** Every row of the leaderboard is in the table after the writes, and
    so is every row of the table whose username is not in the
    leaderboard. *)
Lemma written_in r data tbl :
  NoDup (map Entry.github_username data) -> r ∈ data -> r ∈ written data tbl.
Proof.
  intros Hnd Hr. unfold written.
  apply batch_results_in; now rewrite batches_concat.
Qed.

Lemma written_keep r data tbl :
  r ∈ tbl -> Entry.github_username r ∉ map Entry.github_username data ->
  r ∈ written data tbl.
Proof.
  intros Hr Hk. unfold written.
  apply batch_results_keep; [exact Hr | now rewrite batches_concat].
Qed.

Lemma batch_results_fresh bs : forall tbl,
  NoDup (map Entry.github_username (tbl ++ concat bs)) ->
  fold_left (fun t b => batch_result b t) bs tbl = tbl ++ concat bs.
Proof.
  induction bs as [|b t IH]; intros tbl Hnd; cbn; [now rewrite app_nil_r|].
  cbn in Hnd. rewrite app_assoc in Hnd.
  assert (Hb : batch_result b tbl = tbl ++ b).
  { unfold batch_result, insert_rows.
    rewrite map_app in Hnd. apply NoDup_app in Hnd as (Hnd & _ & _).
    rewrite map_app in Hnd. apply NoDup_app in Hnd as (Ht & Hdisj & Hb).
    replace (distinct_keys Entry.github_username b) with true
      by (symmetry; now apply distinct_keys_NoDup).
    replace (forallb _ b) with true.
    - cbn. unfold write_entry. now rewrite map_id.
    - symmetry. apply forallb_forall. intros p Hp. apply negb_true_iff.
      apply not_true_is_false. rewrite has_key_elem. intros Hk.
      apply (Hdisj _ Hk). apply list_elem_of_fmap. exists p.
      split; [reflexivity | now apply list_elem_of_In]. }
  rewrite Hb, (IH _ Hnd). now rewrite app_assoc.
Qed.

(** Into an empty table, a leaderboard with one row per username is
    written as it is. *)
Lemma written_fresh data :
  NoDup (map Entry.github_username data) -> written data [] = data.
Proof.
  intros Hnd. unfold written.
  rewrite batch_results_fresh; rewrite batches_concat; [reflexivity | exact Hnd].
Qed.

(** ** The in-memory processing only logs *)

Lemma only_logs_catch_ok {A : Type} (m : M A) (h : exn -> M A) a :
  only_logs m (Ok a) -> only_logs (catch m h) (Ok a).
Proof.
  intros Hm st. destruct (Hm st) as [l H]. exists l.
  now rewrite (catch_ok _ _ _ _ _ H).
Qed.

Lemma only_logs_catch_raise {A : Type} (m : M A) (h : exn -> M A) e r :
  only_logs m (Raise e) -> only_logs (h e) r -> only_logs (catch m h) r.
Proof.
  intros Hm Hh st. destruct (Hm st) as [l1 H1].
  rewrite (catch_raise _ _ _ _ _ H1).
  destruct (Hh (mk_state (db st) (journal st) (logs st ++ l1))) as [l2 ->].
  exists (l1 ++ l2). cbn. now rewrite app_assoc.
Qed.

Section ProcessingFacts.
Variable fromisoformat : string -> option datetime.
Variable get_repository_info : url_cell -> option RepoInfo.t.
Variable download_grades_to_dataframe : string -> option (list Row.t).

Lemma visit_row_only_logs students row :
  exists r,
    only_logs (visit_row fromisoformat get_repository_info students row) (Ok r).
Proof.
  unfold visit_row.
  destruct (negb (known _ students) && url_truthy _).
  - destruct (get_repository_info _) as [info|].
    + destruct (RepoInfo.is_fork info).
      * eexists. eapply only_logs_bind;
          [apply calculate_resolution_time_only_logs | apply only_logs_ret].
      * eexists. eapply only_logs_bind; [apply only_logs_log | apply only_logs_ret].
    + eexists. eapply only_logs_bind; [apply only_logs_log | apply only_logs_ret].
  - eexists. apply only_logs_ret.
Qed.

(** A row whose repository url is not truthy adds no student. *)
Lemma visit_row_without_url students row :
  url_truthy (Row.student_repository_url row) = false ->
  only_logs (visit_row fromisoformat get_repository_info students row) (Ok students).
Proof.
  intros H. unfold visit_row. rewrite H, andb_false_r. apply only_logs_ret.
Qed.

Lemma visit_rows_only_logs rows : forall students,
  exists r,
    only_logs (visit_rows fromisoformat get_repository_info students rows) (Ok r).
Proof.
  induction rows as [|row t IH]; intros students; cbn.
  - eexists. apply only_logs_ret.
  - destruct (visit_row_only_logs students row) as [s1 H1].
    destruct (IH s1) as [r Hr]. exists r.
    eapply only_logs_bind; eauto.
Qed.

Lemma process_assignment_try_only_logs acc assignment :
  exists r,
    only_logs (process_assignment_try fromisoformat get_repository_info
                 download_grades_to_dataframe acc assignment) r.
Proof.
  destruct assignment as [[assignment_id assignment_name] assignment_repo].
  unfold process_assignment_try.
  destruct (download_grades_to_dataframe assignment_id) as [[|r rs]|].
  - eexists. eapply only_logs_bind; [apply only_logs_log | apply only_logs_ret].
  - generalize (r :: rs). intros df.
    destruct (format_assignment_name assignment_name) as [formatted_name|e].
    + destruct (visit_rows_only_logs df (students_with_repo_info acc))
        as [students Hs].
      eexists. eapply only_logs_bind.
      * destruct (decide _); [apply only_logs_log | apply only_logs_ret].
      * eapply only_logs_bind; [exact Hs | apply only_logs_ret].
    + eexists. apply only_logs_raise.
  - eexists. eapply only_logs_bind; [apply only_logs_log | apply only_logs_ret].
Qed.

(** The loop over the assignments never raises and sends nothing to the
    store: its working set is a function of the extracts. *)
Lemma process_assignments_only_logs assignment_data : forall acc,
  exists acc',
    only_logs (process_assignments fromisoformat get_repository_info
                 download_grades_to_dataframe acc assignment_data) (Ok acc').
Proof.
  induction assignment_data as [|a t IH]; intros acc; cbn.
  - eexists. apply only_logs_ret.
  - destruct (process_assignment_try_only_logs acc a) as [[acc1|e] H1].
    + destruct (IH acc1) as [acc' H']. exists acc'.
      eapply only_logs_bind; [|exact H'].
      now apply only_logs_catch_ok.
    + destruct (IH acc) as [acc' H']. exists acc'.
      eapply only_logs_bind; [|exact H'].
      eapply only_logs_catch_raise; [exact H1|].
      eapply only_logs_bind; [apply only_logs_log | apply only_logs_ret].
Qed.

End ProcessingFacts.

(** ** Claim C10 *)

(** Claim C10.  When the query of the students table returns no row,
    the refresh returns at once: the only request it sends is that
    query, and the store, with its leaderboard table, is as it was. *)
Theorem C10_no_students (fault : nat -> call -> option exn)
    (fromisoformat : string -> option datetime) (st : state) :
  students (db st) = [] ->
  fault (length (journal st)) SelectStudents = None ->
  refresh_admin_leaderboard fault fromisoformat st
  = (Ok tt,
     mk_state (db st) (journal st ++ [(SelectStudents, None)])
       (logs st ++ [Build_log_record WARNING "No students found for leaderboard"])).
Proof.
  intros Hs Hf.
  unfold refresh_admin_leaderboard, refresh_admin_leaderboard_try.
  apply catch_ok.
  assert (H1 : select_students fault st
               = (Ok [], mk_state (db st) (journal st ++ [(SelectStudents, None)])
                           (logs st))).
  { unfold select_students, execute. now rewrite Hf, Hs. }
  now rewrite (bind_ok _ _ _ _ _ H1).
Qed.

(** The early-return theorem at a store with no student and two rows in
    the leaderboard: the rows stay. *)
Lemma C10_no_students_witness :
  let stale := [entry_with "alice" (Some 3) 90; entry_with "bob" None 40] in
  let st := initial (mk_store [] [] [] stale) in
  let st' := (refresh_admin_leaderboard no_fault fromisoformat_reader st).2 in
  admin_leaderboard (db st') = stale /\ journal st' = [(SelectStudents, None)].
Proof.
  intros stale st st'. unfold st'.
  rewrite (C10_no_students no_fault fromisoformat_reader st eq_refl eq_refl).
  split; reflexivity.
Defined.

(** ** The entries of the leaderboard and the students *)

Lemma all_ok_usernames (fromisoformat : string -> option datetime)
    grades_data assignment_points students_data : forall data,
  all_ok (map (leaderboard_entry_result fromisoformat grades_data assignment_points)
              students_data) = Ok data ->
  map Entry.github_username data = map Student.github_username students_data.
Proof.
  induction students_data as [|s t IH]; intros data; cbn.
  - intros H. now injection H as <-.
  - unfold leaderboard_entry_result at 1.
    destruct (percentage_of _ _); [|discriminate].
    destruct (all_ok _) as [l|]; [|discriminate].
    intros H. injection H as <-. cbn. f_equal. now apply IH.
Qed.

(** One entry per row of the students table, in the order of the rows. *)
Lemma leaderboard_data_usernames fromisoformat s data :
  leaderboard_data_of fromisoformat s = Ok data ->
  map Entry.github_username data = map Student.github_username (students s).
Proof. apply all_ok_usernames. Qed.

Lemma add_ranking_positions_usernames l : forall i,
  map Entry.github_username (add_ranking_positions i l)
  = map Entry.github_username l.
Proof. induction l as [|x t IH]; intros i; cbn; [reflexivity|]. now rewrite IH. Qed.

Lemma rank_usernames data :
  Permutation (map Entry.github_username (rank data))
              (map Entry.github_username data).
Proof.
  unfold rank. rewrite add_ranking_positions_usernames.
  apply Permutation_map, list_sort_perm.
Qed.

(** ** Claim C7 *)

Section ClearThenInsert.
Variable fault : nat -> call -> option exn.
Hypothesis answers_others : fails_at_most_on fault DeleteLeaderboard.

Lemma upsert_loop_trace batch : forall st,
  for_each batch
    (fun student =>
       catch (upsert_leaderboard fault student)
         (fun individual_error =>
            log ERROR ("Failed to insert individual student "
                       ++ Entry.github_username student ++ ": "
                       ++ exn_msg individual_error)%string)) st
  = (Ok tt,
     mk_state
       (set_leaderboard (db st) (upsert_entries batch (admin_leaderboard (db st))))
       (journal st ++ map (fun row => (UpsertLeaderboard row, None)) batch)
       (logs st)).
Proof.
  induction batch as [|p t IH]; intros st; cbn [for_each].
  - cbn. rewrite app_nil_r. now destruct st as [[] ? ?].
  - assert (Hex : upsert_leaderboard fault p st
                  = (Ok tt,
                     mk_state (set_leaderboard (db st)
                                 (upsert_row Entry.github_username Entry.github_username
                                    write_entry p (admin_leaderboard (db st))))
                       (journal st ++ [(UpsertLeaderboard p, None)]) (logs st))).
    { unfold upsert_leaderboard.
      rewrite execute_answered by (intros n; now apply answers_others).
      reflexivity. }
    rewrite (bind_ok _ _ _ _ _ (catch_ok _ _ _ _ _ Hex)), IH. cbn.
    now rewrite <- app_assoc.
Qed.

Lemma write_batch_trace batch st :
  exists l,
    write_batch fault batch st
    = (Ok tt,
       mk_state
         (set_leaderboard (db st) (batch_result batch (admin_leaderboard (db st))))
         (journal st ++ batch_requests batch (admin_leaderboard (db st)))
         (logs st ++ l)).
Proof.
  unfold write_batch, batch_result, batch_requests.
  unfold insert_leaderboard at 1. unfold catch at 1.
  rewrite execute_answered by (intros n; now apply answers_others).
  set (r := insert_rows Entry.github_username Entry.github_username write_entry
              batch (admin_leaderboard (db st))).
  clearbody r. destruct r as [t|].
  - exists []. cbn. now rewrite app_nil_r.
  - erewrite bind_ok by (unfold log; reflexivity).
    rewrite upsert_loop_trace. cbn [db journal logs set_leaderboard admin_leaderboard].
    eexists. rewrite <- app_assoc. reflexivity.
Qed.

Lemma write_batches_trace bs : forall st,
  exists l,
    for_each bs (write_batch fault) st
    = (Ok tt,
       mk_state
         (set_leaderboard (db st)
            (fold_left (fun t b => batch_result b t) bs (admin_leaderboard (db st))))
         (journal st ++ batches_requests bs (admin_leaderboard (db st)))
         (logs st ++ l)).
Proof.
  induction bs as [|b t IH]; intros st; cbn [for_each].
  - exists []. cbn. rewrite !app_nil_r. now destruct st as [[] ? ?].
  - destruct (write_batch_trace b st) as [l1 H1].
    rewrite (bind_ok _ _ _ _ _ H1).
    destruct (IH (mk_state (set_leaderboard (db st)
                              (batch_result b (admin_leaderboard (db st))))
                    (journal st ++ batch_requests b (admin_leaderboard (db st)))
                    (logs st ++ l1))) as [l ->].
    cbn. exists (l1 ++ l). now rewrite !app_assoc.
Qed.

End ClearThenInsert.

(** Claim C7.  The leaderboard write is clear-then-insert, and a failed
    clear does not abort the run.  When the store answers every request
    except, possibly, the clear, the refresh of a store with students
    returns normally, and the requests it sends are the three queries,
    the clear, and then the writes of the batches of the new
    leaderboard, each batch by an insert and, when the table refuses the
    insert, by the upsert of each of its rows.  Every row of the new
    leaderboard is in the table afterwards and the three tables the
    refresh reads are as they were.  When the clear succeeds the table
    is the new leaderboard; when it fails, a warning is logged, the
    batches are written over the table as it was, and every stale row
    whose username is not in the new leaderboard stays. *)
Theorem C7_clear_failure (fault : nat -> call -> option exn)
    (fromisoformat : string -> option datetime) (st : state)
    (data : list Entry.t) :
  fails_at_most_on fault DeleteLeaderboard ->
  students (db st) <> [] ->
  NoDup (map Student.github_username (students (db st))) ->
  leaderboard_data_of fromisoformat (db st) = Ok data ->
  let clear_failure := fault (length (journal st) + 3)%nat DeleteLeaderboard in
  let cleared :=
    match clear_failure with
    | None => []
    | Some _ => admin_leaderboard (db st)
    end in
  exists st',
    refresh_admin_leaderboard fault fromisoformat st = (Ok tt, st') /\
    journal st'
    = journal st
      ++ [(SelectStudents, None); (SelectGrades, None); (SelectAssignments, None);
          (DeleteLeaderboard, clear_failure)]
      ++ batches_requests (batches (rank data)) cleared /\
    students (db st') = students (db st) /\
    assignments (db st') = assignments (db st) /\
    grades (db st') = grades (db st) /\
    admin_leaderboard (db st') = written (rank data) cleared /\
    (forall r, r ∈ rank data -> r ∈ admin_leaderboard (db st')) /\
    (clear_failure = None -> admin_leaderboard (db st') = rank data) /\
    (forall e, clear_failure = Some e ->
       Build_log_record WARNING ("Could not clear existing data: " ++ exn_msg e)%string
         ∈ logs st' /\
       forall r, r ∈ admin_leaderboard (db st) ->
                 Entry.github_username r ∉ map Entry.github_username data ->
                 r ∈ admin_leaderboard (db st')).
Proof.
  intros Hfault Hstudents Hnd Hdata clear_failure cleared.
  assert (Hans : forall c, c <> DeleteLeaderboard -> answers fault c)
    by (intros c Hc n; now apply Hfault).
  assert (Hnd' : NoDup (map Entry.github_username (rank data))).
  { rewrite rank_usernames, (leaderboard_data_usernames _ _ _ Hdata). exact Hnd. }
  unfold refresh_admin_leaderboard, refresh_admin_leaderboard_try.
  set (st1 := mk_state (db st) (journal st ++ [(SelectStudents, None)]) (logs st)).
  assert (H1 : select_students fault st = (Ok (students (db st)), st1))
    by (unfold select_students; now rewrite execute_answered by now apply Hans).
  set (st2 := mk_state (db st) (journal st1 ++ [(SelectGrades, None)]) (logs st)).
  assert (H2 : select_grades fault st1 = (Ok (grades (db st)), st2))
    by (unfold select_grades; now rewrite execute_answered by now apply Hans).
  set (st3 := mk_state (db st) (journal st2 ++ [(SelectAssignments, None)]) (logs st)).
  assert (H3 : select_assignments fault st2 = (Ok (assignments (db st)), st3))
    by (unfold select_assignments; now rewrite execute_answered by now apply Hans).
  unfold leaderboard_data_of in Hdata.
  destruct (students (db st)) as [|s0 ss] eqn:Es; [congruence|].
  pose proof (only_logs_collect _ _ (s0 :: ss)
                (leaderboard_entry_only_logs fromisoformat (grades (db st))
                   (assignment_points_of (assignments (db st))))) as Hcol.
  destruct (Hcol st3) as [l4 H4]. rewrite Hdata in H4.
  set (st4 := mk_state (db st3) (journal st3) (logs st3 ++ l4)) in *.
  assert (Hlen : length (journal st4) = (length (journal st) + 3)%nat).
  { cbn. rewrite !length_app. cbn. lia. }
  set (warning e := Build_log_record WARNING
                      ("Could not clear existing data: " ++ exn_msg e)%string).
  set (st5 := mk_state (set_leaderboard (db st) cleared)
                (journal st4 ++ [(DeleteLeaderboard, clear_failure)])
                (logs st4 ++ match clear_failure with
                             | None => []
                             | Some e => [warning e]
                             end)).
  assert (H5 : clear_leaderboard fault st4 = (Ok tt, st5)).
  { unfold clear_leaderboard, delete_leaderboard, catch, execute.
    rewrite Hlen. subst st5 cleared. fold clear_failure.
    destruct clear_failure as [e|]; cbn.
    - unfold log. cbn. f_equal. f_equal. now destruct (db st).
    - now rewrite app_nil_r. }
  destruct (write_batches_trace fault Hfault (batches (rank data)) st5) as [l6 H6].
  eexists. split.
  { apply catch_ok.
    rewrite (bind_ok _ _ _ _ _ H1), (bind_ok _ _ _ _ _ H2),
      (bind_ok _ _ _ _ _ H3), (bind_ok _ _ _ _ _ H4), (bind_ok _ _ _ _ _ H5).
    exact H6. }
  subst st5 st4 st3 st2 st1.
  cbn [db journal logs set_leaderboard students assignments grades admin_leaderboard].
  split; [now rewrite <- !app_assoc|].
  split; [exact Es|]. split; [reflexivity|]. split; [reflexivity|].
  split; [reflexivity|]. split; [|split].
  - intros r Hr. now apply written_in.
  - intros Hnone. unfold cleared, clear_failure in *. rewrite Hnone.
    now apply written_fresh.
  - intros e He. unfold cleared, clear_failure in *. rewrite He. split.
    + apply elem_of_app. left. apply elem_of_app. right. left.
    + intros r Hr Hk. apply written_keep; [exact Hr|].
      now rewrite rank_usernames.
Qed.

(** The clear-failure theorem at the class of alice and bob, with a
    store that rejects the clear: the clear is sent after the three
    queries and refused, the insert of the batch is refused for the old
    row of alice, the new rows of alice and bob are upserted and the
    stale row of carol stays. *)
Lemma C7_clear_failure_witness :
  let st' :=
    (refresh_admin_leaderboard clear_refused fromisoformat_reader
       (initial class_store)).2 in
  alice_entry ∈ admin_leaderboard (db st') /\
  bob_entry ∈ admin_leaderboard (db st') /\
  carol_entry ∈ admin_leaderboard (db st') /\
  journal st'
  = [ (SelectStudents, None); (SelectGrades, None); (SelectAssignments, None);
      (DeleteLeaderboard, Some (Exn APIError "violates row-level security policy"));
      (InsertLeaderboard [alice_entry; bob_entry], Some unique_violation);
      (UpsertLeaderboard alice_entry, None); (UpsertLeaderboard bob_entry, None) ].
Proof.
  destruct (C7_clear_failure clear_refused fromisoformat_reader
              (initial class_store)
              [ Entry.mk "alice" (Some "2024-01-01T00:00:00Z")
                  (Some "2024-01-03T01:59:59Z") (Some 49) (Some true) 75 100 75 2 None;
                Entry.mk "bob" None None None (Some false) 60 60 100 1 None ])
    as (st' & Hrun & Hjournal & _ & _ & _ & _ & Hnew & _ & Hfailed).
  - intros n c Hc. destruct c; try reflexivity. now destruct Hc.
  - discriminate.
  - apply (bool_decide_unpack _). vm_compute. exact Logic.I.
  - vm_compute. reflexivity.
  - destruct (Hfailed _ eq_refl) as [_ Hstale].
    cbv zeta. rewrite Hrun. cbn [snd].
    split; [apply Hnew; vm_compute; left|].
    split; [apply Hnew; vm_compute; right; left|].
    split; [|rewrite Hjournal; vm_compute; reflexivity].
    apply Hstale; [vm_compute; right; left|].
    apply (bool_decide_unpack _). vm_compute. exact Logic.I.
Defined.

(** ** Claim C6 *)

(** The leaderboard writer never raises: a failed batch insert falls
    back to the upsert of each row, and the failure of a row is logged
    and skipped. *)
Lemma write_batch_returns fault batch st : (write_batch fault batch st).1 = Ok tt.
Proof.
  assert (Hloop : forall s,
             (for_each batch
                (fun student =>
                   catch (upsert_leaderboard fault student)
                     (fun individual_error =>
                        log ERROR ("Failed to insert individual student "
                                   ++ Entry.github_username student ++ ": "
                                   ++ exn_msg individual_error)%string)) s).1
             = Ok tt).
  { induction batch as [|p t IH]; intros s; [reflexivity|].
    cbn [for_each]. unfold mbind, M_bind.
    destruct (catch _ _ s) as [[[]|e] s'] eqn:E; [apply IH|].
    exfalso. unfold catch in E.
    destruct (upsert_leaderboard fault p s) as [[[]|e'] s2]; discriminate. }
  unfold write_batch, catch.
  destruct (insert_leaderboard fault batch st) as [[[]|e] st1]; [reflexivity|].
  unfold mbind at 1, M_bind at 1. unfold log at 1. apply Hloop.
Qed.

(** A row whose [points_awarded] is a text that is not a number is
    dropped, and the other rows are upserted. *)
Example sync_grades_drops_text :
  grades (db (sync_grades_to_supabase no_fault 3 frame_with_text
                (initial empty_store)).2)
  = [Grade.mk "alice" "part-1" (Some 10)].
Proof. reflexivity. Qed.

(** Claim C6 fails on the code.  A grades frame with an infinite
    [points_awarded] makes [int] raise an OverflowError, which the loop
    over the rows does not except: the sync raises it, sends nothing to
    the store, and the valid record of the frame is not upserted. *)
Theorem C6_infinite_points_abort (fault : nat -> call -> option exn)
    (max_retries : Z) (st : state) :
  sync_grades_to_supabase fault max_retries frame_with_infinity st
  = (Raise (Exn OverflowError "cannot convert float infinity to integer"), st).
Proof.
  unfold sync_grades_to_supabase, frame_with_infinity.
  cbn. unfold mbind, M_bind, mret, M_ret, raise. cbn. reflexivity.
Qed.

(** ** Claim C8 *)

Lemma all_ok_elem {A B : Type} (g : A -> outcome B) xs : forall ys x,
  all_ok (map g xs) = Ok ys -> x ∈ xs -> exists y, g x = Ok y /\ y ∈ ys.
Proof.
  induction xs as [|a t IH]; intros ys x H Hx; [now apply elem_of_nil in Hx|].
  cbn in H. destruct (g a) as [b|] eqn:Ea; [|discriminate].
  destruct (all_ok (map g t)) as [l|]; [|discriminate].
  injection H as <-. apply elem_of_cons in Hx as [->|Hx].
  - exists b. split; [exact Ea | left].
  - destruct (IH l x eq_refl Hx) as (y & Hy & Hin).
    exists y. split; [exact Hy | now right].
Qed.

Lemma rank_elem data entry :
  entry ∈ data -> exists i, set_ranking_position i entry ∈ rank data.
Proof.
  intros H.
  rewrite <- (list_sort_perm sort_key key_ltb data) in H.
  apply list_elem_of_lookup in H as [n Hn].
  exists (1 + Z.of_nat n). apply list_elem_of_lookup. exists n.
  unfold rank. now rewrite add_ranking_positions_lookup, Hn.
Qed.

(** Claim C8, as amended.  The working set of the ranker is a left join
    from the students table: when the store answers every request, the
    leaderboard after the refresh is the ranked list of one entry per
    row of the students table.  A student without grade records has an
    entry, with zero totals; grade records under a username that is not
    in the students table give no entry.  During processing, a row
    whose repository url is not truthy adds no student. *)
Theorem C8_left_join (fault : nat -> call -> option exn)
    (fromisoformat : string -> option datetime)
    (get_repository_info : url_cell -> option RepoInfo.t)
    (st : state) (data : list Entry.t) :
  (forall n c, fault n c = None) ->
  students (db st) <> [] ->
  NoDup (map Student.github_username (students (db st))) ->
  leaderboard_data_of fromisoformat (db st) = Ok data ->
  exists st',
    refresh_admin_leaderboard fault fromisoformat st = (Ok tt, st') /\
    admin_leaderboard (db st') = rank data /\
    Permutation (map Entry.github_username (admin_leaderboard (db st')))
                (map Student.github_username (students (db st))) /\
    (forall student,
        student ∈ students (db st) ->
        student_grades_of (Student.github_username student) (grades (db st)) = [] ->
        exists entry,
          entry ∈ admin_leaderboard (db st') /\
          Entry.github_username entry = Student.github_username student /\
          Entry.total_score entry = 0 /\
          Entry.assignments_completed entry = 0) /\
    (forall g,
        g ∈ grades (db st) ->
        Grade.github_username g ∉ map Student.github_username (students (db st)) ->
        Grade.github_username g
          ∉ map Entry.github_username (admin_leaderboard (db st'))) /\
    (forall students_with_repo_info row,
        url_truthy (Row.student_repository_url row) = false ->
        only_logs (visit_row fromisoformat get_repository_info
                     students_with_repo_info row)
                  (Ok students_with_repo_info)).
Proof.
  intros Hfault Hstudents Hnd Hdata.
  assert (Hrun : follows (refresh_admin_leaderboard fault fromisoformat)
                   (refresh_effect_with true fromisoformat)).
  { apply refresh_follows; intros; intros n; apply Hfault. }
  destruct (Hrun st) as (j & l & Hst). clear Hrun.
  unfold refresh_effect_with in Hst. rewrite Hdata in Hst.
  assert (Hnd' : NoDup (map Entry.github_username (rank data))).
  { rewrite rank_usernames, (leaderboard_data_usernames _ _ _ Hdata).
    exact Hnd. }
  assert (Hperm : Permutation (map Entry.github_username (rank data))
                    (map Student.github_username (students (db st)))).
  { now rewrite rank_usernames, (leaderboard_data_usernames _ _ _ Hdata). }
  assert (Hst' : refresh_admin_leaderboard fault fromisoformat st
                 = (Ok tt, mk_state (set_leaderboard (db st) (rank data))
                             (journal st ++ j) (logs st ++ l))).
  { rewrite Hst. destruct (students (db st)); [congruence|].
    cbn [fst snd]. now rewrite (written_fresh _ Hnd'). }
  eexists. split; [exact Hst'|].
  cbn [db fst snd set_leaderboard students assignments grades admin_leaderboard].
  split; [reflexivity|]. split; [exact Hperm|]. split; [|split].
  - intros student Hin Hnone.
    unfold leaderboard_data_of in Hdata.
    destruct (all_ok_elem _ _ _ _ Hdata Hin) as (entry & He & Hentry).
    destruct (rank_elem _ _ Hentry) as [i Hi].
    exists (set_ranking_position i entry). split; [exact Hi|].
    unfold leaderboard_entry_result in He. rewrite Hnone in He.
    destruct (percentage_of _ _); [|discriminate].
    injection He as <-. repeat split.
  - intros g Hg Hout. now rewrite Hperm.
  - intros. now apply visit_row_without_url.
Qed.

(** The left-join theorem at the class of alice and bob: the refresh
    leaves exactly their two entries. *)
Lemma C8_left_join_witness :
  map Entry.github_username
    (admin_leaderboard
       (db (refresh_admin_leaderboard no_fault fromisoformat_reader
              (initial class_store)).2))
  = ["alice"; "bob"].
Proof.
  destruct (C8_left_join no_fault fromisoformat_reader (fun _ => None)
              (initial class_store)
              [ Entry.mk "alice" (Some "2024-01-01T00:00:00Z")
                  (Some "2024-01-03T01:59:59Z") (Some 49) (Some true) 75 100 75 2 None;
                Entry.mk "bob" None None None (Some false) 60 60 100 1 None ])
    as (st' & Hrun & Hboard & _).
  - reflexivity.
  - discriminate.
  - apply (bool_decide_unpack _). vm_compute. exact Logic.I.
  - vm_compute. reflexivity.
  - rewrite Hrun. cbn [snd]. rewrite Hboard. reflexivity.
Defined.

(** Claim C8 as stated fails: the working set is not a full outer join.
    With alice in the students table and a grade of bob, who is not, the
    leaderboard has an entry for alice only; and the sync of an extract
    without repository urls stores the grade of bob and neither a
    student nor a leaderboard entry for him. *)
Lemma C8_outer_join_counterexample :
  map Entry.github_username
    (admin_leaderboard
       (db (refresh_admin_leaderboard no_fault fromisoformat_reader
              (initial grades_of_a_stranger)).2))
  = ["alice"] /\
  let st' :=
    (process_assignments_in_memory no_fault fromisoformat_reader (fun _ => None)
       extract_without_urls 3 [("1", "Part 1", "template")]
       (initial empty_store)).2 in
  grades (db st') = [Grade.mk "bob" "part-1" (Some 10)] /\
  students (db st') = [] /\
  admin_leaderboard (db st') = [].
Proof. vm_compute. repeat split. Qed.

(** ** Claim C2 *)

(** *** The leaderboard is written by a plain insert, a row upsert being
    the fallback *)

Lemma upsert_loop_journal fault batch : forall st,
  exists js,
    journal (for_each batch
               (fun student =>
                  catch (upsert_leaderboard fault student)
                    (fun individual_error =>
                       log ERROR ("Failed to insert individual student "
                                  ++ Entry.github_username student ++ ": "
                                  ++ exn_msg individual_error)%string)) st).2
    = journal st ++ js /\
    Forall (fun e => exists r, r ∈ batch /\ e.1 = UpsertLeaderboard r) js.
Proof.
  induction batch as [|p t IH]; intros st.
  - exists []. cbn. split; [now rewrite app_nil_r | constructor].
  - cbn [for_each]. unfold mbind, M_bind.
    assert (Hstep : exists o st1,
               catch (upsert_leaderboard fault p)
                 (fun individual_error =>
                    log ERROR ("Failed to insert individual student "
                               ++ Entry.github_username p ++ ": "
                               ++ exn_msg individual_error)%string) st
               = (Ok tt, st1) /\
               journal st1 = journal st ++ [(UpsertLeaderboard p, o)]).
    { unfold catch, upsert_leaderboard, execute.
      destruct (fault _ _); [eexists _, _; split; reflexivity|].
      destruct (upsert_rows _ _ _ [p] _); eexists _, _; split; reflexivity. }
    destruct Hstep as (o & st1 & -> & Hj).
    destruct (IH st1) as (js & -> & Hjs).
    exists ((UpsertLeaderboard p, o) :: js). rewrite Hj, <- app_assoc.
    split; [reflexivity|]. constructor.
    + exists p. split; [left | reflexivity].
    + eapply Forall_impl; [exact Hjs|].
      intros e (r & Hr & He). exists r. split; [now right | exact He].
Qed.

Lemma write_batch_journal fault batch st :
  exists o js,
    journal (write_batch fault batch st).2
    = journal st ++ (InsertLeaderboard batch, o) :: js /\
    (o = None -> js = []) /\
    Forall (fun e => exists r, r ∈ batch /\ e.1 = UpsertLeaderboard r) js.
Proof.
  unfold write_batch, catch at 1.
  assert (Hins : exists r o st1,
             insert_leaderboard fault batch st = (r, st1) /\
             journal st1 = journal st ++ [(InsertLeaderboard batch, o)] /\
             (o = None -> exists u, r = Ok u)).
  { unfold insert_leaderboard, execute.
    destruct (fault _ _) as [e|].
    - exists (Raise e), (Some e). eexists.
      split; [reflexivity|]. split; [reflexivity | discriminate].
    - set (r := insert_rows Entry.github_username Entry.github_username write_entry
                  batch (admin_leaderboard (db st))).
      clearbody r. destruct r as [t|].
      + exists (Ok tt), None. eexists.
        split; [reflexivity|]. split; [reflexivity | eauto].
      + exists (Raise unique_violation), (Some unique_violation). eexists.
        split; [reflexivity|]. split; [reflexivity | discriminate]. }
  destruct Hins as (r & o & st1 & -> & Hj1 & Ho).
  destruct r as [[]|e].
  - exists o, []. cbn [snd]. rewrite Hj1.
    split; [reflexivity|]. split; [reflexivity | constructor].
  - erewrite bind_ok by (unfold log; reflexivity).
    destruct (upsert_loop_journal fault batch
                (mk_state (db st1) (journal st1)
                   (logs st1 ++ [Build_log_record ERROR
                      ("Failed to insert batch: " ++ exn_msg e)%string])))
      as (js & Hj & Hjs).
    exists o, js. cbn [db journal logs] in Hj. rewrite Hj, Hj1, <- app_assoc.
    split; [reflexivity|]. split; [|exact Hjs].
    intros Hn. destruct (Ho Hn) as [u Hu]. discriminate.
Qed.

(** *** Running the same upserts again *)

Lemma assignments_effect_shape max_retries data :
  exists (ok : bool) f e,
    (forall t, f (f t) = f t) /\
    forall s,
      assignments_effect max_retries data s
      = if ok
        then (Ok tt, mk_store (students s) (f (assignments s)) (grades s)
                       (admin_leaderboard s))
        else (Raise e, s).
Proof.
  unfold assignments_effect, upsert_effect, upsert_rows.
  destruct data as [|a t];
    [exists true, id, unique_violation; split; [reflexivity | now intros []]|].
  destruct (0 <? max_retries);
    [|exists true, id, unique_violation; split; [reflexivity | now intros []]].
  destruct (distinct_keys Assignment.name (map assignment_record (a :: t))) eqn:Ed.
  - eexists true, _, unique_violation. split; [|reflexivity].
    intros tbl. apply (upsert_all_again Assignment.name Assignment.name write_assignment);
      try reflexivity; auto.
    now apply distinct_keys_NoDup.
  - eexists false, id, _. split; [reflexivity|]. reflexivity.
Qed.

Lemma students_effect_shape max_retries data :
  exists (ok : bool) f e,
    (forall t, f (f t) = f t) /\
    forall s,
      students_effect max_retries data s
      = if ok
        then (Ok tt, mk_store (f (students s)) (assignments s) (grades s)
                       (admin_leaderboard s))
        else (Raise e, s).
Proof.
  unfold students_effect, upsert_effect, upsert_rows.
  destruct data as [|a t];
    [exists true, id, unique_violation; split; [reflexivity | now intros []]|].
  destruct (0 <? max_retries);
    [|exists true, id, unique_violation; split; [reflexivity | now intros []]].
  destruct (distinct_keys StudentRecord.github_username
              (map student_record (a :: t))) eqn:Ed.
  - eexists true, _, unique_violation. split; [|reflexivity].
    intros tbl.
    apply (upsert_all_again StudentRecord.github_username Student.github_username
             write_student);
      auto using write_student_key_old, write_student_again.
    now apply distinct_keys_NoDup.
  - eexists false, id, _. split; [reflexivity|]. reflexivity.
Qed.

Lemma grades_effect_shape max_retries grades_df :
  exists (ok : bool) f e,
    (forall t, f (f t) = f t) /\
    forall s,
      grades_effect max_retries grades_df s
      = if ok
        then (Ok tt, mk_store (students s) (assignments s) (f (grades s))
                       (admin_leaderboard s))
        else (Raise e, s).
Proof.
  unfold grades_effect, upsert_effect, upsert_rows.
  destruct grades_df as [|a t];
    [exists true, id, unique_violation; split; [reflexivity | now intros []]|].
  destruct (all_ok _) as [records|e];
    [|exists false, id, e; split; [reflexivity | reflexivity]].
  destruct (omap id records) as [|g gs];
    [exists true, id, unique_violation; split; [reflexivity | now intros []]|].
  destruct (0 <? max_retries);
    [|exists true, id, unique_violation; split; [reflexivity | now intros []]].
  destruct (distinct_keys grade_key (g :: gs)) eqn:Ed.
  - eexists true, _, unique_violation. split; [|reflexivity].
    intros tbl. apply (upsert_all_again grade_key grade_key write_grade);
      try reflexivity; auto.
    now apply distinct_keys_NoDup.
  - eexists false, id, _. split; [reflexivity|]. reflexivity.
Qed.

Lemma refresh_effect_again fromisoformat sts asg grs l :
  refresh_effect fromisoformat
    (refresh_effect fromisoformat (mk_store sts asg grs l)).2
  = refresh_effect fromisoformat (mk_store sts asg grs l).
Proof.
  unfold refresh_effect, refresh_effect_with.
  cbn [students]. destruct sts as [|s0 ss]; [reflexivity|].
  assert (Hd : forall l',
             leaderboard_data_of fromisoformat (mk_store (s0 :: ss) asg grs l')
             = leaderboard_data_of fromisoformat (mk_store (s0 :: ss) asg grs l))
    by reflexivity.
  destruct (leaderboard_data_of fromisoformat (mk_store (s0 :: ss) asg grs l))
    as [data|e].
  - unfold set_leaderboard. cbn [snd students assignments grades admin_leaderboard].
    now rewrite Hd.
  - cbn [snd students]. now rewrite Hd.
Qed.

(** The four writes, run a second time on the store they left, give the
    same outcome and leave the store as it is. *)
Lemma sync_effect_again fromisoformat max_retries acc consolidated_df s :
  sync_effect fromisoformat max_retries acc consolidated_df
    (sync_effect fromisoformat max_retries acc consolidated_df s).2
  = sync_effect fromisoformat max_retries acc consolidated_df s.
Proof.
  destruct (assignments_effect_shape max_retries (assignment_info acc))
    as (okA & fA & eA & HfA & HA).
  destruct (students_effect_shape max_retries
              (map snd (students_with_repo_info acc)))
    as (okS & fS & eS & HfS & HS).
  destruct (grades_effect_shape max_retries consolidated_df)
    as (okG & fG & eG & HfG & HG).
  destruct s as [sts asg grs l].
  unfold sync_effect, and_then.
  rewrite ?HA. destruct okA; cbn [fst snd students assignments grades admin_leaderboard];
    [|now rewrite ?HA].
  rewrite ?HS. destruct okS; cbn [fst snd students assignments grades admin_leaderboard];
    [|rewrite ?HA, ?HS; cbn [fst snd students assignments grades admin_leaderboard];
      now rewrite ?HfA].
  rewrite ?HG. destruct okG; cbn [fst snd students assignments grades admin_leaderboard];
    [|rewrite ?HA, ?HS, ?HG; cbn [fst snd students assignments grades admin_leaderboard];
      now rewrite ?HfA, ?HfS].
  pose proof (refresh_effect_again fromisoformat (fS sts) (fA asg) (fG grs) l) as HR.
  destruct (refresh_effect fromisoformat (mk_store (fS sts) (fA asg) (fG grs) l))
    as [[[]|e] [sts' asg' grs' l']] eqn:ER.
  - cbn [snd] in *.
    assert (Hsame : sts' = fS sts /\ asg' = fA asg /\ grs' = fG grs).
    { unfold refresh_effect, refresh_effect_with in ER. cbn [students] in ER.
      destruct (fS sts); [now injection ER as <- <- <- <-|].
      destruct (leaderboard_data_of _ _); [|discriminate].
      now injection ER as <- <- <- <-. }
    destruct Hsame as (-> & -> & ->).
    rewrite ?HA, ?HS, ?HG. cbn [fst snd students assignments grades admin_leaderboard].
    rewrite ?HA, ?HS, ?HG. cbn [fst snd students assignments grades admin_leaderboard].
    rewrite ?HfA, ?HfS, ?HfG. exact HR.
  - cbn [snd] in *.
    assert (Hsame : sts' = fS sts /\ asg' = fA asg /\ grs' = fG grs).
    { unfold refresh_effect, refresh_effect_with in ER. cbn [students] in ER.
      destruct (fS sts); [discriminate|].
      destruct (leaderboard_data_of _ _); [discriminate|].
      now injection ER as _ <- <- <- <-. }
    destruct Hsame as (-> & -> & ->).
    rewrite ?HA, ?HS, ?HG. cbn [fst snd students assignments grades admin_leaderboard].
    rewrite ?HA, ?HS, ?HG. cbn [fst snd students assignments grades admin_leaderboard].
    rewrite ?HfA, ?HfS, ?HfG. exact HR.
Qed.

(** *** The whole sync *)

Section WholeSync.
Variable fault : nat -> call -> option exn.
Variable fromisoformat : string -> option datetime.
Variable get_repository_info : url_cell -> option RepoInfo.t.
Variable download_grades_to_dataframe : string -> option (list Row.t).
Variable max_retries : Z.

Lemma respects_process_assignments_in_memory assignment_data :
  respects unique_keys
    (process_assignments_in_memory fault fromisoformat get_repository_info
       download_grades_to_dataframe max_retries assignment_data).
Proof.
  unfold process_assignments_in_memory.
  destruct (process_assignments_only_logs fromisoformat get_repository_info
              download_grades_to_dataframe assignment_data (mk_working_set [] [] []))
    as [acc Hacc].
  apply respects_bind; [eapply respects_only_logs, Hacc | intros acc'].
  destruct (all_grades acc').
  - apply respects_bind; [apply respects_log | intros _; apply respects_ret].
  - apply respects_bind; [|intros _; apply respects_ret].
    apply respects_catch; [apply respects_sync_to_supabase | intros e].
    destruct (exn_cls e); try apply respects_raise.
    apply respects_bind; [apply respects_log | intros _; apply respects_raise].
Qed.

Hypothesis answered : forall n c, fault n c = None.

Lemma sync_to_supabase_follows acc consolidated_df :
  follows (sync_to_supabase fault fromisoformat max_retries acc consolidated_df)
          (sync_effect fromisoformat max_retries acc consolidated_df).
Proof.
  unfold sync_to_supabase, sync_effect.
  apply follows_and_then;
    [apply sync_assignments_follows; intros rows n; apply answered|].
  apply follows_and_then;
    [apply sync_students_follows; intros rows n; apply answered|].
  apply follows_and_then;
    [apply sync_grades_follows; intros rows n; apply answered|].
  apply (refresh_follows fault fromisoformat) with (clears := true);
    intros; intros n; apply answered.
Qed.

Lemma process_assignments_in_memory_follows assignment_data :
  exists acc,
    follows (process_assignments_in_memory fault fromisoformat get_repository_info
               download_grades_to_dataframe max_retries assignment_data)
            (in_memory_effect fromisoformat max_retries acc).
Proof.
  destruct (process_assignments_only_logs fromisoformat get_repository_info
              download_grades_to_dataframe assignment_data (mk_working_set [] [] []))
    as [acc Hacc].
  exists acc. intros st. unfold process_assignments_in_memory, in_memory_effect.
  destruct (Hacc st) as [l1 H1]. rewrite (bind_ok _ _ _ _ _ H1).
  destruct (all_grades acc) as [|g gs] eqn:Eg.
  - exists [], (l1 ++ [Build_log_record WARNING
                         "No grades data found for any assignments"]).
    cbn. now rewrite app_nil_r, app_assoc.
  - set (df := concat (g :: gs)).
    destruct (sync_to_supabase_follows acc df
                (mk_state (db st) (journal st) (logs st ++ l1)))
      as (j & l & Hsync).
    cbn [db journal logs] in Hsync.
    destruct (sync_effect fromisoformat max_retries acc df (db st))
      as [[[]|e] s'].
    + cbn [fst snd] in Hsync.
      rewrite (bind_ok _ _ _ _ _ (catch_ok _ _ _ _ _ Hsync)).
      exists j, (l1 ++ l). cbn. now rewrite app_assoc.
    + cbn [fst snd] in Hsync.
      assert (Hh : exists l2,
                 catch (sync_to_supabase fault fromisoformat max_retries acc df)
                   (fun e0 =>
                      match exn_cls e0 with
                      | SupabaseSyncError =>
                          log ERROR ("Failed to sync data to Supabase: "
                                     ++ exn_msg e0)%string ;;
                          raise e0
                      | _ => raise e0
                      end)
                   (mk_state (db st) (journal st) (logs st ++ l1))
                 = (Raise e,
                    mk_state s' (journal st ++ j) (((logs st ++ l1) ++ l) ++ l2))).
      { rewrite (catch_raise _ _ _ _ _ Hsync).
        destruct (exn_cls e);
          try (exists []; unfold raise; now rewrite app_nil_r).
        eexists [_]. reflexivity. }
      destruct Hh as [l2 Hh].
      rewrite (bind_raise _ _ _ _ _ Hh).
      exists j, (l1 ++ l ++ l2). cbn. now rewrite !app_assoc.
Qed.

(** The sync run a second time, from the state the first run left and on
    the same extracts, ends as the first did and leaves the store as it
    is. *)
Lemma process_assignments_in_memory_again assignment_data st :
  let run :=
    process_assignments_in_memory fault fromisoformat get_repository_info
      download_grades_to_dataframe max_retries assignment_data in
  (run (run st).2).1 = (run st).1 /\ db (run (run st).2).2 = db (run st).2.
Proof.
  intros run.
  destruct (process_assignments_in_memory_follows assignment_data) as [acc Hf].
  fold run in Hf.
  destruct (Hf st) as (j1 & l1 & H1).
  destruct (Hf (run st).2) as (j2 & l2 & H2).
  rewrite H2. rewrite H1. cbn [fst snd db].
  assert (Hagain : in_memory_effect fromisoformat max_retries acc
                     (in_memory_effect fromisoformat max_retries acc (db st)).2
                   = in_memory_effect fromisoformat max_retries acc (db st)).
  { unfold in_memory_effect. destruct (all_grades acc); [reflexivity|].
    pose proof (sync_effect_again fromisoformat max_retries acc
                  (concat (l :: l0)) (db st)) as Hs.
    destruct (sync_effect fromisoformat max_retries acc (concat (l :: l0)) (db st))
      as [[[]|e] s'] eqn:E1; cbn [snd] in Hs |- *; now rewrite Hs. }
  now rewrite Hagain.
Qed.

End WholeSync.

(** Claim C2, as amended.  The syncs of the students, the assignments
    and the grades send upserts only.  The leaderboard is written batch
    by batch with a plain insert; the upsert of a row, keyed by the
    username, is sent only after the insert of its batch has failed.  No
    run leaves two rows with one key in a table.  When the store answers
    every request, the sync run again on the same extracts ends as the
    first run did and leaves the store exactly as the first run left
    it. *)
Theorem C2_upserts_and_rerun (fault : nat -> call -> option exn)
    (fromisoformat : string -> option datetime)
    (get_repository_info : url_cell -> option RepoInfo.t)
    (download_grades_to_dataframe : string -> option (list Row.t))
    (max_retries : Z) (assignment_data : list (string * string * string)) :
  let run :=
    process_assignments_in_memory fault fromisoformat get_repository_info
      download_grades_to_dataframe max_retries assignment_data in
  (forall students_data,
      sends is_upsert (sync_students_to_supabase fault max_retries students_data)) /\
  (forall assignments_data,
      sends is_upsert
        (sync_assignments_to_supabase fault max_retries assignments_data)) /\
  (forall grades_df,
      sends is_upsert (sync_grades_to_supabase fault max_retries grades_df)) /\
  (forall batch st,
      exists o js,
        journal (write_batch fault batch st).2
        = journal st ++ (InsertLeaderboard batch, o) :: js /\
        (o = None -> js = []) /\
        Forall (fun e => exists r, r ∈ batch /\ e.1 = UpsertLeaderboard r) js) /\
  respects unique_keys run /\
  ((forall n c, fault n c = None) ->
   forall st,
     (run (run st).2).1 = (run st).1 /\ db (run (run st).2).2 = db (run st).2).
Proof.
  intros run.
  split; [apply sends_sync_students|].
  split; [apply sends_sync_assignments|].
  split; [apply sends_sync_grades|].
  split; [apply write_batch_journal|].
  split; [apply respects_process_assignments_in_memory|].
  intros Hfault st. now apply process_assignments_in_memory_again.
Qed.

(** The re-run theorem at the classroom of alice and bob, from an empty
    store: the second sync leaves the four tables as the first did. *)
Lemma C2_upserts_and_rerun_witness :
  let run :=
    process_assignments_in_memory no_fault fromisoformat_reader
      class_repositories class_extract 3 class_assignments in
  db (run (run (initial empty_store)).2).2 = db (run (initial empty_store)).2.
Proof.
  intros run.
  destruct (C2_upserts_and_rerun no_fault fromisoformat_reader class_repositories
              class_extract 3 class_assignments)
    as (_ & _ & _ & _ & _ & Hagain).
  apply (Hagain (fun n c => eq_refl) (initial empty_store)).
Defined.

(** Claim C2 as stated fails: the leaderboard write is a plain insert.
    The refresh of a store with one student sends, after its three
    queries and the clear, an [insert] of the batch, which is not an
    upsert. *)
Lemma C2_plain_insert_counterexample :
  let row := Entry.mk "alice" None None None None 0 0 0 0 (Some 1) in
  journal (refresh_admin_leaderboard no_fault fromisoformat_reader
             (initial grades_of_a_stranger)).2
  = [ (SelectStudents, None); (SelectGrades, None); (SelectAssignments, None);
      (DeleteLeaderboard, None); (InsertLeaderboard [row], None) ] /\
  ~ is_upsert (InsertLeaderboard [row]).
Proof. split; [vm_compute; reflexivity | intros H; exact H]. Qed.

(** Claim C1 as stated fails: the sentinel is 999999, not a value larger
    than any resolution time.  A fork created in 1900 and last updated
    in 2024 has a resolution time of 1086960 hours, and its student is
    ranked after the student who has none. *)
Lemma C1_sentinel_counterexample :
  map (fun e => (Entry.github_username e, Entry.resolution_time_hours e,
                 Entry.ranking_position e))
    (admin_leaderboard
       (db (refresh_admin_leaderboard no_fault fromisoformat_reader
              (initial old_fork_store)).2))
  = [("newcomer", None, Some 1); ("veteran", Some 1086960, Some 2)].
Proof. vm_compute. reflexivity. Qed.

(** * Lemmas on the GitHub side and the whole run *)

(** ** Texts *)

Lemma string_app_cons c (t s : string) :
  (String c t ++ s)%string = String c (t ++ s).
Proof. reflexivity. Qed.

Lemma string_app_nil_l (s : string) : ("" ++ s)%string = s.
Proof. reflexivity. Qed.

Lemma string_app_nil_r (s : string) : (s ++ "")%string = s.
Proof.
  induction s as [|c t IH]; [reflexivity | now rewrite string_app_cons, IH].
Qed.

Lemma string_app_assoc (a b c : string) :
  ((a ++ b) ++ c)%string = (a ++ (b ++ c))%string.
Proof.
  induction a as [|x t IH]; [reflexivity | now rewrite !string_app_cons, IH].
Qed.

Lemma string_rev_onto_app (s acc : string) :
  string_rev_onto acc s = (string_rev s ++ acc)%string.
Proof.
  unfold string_rev. revert acc.
  induction s as [|c t IH]; intros acc; cbn; [reflexivity|].
  rewrite (IH (String c acc)), (IH (String c "")), string_app_assoc. reflexivity.
Qed.

Lemma string_rev_cons c (s : string) :
  string_rev (String c s) = (string_rev s ++ String c "")%string.
Proof. unfold string_rev at 1. cbn. apply string_rev_onto_app. Qed.

Lemma string_rev_app (a b : string) :
  string_rev (a ++ b) = (string_rev b ++ string_rev a)%string.
Proof.
  induction a as [|c t IH].
  - now rewrite string_app_nil_l, string_app_nil_r.
  - now rewrite string_app_cons, !string_rev_cons, IH, string_app_assoc.
Qed.

Lemma string_rev_involutive (s : string) : string_rev (string_rev s) = s.
Proof.
  induction s as [|c t IH]; [reflexivity|].
  now rewrite string_rev_cons, string_rev_app, IH.
Qed.

Lemma string_forall_app p (a b : string) :
  string_forall p (a ++ b) = string_forall p a && string_forall p b.
Proof.
  induction a as [|c t IH]; [reflexivity|].
  rewrite string_app_cons. cbn. now rewrite IH, andb_assoc.
Qed.

Lemma string_exists_app p (a b : string) :
  string_exists p (a ++ b) = string_exists p a || string_exists p b.
Proof.
  induction a as [|c t IH]; [reflexivity|].
  rewrite string_app_cons. cbn. now rewrite IH, orb_assoc.
Qed.

Lemma string_forall_rev p (s : string) :
  string_forall p (string_rev s) = string_forall p s.
Proof.
  induction s as [|c t IH]; [reflexivity|].
  rewrite string_rev_cons, string_forall_app, IH. cbn.
  now rewrite andb_true_r, andb_comm.
Qed.

Lemma string_forall_impl (p q : ascii -> bool) (s : string) :
  (forall c, p c = true -> q c = true) ->
  string_forall p s = true -> string_forall q s = true.
Proof.
  intros Hpq. induction s as [|c t IH]; cbn; [reflexivity|].
  intros [Hc Ht]%andb_prop. now rewrite (Hpq c Hc), IH.
Qed.

Lemma string_exists_forall p (s : string) :
  string_exists p s = negb (string_forall (fun c => negb (p c)) s).
Proof.
  induction s as [|c t IH]; cbn; [reflexivity|].
  rewrite IH. now destruct (p c).
Qed.

Lemma last_char_app_cons (a : string) c (b : string) :
  last_char (a ++ String c b) = last_char (String c b).
Proof.
  induction a as [|x t IH]; [reflexivity|].
  rewrite string_app_cons.
  destruct (t ++ String c b)%string as [|y u] eqn:E; [destruct t; discriminate|].
  exact IH.
Qed.

Lemma last_char_rev (s : string) : last_char (string_rev s) = first_char s.
Proof.
  destruct s as [|c t]; [reflexivity|].
  now rewrite string_rev_cons, last_char_app_cons.
Qed.

Lemma first_char_rev (s : string) : first_char (string_rev s) = last_char s.
Proof. now rewrite <- (string_rev_involutive s) at 2; rewrite last_char_rev. Qed.

Lemma lstrip_kept drop (s : string) : kept_first drop s -> lstrip drop s = s.
Proof.
  destruct s as [|c t]; [reflexivity|]. intros H. cbn. now rewrite (H c eq_refl).
Qed.

Lemma lstrip_app drop (a r : string) :
  string_forall drop a = true -> lstrip drop (a ++ r) = lstrip drop r.
Proof.
  induction a as [|c t IH]; [reflexivity|]. cbn [string_forall].
  intros [Hc Ht]%andb_prop. rewrite string_app_cons. cbn [lstrip].
  rewrite Hc. now apply IH.
Qed.

Lemma lstrip_all drop (a : string) : string_forall drop a = true -> lstrip drop a = "".
Proof.
  intros H. rewrite <- (string_app_nil_r a). now rewrite lstrip_app.
Qed.

Lemma lstrip_spec drop (s : string) :
  exists a, s = (a ++ lstrip drop s)%string /\ string_forall drop a = true /\
            kept_first drop (lstrip drop s).
Proof.
  induction s as [|c t (a & Ha & Hall & Hk)].
  - exists "". repeat split. intros c H. discriminate.
  - cbn [lstrip]. destruct (drop c) eqn:Hc.
    + exists (String c a). rewrite string_app_cons, <- Ha. cbn. rewrite Hc, Hall.
      repeat split. exact Hk.
    + exists "". repeat split. intros c' H. injection H as <-. exact Hc.
Qed.

(** [strip] removes exactly the dropped characters at the two ends. *)
Lemma strip_chars_unique drop (a r b : string) :
  string_forall drop a = true -> string_forall drop b = true ->
  kept_first drop r -> kept_last drop r ->
  strip_chars drop (a ++ r ++ b) = r.
Proof.
  intros Ha Hb Hf Hl. unfold strip_chars.
  rewrite lstrip_app by exact Ha.
  destruct r as [|c t].
  - rewrite string_app_nil_l, (lstrip_all drop b Hb). reflexivity.
  - rewrite (lstrip_kept drop (String c t ++ b)) by (intros x H; apply Hf; exact H).
    rewrite string_rev_app, lstrip_app by now rewrite string_forall_rev.
    rewrite lstrip_kept; [apply string_rev_involutive|].
    intros x H. apply Hl. now rewrite <- first_char_rev.
Qed.

Lemma strip_chars_spec drop (s : string) :
  exists a b,
    s = (a ++ strip_chars drop s ++ b)%string /\
    string_forall drop a = true /\ string_forall drop b = true /\
    kept_first drop (strip_chars drop s) /\ kept_last drop (strip_chars drop s).
Proof.
  destruct (lstrip_spec drop s) as (a & Ha & Hall & Hk).
  destruct (lstrip_spec drop (string_rev (lstrip drop s))) as (b & Hb & Hbll & Hkb).
  fold (strip_chars drop s) in *.
  set (t := lstrip drop (string_rev (lstrip drop s))) in *.
  assert (Hs : strip_chars drop s = string_rev t) by reflexivity.
  assert (Hl : lstrip drop s = (string_rev t ++ string_rev b)%string).
  { rewrite <- string_rev_app, <- Hb. now rewrite string_rev_involutive. }
  exists a, (string_rev b). rewrite Hs, <- Hl. split; [exact Ha|].
  split; [exact Hall|]. split; [now rewrite string_forall_rev|]. split.
  - intros c Hc. destruct (string_rev t) as [|x u] eqn:Et; [discriminate|].
    apply Hk. rewrite Hl. exact Hc.
  - intros c Hc. apply Hkb. now rewrite <- last_char_rev.
Qed.

Lemma strip_chars_kept drop (s : string) :
  kept_first drop s -> kept_last drop s -> strip_chars drop s = s.
Proof.
  intros Hf Hl.
  pose proof (strip_chars_unique drop "" s "" eq_refl eq_refl Hf Hl) as H.
  now rewrite string_app_nil_l, string_app_nil_r in H.
Qed.

Lemma strip_chars_idempotent drop (s : string) :
  strip_chars drop (strip_chars drop s) = strip_chars drop s.
Proof.
  destruct (strip_chars_spec drop s) as (a & b & _ & _ & _ & Hf & Hl).
  rewrite <- (string_app_nil_r (strip_chars drop s)) at 1.
  now apply (strip_chars_unique drop "" (strip_chars drop s) "").
Qed.

(** ** Slugs *)

Lemma slug_alphabet_slug_char c : slug_alphabet c = true -> slug_char c = true.
Proof.
  unfold slug_alphabet, slug_char.
  destruct (is_lower c), (is_digit c), (is_space c), (Ascii.eqb c hyphen); auto.
Qed.

Lemma ascii_eqb_hyphen c : Ascii.eqb c hyphen = true -> c = hyphen.
Proof. apply Ascii.eqb_eq. Qed.

Lemma slug_alphabet_not_space c : slug_alphabet c = true -> is_space c = false.
Proof.
  unfold slug_alphabet. intros H.
  destruct (Ascii.eqb c hyphen) eqn:E; [now apply ascii_eqb_hyphen in E as ->|].
  rewrite orb_false_r in H. revert H. unfold is_lower, is_digit, is_space.
  generalize (Z.of_nat (nat_of_ascii c)). intros n H.
  apply orb_prop in H. apply orb_false_intro; apply andb_false_iff; lia.
Qed.

Lemma slug_alphabet_not_upper c : slug_alphabet c = true -> is_upper c = false.
Proof.
  unfold slug_alphabet. intros H.
  destruct (Ascii.eqb c hyphen) eqn:E; [now apply ascii_eqb_hyphen in E as ->|].
  rewrite orb_false_r in H. revert H. unfold is_lower, is_digit, is_upper.
  generalize (Z.of_nat (nat_of_ascii c)). intros n H.
  apply orb_prop in H. apply andb_false_iff. lia.
Qed.

Lemma nat_of_lower_char c :
  is_upper c = true -> nat_of_ascii (lower_char c) = (nat_of_ascii c + 32)%nat.
Proof.
  intros H. unfold lower_char. rewrite H.
  apply nat_ascii_embedding. unfold is_upper in H. lia.
Qed.

Lemma letter_or_digit_lower_char c : letter_or_digit (lower_char c) = is_alnum c.
Proof.
  unfold letter_or_digit, is_alnum.
  destruct (is_upper c) eqn:Hu.
  - unfold is_lower at 1, is_digit at 1. rewrite (nat_of_lower_char c Hu).
    unfold is_upper in Hu. unfold is_lower, is_digit, is_upper.
    revert Hu. generalize (nat_of_ascii c). intros n Hu.
    apply eq_true_iff_eq. rewrite !orb_true_iff, !andb_true_iff.
    apply andb_prop in Hu as [H1%Z.leb_le H2%Z.leb_le].
    split; [intros _; left; right; reflexivity|].
    intros _; left; split; apply Z.leb_le; lia.
  - unfold lower_char. rewrite Hu. now rewrite orb_false_r.
Qed.

Lemma letter_or_digit_slug_alphabet c :
  letter_or_digit c = true -> slug_alphabet c = true.
Proof. unfold letter_or_digit, slug_alphabet. intros ->. reflexivity. Qed.

Lemma letter_or_digit_not_hyphen c :
  letter_or_digit c = true -> Ascii.eqb c hyphen = false.
Proof.
  intros H. destruct (Ascii.eqb c hyphen) eqn:E; [|reflexivity].
  apply ascii_eqb_hyphen in E as ->. discriminate.
Qed.

Lemma string_exists_lower (s : string) :
  string_exists letter_or_digit (lower s) = string_exists is_alnum s.
Proof.
  induction s as [|c t IH]; [reflexivity|]. cbn.
  now rewrite IH, letter_or_digit_lower_char.
Qed.

Lemma string_forall_filter p (s : string) :
  string_forall p (string_filter p s) = true.
Proof.
  induction s as [|c t IH]; [reflexivity|]. cbn.
  destruct (p c) eqn:E; [cbn; now rewrite E|exact IH].
Qed.

Lemma string_exists_filter (p q : ascii -> bool) (s : string) :
  (forall c, q c = true -> p c = true) ->
  string_exists q (string_filter p s) = string_exists q s.
Proof.
  intros Hqp. induction s as [|c t IH]; [reflexivity|]. cbn.
  destruct (p c) eqn:E; cbn; rewrite IH; [reflexivity|].
  destruct (q c) eqn:Eq; [|reflexivity]. rewrite (Hqp c Eq) in E. discriminate.
Qed.

Lemma string_filter_all p (s : string) :
  string_forall p s = true -> string_filter p s = s.
Proof.
  induction s as [|c t IH]; [reflexivity|]. cbn.
  intros [Hc Ht]%andb_prop. now rewrite Hc, IH.
Qed.

Lemma lower_fixed (s : string) :
  string_forall (fun c => negb (is_upper c)) s = true -> lower s = s.
Proof.
  induction s as [|c t IH]; [reflexivity|]. cbn.
  intros [Hc Ht]%andb_prop. unfold lower_char.
  apply negb_true_iff in Hc. now rewrite Hc, IH.
Qed.

(** The pass that turns whitespace into hyphens. *)
Lemma sub_spaces_alphabet (s : string) : forall in_run,
  string_forall slug_char s = true ->
  string_forall slug_alphabet (sub_spaces in_run s) = true.
Proof.
  induction s as [|c t IH]; intros in_run; [reflexivity|]. cbn.
  intros [Hc Ht]%andb_prop.
  destruct (is_space c) eqn:Es.
  - destruct in_run; [now apply IH|]. cbn. now apply IH.
  - cbn. rewrite (IH false Ht), andb_true_r.
    unfold slug_char in Hc. unfold slug_alphabet. rewrite Es in Hc.
    now rewrite orb_false_r in Hc.
Qed.

Lemma sub_spaces_exists (s : string) : forall in_run,
  string_exists letter_or_digit (sub_spaces in_run s)
  = string_exists letter_or_digit s.
Proof.
  induction s as [|c t IH]; intros in_run; [reflexivity|]. cbn.
  destruct (is_space c) eqn:Es.
  - assert (letter_or_digit c = false) as ->.
    { destruct (letter_or_digit c) eqn:E; [|reflexivity].
      apply letter_or_digit_slug_alphabet, slug_alphabet_not_space in E. congruence. }
    destruct in_run; cbn; apply IH.
  - cbn. now rewrite IH.
Qed.

Lemma sub_spaces_fixed (s : string) : forall in_run,
  string_forall (fun c => negb (is_space c)) s = true -> sub_spaces in_run s = s.
Proof.
  induction s as [|c t IH]; intros in_run; [reflexivity|]. cbn.
  intros [Hc Ht]%andb_prop. apply negb_true_iff in Hc. now rewrite Hc, IH.
Qed.

(** The pass that merges hyphens. *)
Lemma sub_hyphens_forall p (s : string) : forall in_run,
  string_forall p s = true -> string_forall p (sub_hyphens in_run s) = true.
Proof.
  induction s as [|c t IH]; intros in_run; [reflexivity|]. cbn.
  intros [Hc Ht]%andb_prop.
  destruct (Ascii.eqb c hyphen) eqn:E.
  - destruct in_run; [now apply IH|]. cbn.
    apply ascii_eqb_hyphen in E as ->. now rewrite Hc, IH.
  - cbn. now rewrite Hc, IH.
Qed.

Lemma sub_hyphens_exists (s : string) : forall in_run,
  string_exists letter_or_digit (sub_hyphens in_run s)
  = string_exists letter_or_digit s.
Proof.
  induction s as [|c t IH]; intros in_run; [reflexivity|]. cbn.
  destruct (Ascii.eqb c hyphen) eqn:E.
  - assert (letter_or_digit c = false) as ->.
    { destruct (letter_or_digit c) eqn:El; [|reflexivity].
      apply letter_or_digit_not_hyphen in El. congruence. }
    destruct in_run; cbn; apply IH.
  - cbn. now rewrite IH.
Qed.

Lemma no_run_cons c a b (t : string) :
  no_run c (String a (String b t))
  = negb (Ascii.eqb a c && Ascii.eqb b c) && no_run c (String b t).
Proof. reflexivity. Qed.

Lemma sub_hyphens_no_run (s : string) : forall in_run,
  no_run hyphen (sub_hyphens in_run s) = true /\
  (in_run = true -> kept_first (fun c => Ascii.eqb c hyphen) (sub_hyphens in_run s)).
Proof.
  induction s as [|c t IH]; intros in_run.
  - split; [reflexivity|]. intros _ c H. discriminate.
  - cbn [sub_hyphens]. destruct (Ascii.eqb c hyphen) eqn:E.
    + destruct in_run; [apply IH|].
      split; [|discriminate].
      destruct (IH true) as [Hn Hk].
      destruct (sub_hyphens true t) as [|d u] eqn:Eu; [reflexivity|].
      rewrite no_run_cons, Hn, andb_true_r.
      rewrite (Hk eq_refl d eq_refl). now rewrite andb_false_r.
    + destruct (IH false) as [Hn _]. split.
      * destruct (sub_hyphens false t) as [|d u] eqn:Eu; [reflexivity|].
        now rewrite no_run_cons, Hn, E.
      * intros _ x H. injection H as <-. exact E.
Qed.

Lemma sub_hyphens_fixed (s : string) : forall in_run,
  no_run hyphen s = true ->
  (in_run = true -> kept_first (fun c => Ascii.eqb c hyphen) s) ->
  sub_hyphens in_run s = s.
Proof.
  induction s as [|c t IH]; intros in_run Hn Hk; [reflexivity|].
  assert (Ht : no_run hyphen t = true).
  { destruct t as [|d u]; [reflexivity|]. rewrite no_run_cons in Hn.
    now apply andb_prop in Hn. }
  cbn [sub_hyphens]. destruct (Ascii.eqb c hyphen) eqn:E.
  - destruct in_run; [rewrite (Hk eq_refl c eq_refl) in E; discriminate|].
    f_equal; [symmetry; now apply ascii_eqb_hyphen|]. apply IH; [exact Ht|].
    intros _ d Hd. destruct t as [|d' u]; [discriminate|]. injection Hd as <-.
    rewrite no_run_cons in Hn. apply andb_prop in Hn as [Hn _].
    rewrite E in Hn. cbn in Hn. now apply negb_true_iff in Hn.
  - f_equal. apply IH; [exact Ht|discriminate].
Qed.

Lemma no_run_app_r c (a b : string) : no_run c (a ++ b) = true -> no_run c b = true.
Proof.
  induction a as [|x t IH]; [auto|]. rewrite string_app_cons.
  destruct (t ++ b)%string as [|y u] eqn:E.
  - destruct t; [|discriminate]. rewrite string_app_nil_l in E. now rewrite E.
  - rewrite no_run_cons. intros [_ H]%andb_prop. auto.
Qed.

Lemma no_run_app_l c (a b : string) : no_run c (a ++ b) = true -> no_run c a = true.
Proof.
  induction a as [|x t IH]; [auto|]. rewrite string_app_cons.
  destruct t as [|y u]; [reflexivity|].
  rewrite string_app_cons, !no_run_cons, <- string_app_cons.
  intros [H1 H2]%andb_prop. now rewrite H1, IH.
Qed.

Lemma kept_first_hyphen (s : string) :
  kept_first (Ascii.eqb hyphen) s <-> first_char s <> Some hyphen.
Proof.
  unfold kept_first. split.
  - intros H E. specialize (H hyphen E). discriminate.
  - intros H c E. destruct (Ascii.eqb hyphen c) eqn:Ec; [|reflexivity].
    apply Ascii.eqb_eq in Ec as <-. contradiction.
Qed.

Lemma kept_last_hyphen (s : string) :
  kept_last (Ascii.eqb hyphen) s <-> last_char s <> Some hyphen.
Proof.
  unfold kept_last. split.
  - intros H E. specialize (H hyphen E). discriminate.
  - intros H c E. destruct (Ascii.eqb hyphen c) eqn:Ec; [|reflexivity].
    apply Ascii.eqb_eq in Ec as <-. contradiction.
Qed.

Lemma format_assignment_name_value name :
  name <> "" ->
  format_assignment_name name
  = Ok (strip_chars (Ascii.eqb hyphen)
          (sub_hyphens false
             (sub_spaces false (string_filter slug_char (lower name))))).
Proof.
  intros H. unfold format_assignment_name.
  destruct (String.eqb name "") eqn:E; [|reflexivity].
  now apply String.eqb_eq in E.
Qed.

Lemma format_assignment_name_empty :
  format_assignment_name ""
  = Raise (Exn DataValidationError "Assignment name must be a non-empty string").
Proof. reflexivity. Qed.

(** The shape of every slug. *)
Lemma slug_shape name slug :
  format_assignment_name name = Ok slug ->
  string_forall slug_alphabet slug = true /\
  kept_first (Ascii.eqb hyphen) slug /\ kept_last (Ascii.eqb hyphen) slug /\
  no_run hyphen slug = true.
Proof.
  destruct (String.eqb name "") eqn:E0.
  { apply String.eqb_eq in E0 as ->. discriminate. }
  apply String.eqb_neq in E0.
  rewrite (format_assignment_name_value name E0). intros [= <-].
  set (s := sub_hyphens false _).
  assert (Ha : string_forall slug_alphabet s = true).
  { apply sub_hyphens_forall, sub_spaces_alphabet, string_forall_filter. }
  assert (Hn : no_run hyphen s = true) by apply sub_hyphens_no_run.
  destruct (strip_chars_spec (Ascii.eqb hyphen) s) as (a & b & Hs & _ & _ & Hf & Hl).
  rewrite Hs in Ha, Hn.
  rewrite !string_forall_app in Ha.
  apply andb_prop in Ha as [_ [Ha _]%andb_prop].
  apply no_run_app_r, no_run_app_l in Hn. auto.
Qed.

(** A text of that shape is its own slug. *)
Lemma slug_fixed (s : string) :
  s <> "" ->
  string_forall slug_alphabet s = true ->
  kept_first (Ascii.eqb hyphen) s -> kept_last (Ascii.eqb hyphen) s ->
  no_run hyphen s = true ->
  format_assignment_name s = Ok s.
Proof.
  intros H0 Ha Hf Hl Hn. rewrite (format_assignment_name_value s H0).
  rewrite lower_fixed.
  2:{ eapply string_forall_impl; [|exact Ha].
      intros c Hc. now rewrite (slug_alphabet_not_upper c Hc). }
  rewrite string_filter_all
    by (eapply string_forall_impl; [apply slug_alphabet_slug_char | exact Ha]).
  rewrite sub_spaces_fixed.
  2:{ eapply string_forall_impl; [|exact Ha].
      intros c Hc. now rewrite (slug_alphabet_not_space c Hc). }
  rewrite sub_hyphens_fixed by (auto; discriminate).
  now rewrite strip_chars_kept.
Qed.

Lemma strip_chars_exists drop q (s : string) :
  (forall c, q c = true -> drop c = false) ->
  string_exists q (strip_chars drop s) = string_exists q s.
Proof.
  intros Hq.
  assert (Hall : forall a, string_forall drop a = true -> string_exists q a = false).
  { induction a as [|c t IH]; [reflexivity|]. cbn.
    intros [Hc Ht]%andb_prop. rewrite (IH Ht), orb_false_r.
    destruct (q c) eqn:E; [|reflexivity]. rewrite (Hq c E) in Hc. discriminate. }
  destruct (strip_chars_spec drop s) as (a & b & Hs & Ha & Hb & _).
  rewrite Hs at 2. rewrite !string_exists_app, (Hall a Ha), (Hall b Hb).
  now rewrite orb_false_r.
Qed.

(** A slug is empty exactly when the name has no letter and no digit. *)
Lemma slug_empty name slug :
  format_assignment_name name = Ok slug ->
  (slug = "" <-> string_exists is_alnum name = false).
Proof.
  intros H. pose proof (slug_shape name slug H) as (Ha & Hf & _).
  destruct (String.eqb name "") eqn:E0.
  { apply String.eqb_eq in E0 as ->. discriminate. }
  apply String.eqb_neq in E0.
  rewrite (format_assignment_name_value name E0) in H. injection H as H.
  assert (He : string_exists letter_or_digit slug = string_exists is_alnum name).
  { rewrite <- H, strip_chars_exists, sub_hyphens_exists, sub_spaces_exists,
      string_exists_filter, string_exists_lower; [reflexivity | |].
    - intros c Hc. now apply slug_alphabet_slug_char, letter_or_digit_slug_alphabet.
    - intros c Hc. rewrite Ascii.eqb_sym. now apply letter_or_digit_not_hyphen. }
  rewrite <- He. split; [now intros ->|].
  destruct slug as [|c t]; [reflexivity|]. cbn. intros [Hc _]%orb_false_elim.
  cbn in Ha. apply andb_prop in Ha as [Ha _].
  unfold slug_alphabet in Ha. fold (letter_or_digit c) in Ha. rewrite Hc in Ha.
  rewrite Ascii.eqb_sym, (Hf c eq_refl) in Ha. discriminate.
Qed.

(** ** Splitting and joining *)

Lemma split_on_free sep (p : string) :
  free_of sep p = true -> split_on sep p = [p].
Proof.
  unfold free_of. induction p as [|c t IH]; [reflexivity|]. cbn.
  intros [Hc Ht]%andb_prop. apply negb_true_iff in Hc. now rewrite Hc, IH.
Qed.

Lemma split_on_app sep (p rest : string) :
  free_of sep p = true ->
  split_on sep (p ++ String sep rest) = p :: split_on sep rest.
Proof.
  unfold free_of. induction p as [|c t IH].
  - intros _. rewrite string_app_nil_l. cbn. now rewrite Ascii.eqb_refl.
  - cbn [string_forall]. intros [Hc Ht]%andb_prop. apply negb_true_iff in Hc.
    rewrite string_app_cons. cbn [split_on]. now rewrite Hc, IH.
Qed.

Lemma join_cons sep (x y : string) (l : list string) :
  join sep (x :: y :: l) = (x ++ sep ++ join sep (y :: l))%string.
Proof. reflexivity. Qed.

Lemma split_on_join sep (pieces : list string) :
  pieces <> [] -> Forall (fun p => free_of sep p = true) pieces ->
  split_on sep (join (String sep "") pieces) = pieces.
Proof.
  induction pieces as [|x l IH]; [congruence|]. intros _ Hall.
  apply Forall_cons in Hall as [Hx Hl].
  destruct l as [|y l]; [now apply split_on_free|].
  rewrite join_cons, string_app_cons, string_app_nil_l, split_on_app by exact Hx.
  f_equal. now apply IH.
Qed.

Lemma split_on_length sep (s : string) : (0 < length (split_on sep s))%nat.
Proof.
  induction s as [|c t IH]; cbn; [lia|].
  destruct (Ascii.eqb c sep); cbn; [lia|].
  destruct (split_on sep t); cbn in *; lia.
Qed.

(** [s.split()] *)
Lemma split_whitespace_spaces (g s : string) :
  string_forall is_space g = true ->
  split_whitespace (g ++ s) = split_whitespace s.
Proof.
  induction g as [|c t IH]; [reflexivity|]. cbn [string_forall].
  intros [Hc Ht]%andb_prop. rewrite string_app_cons. cbn [split_whitespace].
  now rewrite Hc, IH.
Qed.

Lemma split_whitespace_cons c (t : string) :
  split_whitespace (String c t)
  = if is_space c then split_whitespace t
    else match t with
         | EmptyString => [String c EmptyString]
         | String d _ =>
             if is_space d then String c EmptyString :: split_whitespace t
             else match split_whitespace t with
                  | word :: rest => String c word :: rest
                  | [] => [String c EmptyString]
                  end
         end.
Proof. destruct t; reflexivity. Qed.

Lemma split_whitespace_word (w rest : string) :
  w <> "" -> no_space w = true ->
  (forall c, first_char rest = Some c -> is_space c = true) ->
  split_whitespace (w ++ rest) = w :: split_whitespace rest.
Proof.
  unfold no_space. induction w as [|c t IH]; [congruence|]. intros _ Hw Hrest.
  cbn [string_forall] in Hw. apply andb_prop in Hw as [Hc Ht].
  apply negb_true_iff in Hc. rewrite string_app_cons, split_whitespace_cons, Hc.
  destruct t as [|d u].
  - rewrite string_app_nil_l.
    destruct rest as [|x r]; [reflexivity|].
    now rewrite (Hrest x eq_refl).
  - specialize (IH ltac:(discriminate) Ht Hrest).
    cbn [string_forall] in Ht. apply andb_prop in Ht as [Hd _].
    apply negb_true_iff in Hd.
    rewrite string_app_cons in *. now rewrite Hd, IH.
Qed.

Lemma split_whitespace_join gap (words : list string) :
  gap <> "" -> string_forall is_space gap = true ->
  Forall (fun w => w <> "" /\ no_space w = true) words ->
  split_whitespace (join gap words) = words.
Proof.
  intros Hg Hs. induction words as [|x l IH]; [reflexivity|].
  intros Hall. apply Forall_cons in Hall as [[Hx Hnx] Hl].
  destruct l as [|y l].
  - change (join gap [x]) with x. rewrite <- (string_app_nil_r x) at 1.
    rewrite split_whitespace_word; [reflexivity | exact Hx | exact Hnx |].
    intros c H. discriminate.
  - rewrite join_cons, split_whitespace_word; [|exact Hx|exact Hnx|].
    + now rewrite split_whitespace_spaces, IH.
    + destruct gap as [|g gs]; [congruence|]. rewrite string_app_cons.
      intros c [= <-]. cbn in Hs. now apply andb_prop in Hs.
Qed.

(** The words [s.split()] gives are not empty and hold no whitespace. *)
Lemma split_whitespace_words (s : string) :
  Forall (fun w => w <> "" /\ no_space w = true) (split_whitespace s).
Proof.
  induction s as [|c t IH]; [constructor|].
  rewrite split_whitespace_cons. destruct (is_space c) eqn:Ec; [exact IH|].
  assert (Hc : String c "" <> "" /\ no_space (String c "") = true)
    by (split; [discriminate | unfold no_space; cbn; now rewrite Ec]).
  destruct t as [|d u]; [now repeat constructor|].
  destruct (is_space d); [now constructor|].
  destruct (split_whitespace (String d u)) as [|w r]; [now repeat constructor|].
  apply Forall_cons in IH as [[Hw Hnw] Hr]. constructor; [|exact Hr].
  split; [discriminate|]. unfold no_space in *. cbn. now rewrite Ec, Hnw.
Qed.

Lemma strip_not_empty (s : string) :
  string_exists (fun c => negb (is_space c)) s = true -> strip s <> "".
Proof.
  intros H E. unfold strip in E.
  rewrite <- (strip_chars_exists is_space) in H.
  - rewrite E in H. discriminate.
  - intros c Hc. now apply negb_true_iff.
Qed.

Lemma last_char_exists p (s : string) c :
  last_char s = Some c -> p c = true -> string_exists p s = true.
Proof.
  intros E Hp. induction s as [|x t IH]; [discriminate|].
  cbn [string_exists]. destruct t as [|y u].
  - injection E as ->. now rewrite Hp.
  - rewrite IH; [apply orb_true_r | exact E].
Qed.

Lemma last_char_none (s : string) : last_char s = None -> s = "".
Proof.
  induction s as [|x t IH]; [reflexivity|]. intros E.
  destruct t as [|y u]; [discriminate|]. specialize (IH E). discriminate.
Qed.

Lemma kept_last_exists (s : string) :
  s <> "" -> kept_last is_space s ->
  string_exists (fun c => negb (is_space c)) s = true.
Proof.
  intros H0 Hl. destruct (last_char s) as [c|] eqn:E.
  - apply (last_char_exists _ s c E). now rewrite (Hl c E).
  - now apply last_char_none in E.
Qed.

Lemma last_char_app (a b : string) : b <> "" -> last_char (a ++ b) = last_char b.
Proof. destruct b as [|c t]; [congruence|]. intros _. apply last_char_app_cons. Qed.

Lemma first_char_app (a b : string) : a <> "" -> first_char (a ++ b) = first_char a.
Proof. destruct a as [|c t]; [congruence|]. reflexivity. Qed.

Lemma join_last sep (l : list string) (x : string) :
  last l = Some x -> x <> "" ->
  join sep l <> "" /\ last_char (join sep l) = last_char x.
Proof.
  induction l as [|y l IH]; [discriminate|]. intros Hlast Hx.
  destruct l as [|z l].
  - injection Hlast as ->. now split.
  - destruct (IH Hlast Hx) as [Hne Hlc]. rewrite join_cons. split.
    + intros E. destruct y; [|discriminate]. rewrite string_app_nil_l in E.
      destruct sep; [|discriminate]. now rewrite string_app_nil_l in E.
    + rewrite last_char_app, last_char_app; auto.
      intros E. destruct sep; [|discriminate]. now rewrite string_app_nil_l in E.
Qed.

Lemma free_of_no_space (s : string) : no_space s = true -> free_of newline s = true.
Proof.
  apply string_forall_impl. intros c Hc.
  destruct (Ascii.eqb c newline) eqn:E; [|reflexivity].
  apply Ascii.eqb_eq in E as ->. discriminate.
Qed.

(** The lines of a listing. *)
Lemma listing_lines (h1 h2 h3 : string) (lines : list string) (tail : string) :
  h1 <> "" -> kept_first is_space h1 ->
  Forall (fun h => free_of newline h = true) [h1; h2; h3] ->
  lines <> [] ->
  Forall (fun l => free_of newline l = true /\ l <> "" /\ kept_last is_space l) lines ->
  string_forall is_space tail = true ->
  split_on newline (strip (listing [h1; h2; h3] lines tail)) = [h1; h2; h3] ++ lines.
Proof.
  intros Hh1 Hk Hh Hne Hlines Htail. unfold listing, strip.
  destruct (last lines) as [x|] eqn:Ex.
  2:{ apply last_None in Ex. congruence. }
  assert (Hx : free_of newline x = true /\ x <> "" /\ kept_last is_space x).
  { rewrite Forall_forall in Hlines. apply Hlines. now apply last_Some_elem_of. }
  destruct Hx as (_ & Hx0 & Hxl).
  assert (Hlast : last ([h1; h2; h3] ++ lines) = Some x).
  { rewrite last_app, Ex. reflexivity. }
  destruct (join_last (String newline "") _ x Hlast Hx0) as [Hj0 Hjl].
  pose proof (strip_chars_unique is_space ""
                (join (String newline "") ([h1; h2; h3] ++ lines)) tail
                eq_refl Htail) as Hs.
  rewrite string_app_nil_l in Hs. rewrite Hs.
  - apply split_on_join; [discriminate|].
    apply Forall_app. split; [exact Hh|].
    eapply Forall_impl; [exact Hlines|]. now intros l [Hl _].
  - intros c Hc. apply Hk. rewrite <- Hc.
    change (join (String newline "") ([h1; h2; h3] ++ lines))
      with (h1 ++ String newline "" ++ join (String newline "") ([h2; h3] ++ lines))%string.
    now rewrite first_char_app.
  - intros c Hc. apply Hxl. now rewrite <- Hjl.
Qed.

Lemma string_forall_join p sep (l : list string) :
  string_forall p sep = true -> Forall (fun x => string_forall p x = true) l ->
  string_forall p (join sep l) = true.
Proof.
  intros Hsep. induction l as [|x l IH]; [reflexivity|].
  intros Hall. apply Forall_cons in Hall as [Hx Hl].
  destruct l as [|y l]; [exact Hx|].
  rewrite join_cons, !string_forall_app, Hx, Hsep. now apply IH.
Qed.

Lemma string_forall_last p (s : string) c :
  string_forall p s = true -> last_char s = Some c -> p c = true.
Proof.
  induction s as [|x t IH]; [discriminate|]. cbn [string_forall].
  intros [Hx Ht]%andb_prop E. destruct t as [|y u].
  - now injection E as <-.
  - now apply IH.
Qed.

Lemma no_space_kept_last (s : string) : no_space s = true -> kept_last is_space s.
Proof.
  intros H c E. apply negb_true_iff.
  exact (string_forall_last _ s c H E).
Qed.

(** ** The two listings *)

(** A line of words parses to its words. *)
Lemma classroom_line gap (words : list string) :
  gap <> "" -> string_forall is_space gap = true -> free_of newline gap = true ->
  words <> [] -> Forall (fun w => w <> "" /\ no_space w = true) words ->
  free_of newline (join gap words) = true /\ ends_visibly (join gap words) /\
  split_whitespace (join gap words) = words.
Proof.
  intros Hg Hs Hn Hw Hall. split; [|split].
  - apply string_forall_join; [exact Hn|].
    eapply Forall_impl; [exact Hall|]. intros w [_ H]. now apply free_of_no_space.
  - destruct (last words) as [x|] eqn:Ex; [|apply last_None in Ex; congruence].
    assert (Hx : x <> "" /\ no_space x = true).
    { rewrite Forall_forall in Hall. apply Hall. now apply last_Some_elem_of. }
    destruct (join_last gap words x Ex (proj1 Hx)) as [H0 Hl].
    split; [exact H0|]. intros c Hc. rewrite Hl in Hc.
    now apply (no_space_kept_last x (proj2 Hx)).
  - now apply split_whitespace_join.
Qed.

Lemma omap_map_some {A B C : Type} (f : B -> option C) (g : A -> B) (h : A -> C)
    (l : list A) :
  Forall (fun a => f (g a) = Some (h a)) l -> omap f (map g l) = map h l.
Proof.
  induction 1 as [|a l Ha _ IH]; [reflexivity|]. cbn. now rewrite Ha, IH.
Qed.

Lemma parse_classroom_list_listing (h1 h2 h3 gap : string)
    (rows : list (string * string * list string)) (tail : string) :
  h1 <> "" -> kept_first is_space h1 ->
  Forall (fun h => free_of newline h = true) [h1; h2; h3] ->
  gap <> "" -> string_forall is_space gap = true -> free_of newline gap = true ->
  rows <> [] ->
  Forall (fun row => Forall (fun w => w <> "" /\ no_space w = true)
                       (row.1.1 :: row.1.2 :: row.2)) rows ->
  string_forall is_space tail = true ->
  _parse_classroom_list
    (listing [h1; h2; h3]
       (map (fun row => join gap (row.1.1 :: row.1.2 :: row.2)) rows) tail)
  = Ok (map fst rows).
Proof.
  intros Hh1 Hk Hh Hg Hs Hn Hrows Hall Htail. unfold _parse_classroom_list.
  assert (Hline : forall row, row ∈ rows ->
            let line := join gap (row.1.1 :: row.1.2 :: row.2) in
            free_of newline line = true /\ ends_visibly line /\
            split_whitespace line = row.1.1 :: row.1.2 :: row.2).
  { intros row Hr. rewrite Forall_forall in Hall.
    apply classroom_line; auto; discriminate. }
  rewrite listing_lines; auto.
  - rewrite length_app, length_map. cbn [length].
    destruct rows as [|r rows]; [congruence|]. cbn [length Nat.ltb Nat.leb plus].
    cbn [app skipn]. f_equal.
    apply (omap_map_some _ _ fst (r :: rows)).
    apply Forall_forall. intros row Hr.
    destruct (Hline row Hr) as (_ & [H0 Hl] & Hsplit).
    rewrite Hsplit. destruct (String.eqb (strip _) "") eqn:E.
    + apply String.eqb_eq in E. exfalso. revert E. apply strip_not_empty.
      now apply kept_last_exists.
    + now destruct row as [[i n] r'].
  - destruct rows; [congruence | discriminate].
  - apply Forall_forall. intros l Hl. apply list_elem_of_fmap in Hl as (row & -> & Hr).
    destruct (Hline row Hr) as (H1 & [H2 H3] & _). auto.
Qed.

Lemma parse_assignments_list_listing (h1 h2 h3 : string)
    (rows : list (list string)) (tail : string) :
  h1 <> "" -> kept_first is_space h1 ->
  Forall (fun h => free_of newline h = true) [h1; h2; h3] ->
  rows <> [] ->
  Forall (fun row =>
            (7 <= length row)%nat /\
            Forall (fun f => free_of tab f = true /\ free_of newline f = true) row /\
            exists x, last row = Some x /\ ends_visibly x) rows ->
  string_forall is_space tail = true ->
  _parse_assignments_list
    (listing [h1; h2; h3] (map (join (String tab "")) rows) tail)
  = Ok (map (fun row => (nth 0 row "", nth 1 row "", nth 6 row "")) rows).
Proof.
  intros Hh1 Hk Hh Hrows Hall Htail. unfold _parse_assignments_list.
  assert (Hline : forall row, row ∈ rows ->
            let line := join (String tab "") row in
            free_of newline line = true /\ ends_visibly line /\
            split_on tab line = row /\ (7 <= length row)%nat).
  { intros row Hr. rewrite Forall_forall in Hall.
    destruct (Hall row Hr) as (Hlen & Hf & x & Hx & Hx0 & Hxl).
    split; [|split; [|split]]; [| | |exact Hlen].
    - apply string_forall_join; [reflexivity|].
      eapply Forall_impl; [exact Hf|]. now intros f [_ H].
    - destruct (join_last (String tab "") row x Hx Hx0) as [H0 Hl].
      split; [exact H0|]. intros c Hc. rewrite Hl in Hc. now apply Hxl.
    - apply split_on_join; [intros ->; cbn in Hlen; lia|].
      eapply Forall_impl; [exact Hf|]. now intros f [H _]. }
  rewrite listing_lines; auto.
  - rewrite length_app, length_map. cbn [length].
    destruct rows as [|r rows]; [congruence|]. cbn [length Nat.ltb Nat.leb plus].
    cbn [app skipn]. f_equal.
    apply (omap_map_some _ _ (fun row => (nth 0 row "", nth 1 row "", nth 6 row ""))
             (r :: rows)).
    apply Forall_forall. intros row Hr.
    destruct (Hline row Hr) as (_ & [H0 Hl] & Hsplit & Hlen).
    rewrite Hsplit. destruct (String.eqb (strip _) "") eqn:E.
    + apply String.eqb_eq in E. exfalso. revert E. apply strip_not_empty.
      now apply kept_last_exists.
    + destruct row as [|p0 [|p1 [|p2 [|p3 [|p4 [|p5 [|p6 more]]]]]]];
        cbn in Hlen; try lia. reflexivity.
  - destruct rows; [congruence | discriminate].
  - apply Forall_forall. intros l Hl. apply list_elem_of_fmap in Hl as (row & -> & Hr).
    destruct (Hline row Hr) as (H1 & [H2 H3] & _). auto.
Qed.

(** The ids and the names of a classroom listing are words. *)
Lemma parse_classroom_list_words output classrooms :
  _parse_classroom_list output = Ok classrooms ->
  Forall (fun c => (c.1 <> "" /\ no_space c.1 = true) /\
                   (c.2 <> "" /\ no_space c.2 = true)) classrooms.
Proof.
  unfold _parse_classroom_list.
  destruct (_ <? _)%nat; [discriminate|]. intros [= <-].
  apply Forall_forall. intros c Hc.
  apply list_elem_of_omap in Hc as (line & _ & Hline).
  destruct (String.eqb (strip line) ""); [discriminate|].
  pose proof (split_whitespace_words line) as Hw.
  destruct (split_whitespace line) as [|i [|n r]]; try discriminate.
  injection Hline as <-. apply Forall_cons in Hw as [Hi Hw].
  apply Forall_cons in Hw as [Hn _]. now split.
Qed.

(** ** Jobs that only log *)

Lemma quiet_ret {A : Type} (a : A) : quiet (mret a).
Proof. intros st. exists []. cbn. now rewrite state_eta. Qed.

Lemma quiet_fail {A : Type} (f : failure) : quiet (@fail A f).
Proof. intros st. exists []. cbn. now rewrite state_eta. Qed.

Lemma quiet_note l msg : quiet (note l msg).
Proof. intros st. eexists. reflexivity. Qed.

Lemma quiet_bind {A B : Type} (m : Job A) (k : A -> Job B) :
  quiet m -> (forall a, quiet (k a)) -> quiet (m ≫= k).
Proof.
  intros Hm Hk st. unfold mbind, Job_bind.
  destruct (Hm st) as [l1 H1]. destruct (m st) as [[a|f] st1]; cbn in H1; subst st1.
  - destruct (Hk a (mk_state (db st) (journal st) (logs st ++ l1))) as [l2 H2].
    exists (l1 ++ l2). rewrite H2. cbn. now rewrite app_assoc.
  - now exists l1.
Qed.

Lemma quiet_rescue {A : Type} (m : Job A) (h : failure -> Job A) :
  quiet m -> (forall f, quiet (h f)) -> quiet (rescue m h).
Proof.
  intros Hm Hh st. unfold rescue.
  destruct (Hm st) as [l1 H1]. destruct (m st) as [[a|f] st1]; cbn in H1; subst st1.
  - now exists l1.
  - destruct (Hh f (mk_state (db st) (journal st) (logs st ++ l1))) as [l2 H2].
    exists (l1 ++ l2). rewrite H2. cbn. now rewrite app_assoc.
Qed.

Lemma quiet_lift {A : Type} (m : M A) r : only_logs m r -> quiet (lift m).
Proof.
  intros H st. destruct (H st) as [l Hl]. exists l. unfold lift. rewrite Hl.
  now destruct r.
Qed.

Lemma quiet_lift_outcome {A : Type} (r : outcome A) : quiet (lift_outcome r).
Proof. destruct r; [apply quiet_ret | apply quiet_fail]. Qed.

Section GitHubFacts.
Variable subprocess_run : list string -> Z -> completed_process.
Variable config : SyncConfig.t.

Lemma quiet_execute_gh_command command :
  quiet (_execute_gh_command subprocess_run config command).
Proof.
  unfold _execute_gh_command. destruct (subprocess_run _ _);
    [apply quiet_ret | | |];
    (apply quiet_bind; [apply quiet_note | intros; apply quiet_fail]).
Qed.

Lemma execute_gh_command_fails command st f st' :
  _execute_gh_command subprocess_run config command st = (Fails f, st') ->
  exists msg, f = GitHubCLIError msg.
Proof.
  unfold _execute_gh_command. destruct (subprocess_run _ _); cbn; intros [= <- _]; eauto.
Qed.

Lemma quiet_cli_errors {A : Type} failed unexpected (m : Job A) :
  quiet m -> quiet (cli_errors failed unexpected m).
Proof.
  intros Hm. apply quiet_rescue; [exact Hm|]. intros [msg|e];
    (apply quiet_bind; [apply quiet_note | intros; apply quiet_fail]).
Qed.

Lemma cli_errors_fails {A : Type} failed unexpected (m : Job A) st f st' :
  cli_errors failed unexpected m st = (Fails f, st') ->
  exists msg, f = GitHubCLIError msg.
Proof.
  unfold cli_errors, rescue. destruct (m st) as [[a|[msg|e]] st1]; cbn;
    intros [= <- _]; eauto.
Qed.

Lemma cli_errors_returns {A : Type} failed unexpected (m : Job A) st a st' :
  cli_errors failed unexpected m st = (Returns a, st') -> m st = (Returns a, st').
Proof.
  unfold cli_errors, rescue. destruct (m st) as [[a'|[msg|e]] st1]; cbn;
    now intros [= <- <-].
Qed.

Lemma quiet_get_classroom_id classroom_name :
  quiet (get_classroom_id subprocess_run config classroom_name).
Proof.
  apply quiet_cli_errors, quiet_bind; [apply quiet_execute_gh_command|].
  intros output. apply quiet_bind; [apply quiet_lift_outcome|].
  intros classrooms. destruct (List.find _ _) as [[i n]|]; [apply quiet_ret|].
  apply quiet_bind; [apply quiet_note | intros; apply quiet_ret].
Qed.

Lemma quiet_get_assignments classroom_id :
  quiet (get_assignments subprocess_run config classroom_id).
Proof.
  apply quiet_cli_errors, quiet_bind; [apply quiet_execute_gh_command|].
  intros output. apply quiet_lift_outcome.
Qed.

(** An id that [get_classroom_id] returns is the id of a classroom of
    the listing that has the name. *)
Lemma get_classroom_id_found classroom_name st classroom_id st' :
  get_classroom_id subprocess_run config classroom_name st
  = (Returns (Some classroom_id), st') ->
  exists output classrooms,
    subprocess_run (split_whitespace "gh classroom list")
      (SyncConfig.timeout_seconds config) = Completed output /\
    _parse_classroom_list output = Ok classrooms /\
    (classroom_id, classroom_name) ∈ classrooms.
Proof.
  intros H. apply cli_errors_returns in H. revert H.
  unfold mbind, Job_bind, _execute_gh_command.
  destruct (subprocess_run _ _) as [output| | |] eqn:Erun; try discriminate.
  cbn. destruct (_parse_classroom_list output) as [classrooms|e] eqn:Ep;
    [|discriminate].
  cbn. destruct (List.find _ classrooms) as [[i n]|] eqn:Ef; [|discriminate].
  intros [= <- _]. exists output, classrooms. split; [reflexivity|].
  split; [exact Ep|].
  apply find_some in Ef as [Hin Hn]. apply String.eqb_eq in Hn. cbn in Hn.
  subst n. now apply list_elem_of_In.
Qed.

End GitHubFacts.

(** ** The whole run *)

Section RunSyncFacts.
Variable subprocess_run : list string -> Z -> completed_process.
Variable requests_get : string -> option string -> http_reply.
Variable env : gmap string string.
Variable config : SyncConfig.t.
Variable fault : nat -> call -> option exn.
Variable fromisoformat : string -> option datetime.

Local Abbreviation lookup := (get_repository_info requests_get env).

(** Without extracts the loop over the assignments leaves its working
    set as it was. *)
Lemma process_assignments_without_extracts download assignment_data :
  (forall a, download a = None \/ download a = Some []) ->
  forall acc,
    only_logs (process_assignments fromisoformat lookup download acc assignment_data)
      (Ok acc).
Proof.
  intros Hd. induction assignment_data as [|[[i n] r] t IH]; intros acc; cbn.
  - apply only_logs_ret.
  - eapply only_logs_bind; [|apply IH].
    apply only_logs_catch_ok.
    destruct (Hd i) as [-> | ->];
      (eapply only_logs_bind; [apply only_logs_log | apply only_logs_ret]).
Qed.

Lemma process_assignments_in_memory_without_extracts download assignment_data :
  (forall a, download a = None \/ download a = Some []) ->
  only_logs (process_assignments_in_memory fault fromisoformat lookup download
               (SyncConfig.max_retries config) assignment_data) (Ok []).
Proof.
  intros Hd. unfold process_assignments_in_memory.
  eapply only_logs_bind;
    [apply (process_assignments_without_extracts download assignment_data Hd)|].
  cbn. eapply only_logs_bind; [apply only_logs_log | apply only_logs_ret].
Qed.

Lemma quiet_run_sync_without_extracts download :
  (forall a, download a = None \/ download a = Some []) ->
  quiet (run_sync subprocess_run requests_get env config fault fromisoformat download).
Proof.
  intros Hd. apply quiet_rescue.
  2:{ intros f. apply quiet_bind; [apply quiet_note | intros; apply quiet_fail]. }
  apply quiet_bind; [apply quiet_get_classroom_id|]. intros classroom_id.
  destruct (falsy_text classroom_id); [apply quiet_fail|].
  apply quiet_bind; [apply quiet_get_assignments|]. intros assignment_data.
  destruct assignment_data as [|a t]; [apply quiet_note|].
  apply quiet_bind.
  - eapply quiet_lift. now apply process_assignments_in_memory_without_extracts.
  - intros [|g gs]; [apply quiet_note | apply quiet_ret].
Qed.

(** The loop over the assignments reads the extracts of its assignments
    only. *)
Lemma process_assignment_try_ext download download' acc a :
  download a.1.1 = download' a.1.1 ->
  process_assignment_try fromisoformat lookup download acc a
  = process_assignment_try fromisoformat lookup download' acc a.
Proof.
  destruct a as [[i n] r]. cbn [fst]. intros Hi.
  unfold process_assignment_try. now rewrite Hi.
Qed.

Lemma process_assignments_ext download download' assignment_data :
  (forall a, a ∈ assignment_data -> download a.1.1 = download' a.1.1) ->
  forall acc st,
    process_assignments fromisoformat lookup download acc assignment_data st
    = process_assignments fromisoformat lookup download' acc assignment_data st.
Proof.
  induction assignment_data as [|a t IH]; intros Hd acc st; [reflexivity|].
  assert (Ht : forall b, b ∈ t -> download b.1.1 = download' b.1.1)
    by (intros b Hb; apply Hd; now apply list_elem_of_further).
  cbn [process_assignments]. unfold mbind, M_bind.
  rewrite (process_assignment_try_ext download download' acc a)
    by (apply Hd, list_elem_of_here).
  destruct (catch _ _ st) as [[acc1|e] st1]; [now apply IH | reflexivity].
Qed.

Lemma select_assignment_ids a assignment_data :
  SyncConfig.assignment_id config = Some a -> a <> "" ->
  forall x, x ∈ select_assignment config assignment_data -> x.1.1 = a.
Proof.
  intros Ha H0 x. unfold select_assignment. rewrite Ha. cbn.
  destruct (String.eqb a "") eqn:E; [now apply String.eqb_eq in E|].
  rewrite list_elem_of_In, filter_In. intros [_ H].
  apply bool_decide_eq_true in H. congruence.
Qed.

Lemma run_sync_ext download download' a :
  SyncConfig.assignment_id config = Some a -> a <> "" ->
  download a = download' a ->
  forall st,
    run_sync subprocess_run requests_get env config fault fromisoformat download st
    = run_sync subprocess_run requests_get env config fault fromisoformat download' st.
Proof.
  intros Ha H0 Hd st. unfold run_sync, rescue.
  assert (Htry : run_sync_try subprocess_run requests_get env config fault
                   fromisoformat download st
                 = run_sync_try subprocess_run requests_get env config fault
                     fromisoformat download' st); [|now rewrite Htry].
  unfold run_sync_try, mbind, Job_bind.
  destruct (get_classroom_id _ _ _ st) as [[classroom_id|f] st1]; [|reflexivity].
  destruct (falsy_text classroom_id); [reflexivity|].
  destruct (get_assignments _ _ _ st1) as [[assignment_data|f] st2]; [|reflexivity].
  destruct assignment_data as [|x t]; [reflexivity|].
  unfold lift, process_assignments_in_memory. unfold mbind at 1 3, M_bind at 1 3.
  rewrite (process_assignments_ext download download').
  - reflexivity.
  - intros y Hy. rewrite (select_assignment_ids a _ Ha H0 y Hy). exact Hd.
Qed.

(** A name that is empty or holds whitespace is the name of no
    classroom of a listing. *)
Lemma get_classroom_id_not_a_word classroom_name st :
  classroom_name = "" \/ no_space classroom_name = false ->
  exists st',
    (get_classroom_id subprocess_run config classroom_name st = (Returns None, st') \/
     exists msg,
       get_classroom_id subprocess_run config classroom_name st
       = (Fails (GitHubCLIError msg), st')) /\
    db st' = db st /\ journal st' = journal st.
Proof.
  intros Hname.
  destruct (quiet_get_classroom_id subprocess_run config classroom_name st) as [l Hl].
  destruct (get_classroom_id subprocess_run config classroom_name st)
    as [r st'] eqn:E. cbn in Hl. subst st'.
  exists (mk_state (db st) (journal st) (logs st ++ l)).
  destruct r as [[classroom_id|]|f].
  - exfalso. apply get_classroom_id_found in E as (output & classrooms & _ & Hp & Hin).
    apply parse_classroom_list_words in Hp. rewrite Forall_forall in Hp.
    destruct (Hp _ Hin) as [_ [H0 Hw]].
    change (classroom_name <> "") in H0.
    change (no_space classroom_name = true) in Hw.
    destruct Hname as [-> | Hs]; [now apply H0 | congruence].
  - split; [left; reflexivity | split; reflexivity].
  - apply cli_errors_fails in E as Hf. destruct Hf as [msg ->].
    split; [right; eauto | split; reflexivity].
Qed.

End RunSyncFacts.

(** ** The retry loop *)

Section RetryFacts.
Variable fault : nat -> call -> option exn.
Variable max_retries : Z.

(** A request the store refuses at each attempt is sent once per
    attempt. *)
Lemma retry_always_refused c (run : store -> outcome (unit * store)) what e :
  (forall n, fault n c = Some e) ->
  forall (n k : nat) st,
    (0 < n)%nat -> Z.of_nat (k + n) = max_retries ->
    retry max_retries what (execute fault c run) (seq k n) st
    = (Raise (sync_failure what e),
       mk_state (db st) (journal st ++ repeat (c, Some e) n)
         (logs st ++ repeat (error_of what e) n)).
Proof.
  intros Hc. induction n as [|n IH]; intros k st Hn Hk; [lia|].
  cbn [seq retry].
  assert (Hex : execute fault c run st
                = (Raise e, mk_state (db st) (journal st ++ [(c, Some e)]) (logs st)))
    by (unfold execute; now rewrite Hc).
  rewrite (catch_raise _ _ _ _ _ Hex).
  unfold mbind, M_bind, log. cbn [db journal logs]. fold (error_of what e).
  destruct (Z.of_nat k =? max_retries - 1) eqn:Et.
  - apply Z.eqb_eq in Et. assert (n = 0)%nat as -> by lia. reflexivity.
  - apply Z.eqb_neq in Et. rewrite IH by lia. cbn [db journal logs repeat].
    now rewrite <- !app_assoc.
Qed.

(** A request the store refuses [k] times and then answers. *)
Lemma retry_recovers c (run : store -> outcome (unit * store)) what e s' :
  forall (k n : nat) st,
    (forall i, (i < k)%nat -> fault (length (journal st) + i) c = Some e) ->
    fault (length (journal st) + k) c = None ->
    run (db st) = Ok (tt, s') ->
    (k < n)%nat ->
    forall j, Z.of_nat (j + n) = max_retries ->
    retry max_retries what (execute fault c run) (seq j n) st
    = (Ok tt,
       mk_state s' (journal st ++ repeat (c, Some e) k ++ [(c, None)])
         (logs st ++ repeat (error_of what e) k)).
Proof.
  induction k as [|k IH]; intros n st Hbad Hgood Hrun Hkn j Hj.
  - destruct n as [|n]; [lia|]. cbn [seq retry].
    assert (Hex : execute fault c run st
                  = (Ok tt, mk_state s' (journal st ++ [(c, None)]) (logs st))).
    { unfold execute. rewrite Nat.add_0_r in Hgood. now rewrite Hgood, Hrun. }
    rewrite (catch_ok _ _ _ _ _ Hex). cbn. now rewrite app_nil_r.
  - destruct n as [|n]; [lia|]. cbn [seq retry].
    assert (Hex : execute fault c run st
                  = (Raise e, mk_state (db st) (journal st ++ [(c, Some e)]) (logs st))).
    { unfold execute. specialize (Hbad 0%nat ltac:(lia)).
      rewrite Nat.add_0_r in Hbad. now rewrite Hbad. }
    rewrite (catch_raise _ _ _ _ _ Hex).
    unfold mbind, M_bind, log. cbn [db journal logs]. fold (error_of what e).
    destruct (Z.of_nat j =? max_retries - 1) eqn:Et; [apply Z.eqb_eq in Et; lia|].
    rewrite (IH n); cbn [db journal logs]; try lia.
    + cbn [repeat]. now rewrite <- !app_assoc.
    + intros i Hi. rewrite length_app. cbn [length].
      replace (length (journal st) + 1 + i)%nat with (length (journal st) + S i)%nat
        by lia. apply Hbad. lia.
    + rewrite length_app. cbn [length].
      replace (length (journal st) + 1 + k)%nat with (length (journal st) + S k)%nat
        by lia. exact Hgood.
    + exact Hrun.
Qed.

(** Without an attempt the loop does nothing. *)
Lemma retry_none what (request : M unit) st :
  max_retries <= 0 ->
  retry max_retries what request (range max_retries) st = (Ok tt, st).
Proof.
  intros H. unfold range. replace (Z.to_nat max_retries) with 0%nat by lia.
  reflexivity.
Qed.

End RetryFacts.

(** ** Failures of the refresh *)

Section RefreshFailures.
Variable fault : nat -> call -> option exn.
Variable fromisoformat : string -> option datetime.

Lemma clear_leaderboard_returns st : (clear_leaderboard fault st).1 = Ok tt.
Proof.
  unfold clear_leaderboard, catch.
  now destruct (delete_leaderboard fault st) as [[[]|e] st1].
Qed.

Lemma write_batches_return bs : forall st,
  (for_each bs (write_batch fault) st).1 = Ok tt.
Proof.
  induction bs as [|b bs IH]; intros st; [reflexivity|].
  cbn [for_each]. unfold mbind, M_bind.
  pose proof (write_batch_returns fault b st) as Hb.
  destruct (write_batch fault b st) as [[[]|e] st1]; [apply IH | discriminate].
Qed.

Lemma bind_inv {A B : Type} (m : M A) (k : A -> M B) st r st' :
  (m ≫= k) st = (r, st') ->
  (exists e, r = Raise e /\ m st = (Raise e, st')) \/
  (exists a st1, m st = (Ok a, st1) /\ k a st1 = (r, st')).
Proof.
  unfold mbind, M_bind. destruct (m st) as [[a|e] st1].
  - intros H. right. eauto.
  - intros H. injection H as <- <-. left. eauto.
Qed.

(** A query changes nothing in the store. *)
Lemma query_state {A : Type} c (read : store -> A) st :
  is_query c ->
  db (execute fault c (fun s => Ok (read s, s)) st).2 = db st /\
  exists js,
    journal (execute fault c (fun s => Ok (read s, s)) st).2 = journal st ++ js /\
    Forall (fun x => is_query x.1) js.
Proof.
  intros Hc. unfold execute.
  destruct (fault _ _); cbn; (split; [reflexivity|]); eexists;
    (split; [reflexivity|]); now repeat constructor.
Qed.

Lemma refresh_try_raises st e st' :
  refresh_admin_leaderboard_try fault fromisoformat st = (Raise e, st') ->
  db st' = db st /\
  exists js, journal st' = journal st ++ js /\ Forall (fun x => is_query x.1) js.
Proof.
  unfold refresh_admin_leaderboard_try. intros H.
  pose proof (query_state SelectStudents students st I) as (Hd1 & j1 & Hj1 & Hq1).
  apply bind_inv in H as [(e1 & _ & H1) | (students_data & st1 & H1 & H)];
    fold (select_students fault) in *; rewrite H1 in *; cbn [snd] in *.
  { split; [exact Hd1|]. eauto. }
  destruct students_data as [|s0 ss]; [discriminate|].
  pose proof (query_state SelectGrades grades st1 I) as (Hd2 & j2 & Hj2 & Hq2).
  apply bind_inv in H as [(e2 & _ & H2) | (grades_data & st2 & H2 & H)];
    fold (select_grades fault) in *; rewrite H2 in *; cbn [snd] in *.
  { split; [congruence|]. exists (j1 ++ j2). rewrite Hj2, Hj1, app_assoc.
    split; [reflexivity|]. rewrite Forall_app. auto. }
  pose proof (query_state SelectAssignments assignments st2 I) as (Hd3 & j3 & Hj3 & Hq3).
  apply bind_inv in H as [(e3 & _ & H3) | (assignments_data & st3 & H3 & H)];
    fold (select_assignments fault) in *; rewrite H3 in *; cbn [snd] in *.
  { split; [congruence|]. exists (j1 ++ j2 ++ j3).
    rewrite Hj3, Hj2, Hj1, !app_assoc.
    split; [reflexivity|]. rewrite !Forall_app. auto. }
  destruct (only_logs_collect
              (leaderboard_entry fromisoformat grades_data
                 (assignment_points_of assignments_data))
              (leaderboard_entry_result fromisoformat grades_data
                 (assignment_points_of assignments_data))
              (s0 :: ss)
              (leaderboard_entry_only_logs fromisoformat grades_data
                 (assignment_points_of assignments_data)) st3) as [l Hl].
  apply bind_inv in H as [(e4 & _ & H4) | (data & st4 & H4 & H)];
    rewrite Hl in H4.
  { injection H4 as _ <-. cbn. split; [congruence|]. exists (j1 ++ j2 ++ j3).
    rewrite Hj3, Hj2, Hj1, !app_assoc.
    split; [reflexivity|]. rewrite !Forall_app. auto. }
  exfalso. clear -H.
  apply bind_inv in H as [(e5 & _ & H5) | ([] & st5 & H5 & H)].
  - pose proof (clear_leaderboard_returns st4) as Hc. rewrite H5 in Hc. discriminate.
  - pose proof (write_batches_return (batches (rank data)) st5) as Hw.
    rewrite H in Hw. discriminate.
Qed.

End RefreshFailures.

Section RefreshWrites.
Variable fault : nat -> call -> option exn.
Variable fromisoformat : string -> option datetime.
Hypothesis answers_students : answers fault SelectStudents.
Hypothesis answers_grades : answers fault SelectGrades.
Hypothesis answers_assignments : answers fault SelectAssignments.

(** Once the three tables are read and the entries computed, the
    refresh returns normally whatever becomes of its writes. *)
Lemma refresh_returns st data :
  leaderboard_data_of fromisoformat (db st) = Ok data ->
  (refresh_admin_leaderboard fault fromisoformat st).1 = Ok tt.
Proof.
  intros Hdata. unfold refresh_admin_leaderboard.
  assert (Htry : (refresh_admin_leaderboard_try fault fromisoformat st).1 = Ok tt).
  { unfold refresh_admin_leaderboard_try.
    unfold select_students, select_grades, select_assignments.
    unfold mbind at 1, M_bind at 1. rewrite execute_answered by assumption.
    unfold leaderboard_data_of in Hdata.
    destruct (students (db st)) as [|s0 ss] eqn:Es; [reflexivity|].
    unfold mbind at 1, M_bind at 1. rewrite execute_answered by assumption.
    unfold mbind at 1, M_bind at 1. rewrite execute_answered by assumption.
    cbn [db journal logs].
    match goal with |- context [collect ?xs ?body] =>
      destruct (only_logs_collect body
                  (leaderboard_entry_result fromisoformat (grades (db st))
                     (assignment_points_of (assignments (db st))))
                  xs
                  (leaderboard_entry_only_logs fromisoformat (grades (db st))
                     (assignment_points_of (assignments (db st))))
                  (mk_state (db st)
                     (((journal st ++ [(SelectStudents, None)])
                       ++ [(SelectGrades, None)]) ++ [(SelectAssignments, None)])
                     (logs st))) as [l Hl]
    end.
    unfold mbind at 1, M_bind at 1. rewrite Hl, Hdata.
    unfold mbind, M_bind.
    match goal with |- context [clear_leaderboard fault ?s] =>
      pose proof (clear_leaderboard_returns fault s) as Hc;
      destruct (clear_leaderboard fault s) as [[[]|ec] st4]; [|discriminate]
    end.
    apply write_batches_return. }
  unfold catch.
  destruct (refresh_admin_leaderboard_try fault fromisoformat st) as [[[]|e] st1];
    [reflexivity | discriminate].
Qed.

End RefreshWrites.

(** A request the store refuses leaves the store as it was. *)
Lemma respects_execute_refused (I : store -> Prop) fault {A : Type} c
    (run : store -> outcome (A * store)) :
  refuses fault c -> respects I (execute fault c run).
Proof.
  intros Hc st H. unfold execute. specialize (Hc (length (journal st))).
  destruct (fault _ c); [exact H | congruence].
Qed.

Lemma respects_refresh_refused (I : store -> Prop) fault fromisoformat :
  (forall c, is_leaderboard_write c -> refuses fault c) ->
  respects I (refresh_admin_leaderboard fault fromisoformat).
Proof.
  intros Hw. unfold refresh_admin_leaderboard, refresh_admin_leaderboard_try.
  assert (Hq : forall {A} c (read : store -> A),
             respects I (execute fault c (fun s => Ok (read s, s)))).
  { intros A c read. apply respects_execute. now intros s a s' Hs [= _ <-]. }
  apply respects_catch.
  2:{ intros e. apply respects_bind; [apply respects_log | intros; apply respects_raise]. }
  apply respects_bind; [apply Hq | intros students_data].
  destruct students_data as [|s0 ss]; [apply respects_log|].
  apply respects_bind; [apply Hq | intros grades_data].
  apply respects_bind; [apply Hq | intros assignments_data].
  apply respects_bind.
  { apply respects_collect. intros s.
    eapply respects_only_logs, leaderboard_entry_only_logs. }
  intros data. apply respects_bind.
  { apply respects_catch; [|intros; apply respects_log].
    now apply respects_execute_refused, Hw. }
  intros _. apply respects_for_each. intros batch.
  apply respects_catch; [now apply respects_execute_refused, Hw|].
  intros e. apply respects_bind; [apply respects_log|]. intros _.
  apply respects_for_each. intros row.
  apply respects_catch; [|intros; apply respects_log].
  now apply respects_execute_refused, Hw.
Qed.

(** ** The dictionary of students *)

Lemma yields_ret {A : Type} (a : A) (P : A -> Prop) : P a -> yields (mret a) P.
Proof. intros H st a' st' [= <- _]. exact H. Qed.

Lemma yields_bind {A B : Type} (m : M A) (k : A -> M B) (P : A -> Prop) (Q : B -> Prop) :
  yields m P -> (forall a, P a -> yields (k a) Q) -> yields (m ≫= k) Q.
Proof.
  intros Hm Hk st b st' H.
  apply bind_inv in H as [(e & ? & _) | (a & st1 & H1 & H2)]; [discriminate|].
  eapply Hk; [eapply Hm; exact H1 | exact H2].
Qed.

Lemma yields_any {A : Type} (m : M A) : yields m (fun _ => True).
Proof. intros st a st' _. exact I. Qed.

Lemma strip_idempotent (s : string) : strip (strip s) = strip s.
Proof. apply strip_chars_idempotent. Qed.

Lemma known_elem name (students : list (string * StudentInfo.t)) :
  known name students = false -> name ∉ map fst students.
Proof.
  unfold known. intros H Hin. apply list_elem_of_fmap in Hin as (kv & -> & Hkv).
  apply list_elem_of_In in Hkv.
  assert (existsb (fun kv0 => String.eqb kv0.1 kv.1) students = true)
    by (apply existsb_exists; exists kv; split; [exact Hkv | apply String.eqb_refl]).
  congruence.
Qed.

Lemma well_keyed_add name info (students : list (string * StudentInfo.t)) :
  well_keyed students -> name ∉ map fst students ->
  StudentInfo.github_username info = name -> strip name = name ->
  well_keyed (students ++ [(name, info)]).
Proof.
  intros [Hnd Hall] Hnew Hinfo Hstrip. split.
  - rewrite map_app. cbn. apply NoDup_app. split; [exact Hnd|]. split.
    + intros x Hx Hx'. apply list_elem_of_singleton in Hx'. now subst x.
    + apply NoDup_singleton.
  - apply Forall_app. split; [exact Hall|]. now repeat constructor.
Qed.

Section DictionaryFacts.
Variable fromisoformat : string -> option datetime.
Variable get_repository_info : url_cell -> option RepoInfo.t.
Variable download_grades_to_dataframe : string -> option (list Row.t).

Lemma visit_row_well_keyed students row :
  well_keyed students ->
  yields (visit_row fromisoformat get_repository_info students row) well_keyed.
Proof.
  intros Hwk. unfold visit_row.
  destruct (negb (known _ students) && url_truthy _) eqn:E;
    [|now apply yields_ret].
  apply andb_prop in E as [Hk%negb_true_iff%known_elem _].
  assert (Hadd : forall info,
             StudentInfo.github_username info = strip (Row.github_username row) ->
             well_keyed (students ++ [(strip (Row.github_username row), info)])).
  { intros info Hi. apply well_keyed_add; auto using strip_idempotent. }
  destruct (get_repository_info _) as [info|].
  - destruct (RepoInfo.is_fork info).
    + eapply yields_bind; [apply yields_any|]. intros t _.
      apply yields_ret, Hadd. reflexivity.
    + eapply yields_bind; [apply yields_any|]. intros t _.
      apply yields_ret, Hadd. reflexivity.
  - eapply yields_bind; [apply yields_any|]. intros t _.
    apply yields_ret, Hadd. reflexivity.
Qed.

Lemma visit_rows_well_keyed rows : forall students,
  well_keyed students ->
  yields (visit_rows fromisoformat get_repository_info students rows) well_keyed.
Proof.
  induction rows as [|row t IH]; intros students Hwk; cbn.
  - now apply yields_ret.
  - eapply yields_bind; [now apply visit_row_well_keyed|]. intros s1 H1.
    now apply IH.
Qed.

Lemma process_assignment_try_well_keyed acc assignment :
  well_keyed (students_with_repo_info acc) ->
  yields (process_assignment_try fromisoformat get_repository_info
            download_grades_to_dataframe acc assignment)
         (fun acc' => well_keyed (students_with_repo_info acc')).
Proof.
  intros Hwk. destruct assignment as [[i n] r]. unfold process_assignment_try.
  assert (Hno : yields (log WARNING ("No grades data for assignment: " ++ n)%string ;;
                        mret acc)
                  (fun acc' => well_keyed (students_with_repo_info acc'))).
  { eapply yields_bind; [apply yields_any|]. intros _ _. now apply yields_ret. }
  destruct (download_grades_to_dataframe i) as [[|row rows]|]; try exact Hno.
  generalize (row :: rows). intros df.
  destruct (format_assignment_name n) as [formatted_name|e].
  - eapply yields_bind; [apply yields_any|]. intros _ _.
    eapply yields_bind; [now apply visit_rows_well_keyed|]. intros s1 H1.
    now apply yields_ret.
  - intros st a st' H. discriminate.
Qed.

Lemma process_assignments_well_keyed assignment_data : forall acc,
  well_keyed (students_with_repo_info acc) ->
  yields (process_assignments fromisoformat get_repository_info
            download_grades_to_dataframe acc assignment_data)
         (fun acc' => well_keyed (students_with_repo_info acc')).
Proof.
  induction assignment_data as [|a t IH]; intros acc Hwk; cbn.
  - now apply yields_ret.
  - eapply yields_bind; [|intros acc1 H1; apply IH; exact H1].
    intros st acc1 st1 H. unfold catch in H.
    destruct (process_assignment_try _ _ _ acc a st) as [[acc2|e] st2] eqn:E.
    + injection H as <- _. eapply process_assignment_try_well_keyed; eauto.
    + unfold mbind, M_bind, log, mret, M_ret in H. now injection H as <- _.
Qed.

End DictionaryFacts.

Lemma student_record_keys (students : list (string * StudentInfo.t)) :
  well_keyed students ->
  map StudentRecord.github_username (map student_record (map snd students))
  = map fst students.
Proof.
  intros [_ Hall]. induction Hall as [|kv l [Hu Hs] _ IH]; [reflexivity|].
  cbn. rewrite IH. f_equal. now rewrite Hu, Hs.
Qed.

(** ** Records that share a key *)

Section AssignmentRecords.
Variable fromisoformat : string -> option datetime.
Variable get_repository_info : url_cell -> option RepoInfo.t.
Variable download_grades_to_dataframe : string -> option (list Row.t).

Local Abbreviation record_of := (assignment_info_of download_grades_to_dataframe).

Lemma process_assignment_try_info acc assignment :
  yields (process_assignment_try fromisoformat get_repository_info
            download_grades_to_dataframe acc assignment)
    (fun acc' =>
       assignment_info acc' = assignment_info acc ++ option_list (record_of assignment) /\
       length (all_grades acc')
       = (length (all_grades acc) + length (option_list (record_of assignment)))%nat).
Proof.
  destruct assignment as [[i n] r].
  unfold process_assignment_try, assignment_info_of. cbn [fst snd].
  assert (Hno : forall msg : string,
             yields (log WARNING msg ;; mret acc)
               (fun acc' =>
                  assignment_info acc' = assignment_info acc ++ [] /\
                  length (all_grades acc') = (length (all_grades acc) + 0)%nat)).
  { intros msg. eapply yields_bind; [apply yields_any|]. intros _ _.
    apply yields_ret. now rewrite app_nil_r, Nat.add_0_r. }
  destruct (download_grades_to_dataframe i) as [[|row rows]|]; try apply Hno.
  generalize (row :: rows). intros df.
  destruct (format_assignment_name n) as [formatted_name|e].
  - eapply yields_bind; [apply yields_any|]. intros _ _.
    eapply yields_bind; [apply yields_any|]. intros s1 _.
    apply yields_ret. cbn. split; [reflexivity|]. now rewrite length_app.
  - intros st a st' H. discriminate.
Qed.

Lemma omap_cons_list {A B : Type} (f : A -> option B) a (t : list A) :
  omap f (a :: t) = option_list (f a) ++ omap f t.
Proof. cbn. now destruct (f a). Qed.

Lemma process_assignments_info assignment_data : forall acc,
  yields (process_assignments fromisoformat get_repository_info
            download_grades_to_dataframe acc assignment_data)
    (fun acc' =>
       assignment_info acc' = assignment_info acc ++ omap record_of assignment_data /\
       length (all_grades acc')
       = (length (all_grades acc) + length (omap record_of assignment_data))%nat).
Proof.
  induction assignment_data as [|a t IH]; intros acc.
  - apply yields_ret. cbn. now rewrite app_nil_r, Nat.add_0_r.
  - intros st acc' st' H. cbn [process_assignments] in H.
    apply bind_inv in H as [(e & ? & _) | (acc1 & st1 & H1 & H2)]; [discriminate|].
    apply IH in H2 as [Hi Hg]. rewrite omap_cons_list.
    assert (H0 : assignment_info acc1
                 = assignment_info acc ++ option_list (record_of a) /\
                 length (all_grades acc1)
                 = (length (all_grades acc) + length (option_list (record_of a)))%nat).
    { unfold catch in H1.
      destruct (process_assignment_try _ _ _ acc a st) as [[acc2|e] st2] eqn:E.
      - injection H1 as <- _. eapply process_assignment_try_info; eauto.
      - unfold mbind, M_bind, log, mret, M_ret in H1. injection H1 as <- _.
        destruct a as [[i n] r]. revert E.
        unfold process_assignment_try, assignment_info_of. cbn [fst snd].
        destruct (download_grades_to_dataframe i) as [[|row rows]|];
          try discriminate.
        destruct (format_assignment_name n) as [formatted_name|e'].
        + intros E. exfalso.
          apply bind_inv in E as [(e1 & _ & E) | (? & st3 & _ & E)].
          * destruct (decide _); discriminate.
          * destruct (visit_rows_only_logs fromisoformat get_repository_info
                        (row :: rows) (students_with_repo_info acc)) as [s1 Hs].
            apply bind_inv in E as [(e1 & _ & E) | (? & st4 & _ & E)];
              [|discriminate].
            destruct (Hs st3) as [l Hl]. congruence.
        + intros _. now rewrite app_nil_r, Nat.add_0_r. }
    destruct H0 as [H0i H0g]. rewrite Hi, Hg, H0i, H0g, length_app, app_assoc.
    split; [reflexivity | lia].
Qed.

End AssignmentRecords.

Lemma no_space_strip (s : string) : no_space s = true -> strip s = s.
Proof.
  intros H. apply strip_chars_kept.
  - intros c Hc. destruct s as [|x t]; [discriminate|]. injection Hc as <-.
    cbn in H. apply andb_prop in H as [H _]. now apply negb_true_iff.
  - now apply no_space_kept_last.
Qed.

Lemma slug_no_space name slug :
  format_assignment_name name = Ok slug -> no_space slug = true.
Proof.
  intros H. apply slug_shape in H as [H _].
  eapply string_forall_impl; [|exact H].
  intros c Hc. now rewrite (slug_alphabet_not_space c Hc).
Qed.

Lemma assignment_record_names (download : string -> option (list Row.t))
    (assignment_data : list (string * string * string)) :
  map Assignment.name
    (map assignment_record (omap (assignment_info_of download) assignment_data))
  = map AssignmentInfo.name (omap (assignment_info_of download) assignment_data).
Proof.
  induction assignment_data as [|a t IH]; [reflexivity|]. rewrite omap_cons_list.
  destruct (assignment_info_of download a) as [info|] eqn:E; [|exact IH].
  cbn. rewrite IH. f_equal. unfold assignment_info_of in E.
  destruct (download a.1.1) as [[|row rows]|]; try discriminate.
  destruct (format_assignment_name a.1.2) as [slug|e] eqn:Ef; [|discriminate].
  injection E as <-. cbn. apply no_space_strip. eapply slug_no_space, Ef.
Qed.

Lemma sync_failure_class what e : exn_cls (sync_failure what e) = SupabaseSyncError.
Proof. unfold sync_failure. now destruct (exn_class_eqb _ _). Qed.

(** ** Batches *)

Lemma batches_length {A : Type} (data : list A) :
  length (batches data) = ((length data + 9) / 10)%nat.
Proof.
  unfold batches, range_step, batch_size. rewrite !length_map, length_seq.
  f_equal. lia.
Qed.

Lemma batches_lookup {A : Type} (data : list A) (i : nat) b :
  batches data !! i = Some b ->
  b = firstn 10 (skipn (i * 10) data) /\ (i * 10 < length data)%nat.
Proof.
  unfold batches, range_step, batch_size, slice.
  rewrite !list_lookup_fmap. intros H.
  destruct (seq 0 ((length data + 10 - 1) / 10) !! i) as [j|] eqn:E; [|discriminate].
  apply lookup_seq in E as [-> Hi]. cbn in H. injection H as <-.
  split; [reflexivity|].
  assert (Hdiv : (10 * ((length data + 10 - 1) / 10) <= length data + 10 - 1)%nat)
    by (apply Nat.Div0.mul_div_le).
  lia.
Qed.

Lemma batches_sizes {A : Type} (data : list A) (i : nat) b :
  batches data !! i = Some b ->
  (1 <= length b <= 10)%nat /\
  ((S i < length (batches data))%nat -> length b = 10%nat).
Proof.
  intros H. apply batches_lookup in H as [-> Hi].
  rewrite length_firstn, length_skipn. split; [lia|].
  rewrite batches_length. intros Hlast.
  assert (Hdiv : (10 * ((length data + 9) / 10) <= length data + 9)%nat)
    by (apply Nat.Div0.mul_div_le).
  lia.
Qed.

(** ** The order of the students table *)

Lemma NoDup_map_inj {A B : Type} (f : A -> B) (l : list A) x y :
  NoDup (map f l) -> x ∈ l -> y ∈ l -> f x = f y -> x = y.
Proof.
  induction l as [|a l IH]; intros Hnd Hx Hy Hf; [now apply elem_of_nil in Hx|].
  cbn in Hnd. apply NoDup_cons in Hnd as [Ha Hnd].
  apply elem_of_cons in Hx as [-> | Hx]; apply elem_of_cons in Hy as [-> | Hy].
  - reflexivity.
  - exfalso. apply Ha. rewrite Hf. now apply list_elem_of_fmap_2.
  - exfalso. apply Ha. rewrite <- Hf. now apply list_elem_of_fmap_2.
  - now apply IH.
Qed.

Lemma sorted_unique {A : Type} (R : A -> A -> Prop) (l1 : list A) : forall l2,
  StronglySorted R l1 -> StronglySorted R l2 -> Permutation l1 l2 ->
  (forall x y, x ∈ l1 -> y ∈ l1 -> R x y -> R y x -> x = y) ->
  l1 = l2.
Proof.
  induction l1 as [|x l1 IH]; intros l2 H1 H2 Hp Hanti.
  - now apply Permutation_nil in Hp.
  - destruct l2 as [|y l2]; [now apply Permutation_sym, Permutation_nil in Hp|].
    apply StronglySorted_inv in H1 as [H1 Hx].
    apply StronglySorted_inv in H2 as [H2 Hy].
    rewrite Forall_forall in Hx, Hy.
    assert (Hxy : x = y).
    { assert (Hx2 : x ∈ y :: l2) by (rewrite <- Hp; apply list_elem_of_here).
      assert (Hy1 : y ∈ x :: l1) by (rewrite Hp; apply list_elem_of_here).
      apply elem_of_cons in Hx2 as [E | Hx2]; [exact E|].
      apply elem_of_cons in Hy1 as [E | Hy1]; [now symmetry|].
      apply Hanti.
      - apply list_elem_of_here.
      - now apply list_elem_of_further.
      - now apply Hx.
      - now apply Hy. }
    subst y. f_equal. apply IH; auto.
    + now apply Permutation_cons_inv in Hp.
    + intros a b Ha Hb. apply Hanti; now apply list_elem_of_further.
Qed.

Lemma sort_key_username (x y : Entry.t) :
  sort_key x = sort_key y -> Entry.github_username x = Entry.github_username y.
Proof. unfold sort_key. now intros [= _ _ H]. Qed.

Lemma list_sort_order_independent (l l' : list Entry.t) :
  Permutation l l' -> NoDup (map Entry.github_username l) ->
  list_sort sort_key key_ltb l = list_sort sort_key key_ltb l'.
Proof.
  intros Hp Hnd.
  apply (sorted_unique (fun a b => key_ltb (sort_key b) (sort_key a) = false)).
  - apply list_sort_sorted;
      [apply key_ltb_irrefl | apply key_ltb_trans | apply key_ltb_negtrans].
  - apply list_sort_sorted;
      [apply key_ltb_irrefl | apply key_ltb_trans | apply key_ltb_negtrans].
  - now rewrite !list_sort_perm.
  - intros x y Hx Hy Hxy Hyx.
    rewrite (list_sort_perm sort_key key_ltb l) in Hx, Hy.
    apply (NoDup_map_inj Entry.github_username l); auto.
    apply sort_key_username. now apply key_ltb_total.
Qed.

(** ** The repository lookup *)

Lemma count_char_app c (a b : string) :
  count_char c (a ++ b) = (count_char c a + count_char c b)%nat.
Proof.
  induction a as [|x t IH]; [reflexivity|].
  rewrite string_app_cons. cbn. rewrite IH. lia.
Qed.

Lemma count_char_free c (s : string) : free_of c s = true -> count_char c s = 0%nat.
Proof.
  unfold free_of. induction s as [|x t IH]; [reflexivity|]. cbn.
  intros [Hx Ht]%andb_prop. apply negb_true_iff in Hx. now rewrite Hx, IH.
Qed.

Lemma prefix_app (a x : string) :
  String.prefix a x = true -> exists y, x = (a ++ y)%string.
Proof.
  revert x. induction a as [|c t IH]; intros x; [now exists x|].
  destruct x as [|d u]; [discriminate|]. cbn.
  destruct (ascii_dec c d) as [->|]; [|discriminate].
  intros H. apply IH in H as [y ->]. now exists y.
Qed.

Lemma prefix_app_true (a y : string) : String.prefix a (a ++ y) = true.
Proof.
  induction a as [|c t IH]; [now destruct y|]. rewrite string_app_cons. cbn.
  destruct (ascii_dec c c); [exact IH | congruence].
Qed.

(** A text with fewer [c] than [old] holds no occurrence of [old]. *)
Lemma replace_absent c (old new s : string) :
  (count_char c s < count_char c old)%nat ->
  replace_from old new 0 s = s.
Proof.
  induction s as [|x t IH]; [reflexivity|]. intros Hc.
  cbn [replace_from].
  destruct (String.prefix old (String x t)) eqn:E.
  - apply prefix_app in E as [y E]. rewrite E, count_char_app in Hc. lia.
  - f_equal. apply IH. cbn in Hc. lia.
Qed.

Lemma replace_from_skip (old new u rest : string) :
  replace_from old new (String.length u) (u ++ rest) = replace_from old new 0 rest.
Proof.
  induction u as [|x t IH]; [reflexivity|].
  rewrite string_app_cons. exact IH.
Qed.

Lemma replace_prefix (old new rest : string) :
  old <> "" ->
  replace old new (old ++ rest) = (new ++ replace old new rest)%string.
Proof.
  intros H0. unfold replace. destruct old as [|c t]; [congruence|].
  rewrite string_app_cons. cbn [replace_from].
  rewrite <- string_app_cons, prefix_app_true. f_equal.
  replace (String.length (String c t) - 1)%nat with (String.length t)
    by (cbn [String.length]; lia).
  apply replace_from_skip.
Qed.

Lemma repository_path (owner repo : string) :
  free_of slash owner = true -> free_of slash repo = true ->
  split_on slash
    (replace "https://github.com/" "" ("https://github.com/" ++ owner ++ "/" ++ repo))
  = [owner; repo].
Proof.
  intros Ho Hr. rewrite replace_prefix by discriminate. rewrite string_app_nil_l.
  unfold replace. rewrite (replace_absent slash).
  - change ("/" ++ repo)%string with (String slash repo).
    now rewrite split_on_app, split_on_free.
  - rewrite !count_char_app, (count_char_free _ _ Ho), (count_char_free _ _ Hr).
    cbn. lia.
Qed.

Lemma repository_path_longer (owner repo more : string) :
  free_of slash owner = true -> free_of slash repo = true ->
  free_of slash more = true ->
  split_on slash
    (replace "https://github.com/" ""
       ("https://github.com/" ++ owner ++ "/" ++ repo ++ "/" ++ more))
  = [owner; repo; more].
Proof.
  intros Ho Hr Hm. rewrite replace_prefix by discriminate. rewrite string_app_nil_l.
  unfold replace. rewrite (replace_absent slash).
  - change ("/" ++ repo ++ "/" ++ more)%string
      with (String slash (repo ++ String slash more)).
    now rewrite split_on_app, split_on_app, split_on_free.
  - rewrite !count_char_app, (count_char_free _ _ Ho), (count_char_free _ _ Hr),
      (count_char_free _ _ Hm).
    cbn. lia.
Qed.

(** ** Refused and accepted upserts *)

Lemma store_eta s :
  mk_store (students s) (assignments s) (grades s) (admin_leaderboard s) = s.
Proof. now destruct s. Qed.

Lemma assignments_effect_refused max_retries data s :
  0 < max_retries ->
  ~ NoDup (map Assignment.name (map assignment_record data)) ->
  assignments_effect max_retries data s
  = (Raise (sync_failure "assignments" second_time_violation), s).
Proof.
  intros Hm Hnd. unfold assignments_effect, upsert_effect, upsert_rows.
  destruct data as [|a t]; [exfalso; apply Hnd; constructor|].
  apply Z.ltb_lt in Hm. rewrite Hm.
  destruct (distinct_keys Assignment.name _) eqn:E; [|reflexivity].
  apply distinct_keys_NoDup in E. contradiction.
Qed.

Lemma assignments_effect_accepted max_retries data s :
  0 < max_retries ->
  NoDup (map Assignment.name (map assignment_record data)) ->
  assignments_effect max_retries data s
  = (Ok tt,
     mk_store (students s)
       (fold_left
          (fun t p => upsert_row Assignment.name Assignment.name write_assignment p t)
          (map assignment_record data) (assignments s))
       (grades s) (admin_leaderboard s)).
Proof.
  intros Hm Hnd. unfold assignments_effect, upsert_effect, upsert_rows.
  destruct data as [|a t]; [cbn; now rewrite store_eta|].
  apply Z.ltb_lt in Hm. rewrite Hm.
  apply distinct_keys_NoDup in Hnd. now rewrite Hnd.
Qed.

Lemma students_effect_accepted max_retries data s :
  0 < max_retries ->
  NoDup (map StudentRecord.github_username (map student_record data)) ->
  students_effect max_retries data s
  = (Ok tt,
     mk_store
       (fold_left
          (fun t p => upsert_row StudentRecord.github_username Student.github_username
                        write_student p t)
          (map student_record data) (students s))
       (assignments s) (grades s) (admin_leaderboard s)).
Proof.
  intros Hm Hnd. unfold students_effect, upsert_effect, upsert_rows.
  destruct data as [|a t]; [cbn; now rewrite store_eta|].
  apply Z.ltb_lt in Hm. rewrite Hm.
  apply distinct_keys_NoDup in Hnd. now rewrite Hnd.
Qed.

Lemma grades_effect_refused max_retries grades_df records s :
  0 < max_retries ->
  all_ok (map grade_record_result grades_df) = Ok records ->
  ~ NoDup (map grade_key (omap id records)) ->
  grades_effect max_retries grades_df s
  = (Raise (sync_failure "grades" second_time_violation), s).
Proof.
  intros Hm Hrec Hnd. unfold grades_effect.
  destruct grades_df as [|g t].
  { cbn in Hrec. injection Hrec as <-. exfalso. apply Hnd. constructor. }
  rewrite Hrec.
  destruct (omap id records) as [|r rs] eqn:Er; [exfalso; apply Hnd; constructor|].
  unfold upsert_effect, upsert_rows. apply Z.ltb_lt in Hm. rewrite Hm.
  destruct (distinct_keys grade_key (r :: rs)) eqn:E; [|reflexivity].
  apply distinct_keys_NoDup in E. contradiction.
Qed.

Lemma all_ok_map {A B : Type} (g : A -> outcome B) (l : list A) (d : list B) :
  all_ok (map g l) = Ok d <-> map g l = map Ok d.
Proof.
  revert d. induction l as [|a l IH]; intros d; cbn.
  - split; [now intros [= <-] | intros H; now destruct d].
  - destruct (g a) as [b|e].
    + destruct (all_ok (map g l)) as [bs|e] eqn:E.
      * split.
        -- intros [= <-]. cbn. f_equal. now apply IH.
        -- destruct d as [|b' d]; [discriminate|]. cbn. intros [= -> H].
           apply IH in H. now injection H as ->.
      * split; [discriminate|].
        destruct d as [|b' d]; [discriminate|]. cbn. intros [= -> H].
        apply IH in H. discriminate.
    + split; [discriminate|]. destruct d; discriminate.
Qed.

Lemma all_ok_Permutation {A B : Type} (g : A -> outcome B) (l l' : list A)
    (d d' : list B) :
  Permutation l l' ->
  all_ok (map g l) = Ok d -> all_ok (map g l') = Ok d' -> Permutation d d'.
Proof.
  intros Hp Hd Hd'. apply all_ok_map in Hd, Hd'.
  assert (H : Permutation (map Ok d) (map Ok d'))
    by (rewrite <- Hd, <- Hd'; now apply Permutation_map).
  apply Permutation_map_inv in H as (d2 & Heq & Hp2).
  assert (d2 = d) as ->; [|now symmetry].
  clear -Heq. revert d Heq. induction d2 as [|x d2 IH]; intros [|y d] H;
    try discriminate; [reflexivity|].
  cbn in H. injection H as <- H. f_equal. now apply IH.
Qed.

(** The record of a row whose points are not infinite. *)
Lemma grade_record_result_finite row :
  GradeRow.points_awarded row <> CInf ->
  grade_record_result row = Ok (grade_of row).
Proof.
  intros H. unfold grade_record_result, grade_of.
  destruct (GradeRow.points_awarded row) as [z|x| | |s]; try reflexivity.
  - congruence.
  - cbn. destruct (int_of_text s); reflexivity.
Qed.

Lemma all_ok_finite_rows (grades_df : list GradeRow.t) :
  Forall (fun row => GradeRow.points_awarded row <> CInf) grades_df ->
  all_ok (map grade_record_result grades_df) = Ok (map grade_of grades_df).
Proof.
  induction 1 as [|row t H _ IH]; [reflexivity|].
  cbn [map all_ok]. now rewrite (grade_record_result_finite row H), IH.
Qed.

Lemma omap_id_map {A B : Type} (f : A -> option B) (l : list A) :
  omap id (map f l) = omap f l.
Proof. induction l as [|a l IH]; [reflexivity|]. cbn. now rewrite IH. Qed.

(** ** The command of the assignments listing *)

Lemma split_whitespace_command (classroom_id : string) :
  classroom_id <> "" -> no_space classroom_id = true ->
  split_whitespace ("gh classroom assignments -c " ++ classroom_id)
  = ["gh"; "classroom"; "assignments"; "-c"; classroom_id].
Proof.
  intros H0 Hw.
  change ("gh classroom assignments -c " ++ classroom_id)%string
    with (join " " ["gh"; "classroom"; "assignments"; "-c"] ++ " " ++ classroom_id)%string.
  pose proof (split_whitespace_join " "
                ["gh"; "classroom"; "assignments"; "-c"; classroom_id]) as H.
  change (join " " ["gh"; "classroom"; "assignments"; "-c"; classroom_id])
    with (join " " ["gh"; "classroom"; "assignments"; "-c"] ++ " " ++ classroom_id)%string
    in H.
  apply H; [discriminate | reflexivity|].
  repeat constructor; try discriminate; assumption.
Qed.

Section ListingResults.
Variable subprocess_run : list string -> Z -> completed_process.
Variable config : SyncConfig.t.

Lemma get_classroom_id_returns classroom_name output classrooms classroom_id st :
  subprocess_run ["gh"; "classroom"; "list"] (SyncConfig.timeout_seconds config)
  = Completed output ->
  _parse_classroom_list output = Ok classrooms ->
  fst <$> List.find (fun c => String.eqb c.2 classroom_name) classrooms
  = Some classroom_id ->
  get_classroom_id subprocess_run config classroom_name st
  = (Returns (Some classroom_id), st).
Proof.
  intros Hrun Hparse Hfind.
  unfold get_classroom_id, cli_errors, rescue, mbind, Job_bind, _execute_gh_command.
  change (split_whitespace "gh classroom list") with ["gh"; "classroom"; "list"].
  rewrite Hrun. cbn. rewrite Hparse. cbn.
  destruct (List.find _ classrooms) as [[i n]|]; [|discriminate].
  cbn in Hfind. now injection Hfind as ->.
Qed.

Lemma get_assignments_returns classroom_id output assignment_data st :
  classroom_id <> "" -> no_space classroom_id = true ->
  subprocess_run ["gh"; "classroom"; "assignments"; "-c"; classroom_id]
    (SyncConfig.timeout_seconds config) = Completed output ->
  _parse_assignments_list output = Ok assignment_data ->
  get_assignments subprocess_run config classroom_id st
  = (Returns assignment_data, st).
Proof.
  intros H0 Hw Hrun Hparse.
  unfold get_assignments, cli_errors, rescue, mbind, Job_bind, _execute_gh_command.
  rewrite split_whitespace_command by assumption.
  rewrite Hrun. cbn. now rewrite Hparse.
Qed.

End ListingResults.

(** ** Counting the errors of the log *)

Lemma errors_repeat n what e : errors n (repeat (error_of what e) n).
Proof.
  split; [apply repeat_length|].
  apply Forall_forall. intros r Hr. apply list_elem_of_In in Hr.
  apply repeat_spec in Hr. now subst r.
Qed.

(** ** The keys of upserted rows *)

Section UpsertKeys.
Context {P R K : Type} `{EqDecision K}.
Variable key_p : P -> K.
Variable key_r : R -> K.
Variable write : P -> option R -> R.
Hypothesis write_key_new : forall p, key_r (write p None) = key_p p.
Hypothesis write_key_old :
  forall p r, key_r r = key_p p -> key_r (write p (Some r)) = key_p p.

(** After the upsert of rows, the table has a row for the key of each. *)
Lemma upsert_all_keys ps : forall (tbl : list R) p,
  (p ∈ ps \/ key_p p ∈ map key_r tbl) ->
  key_p p ∈ map key_r (fold_left (fun t q => upsert_row key_p key_r write q t) ps tbl).
Proof.
  induction ps as [|q t IH]; intros tbl p Hp; cbn.
  - destruct Hp as [Hp | Hp]; [now apply elem_of_nil in Hp | exact Hp].
  - apply IH. destruct Hp as [Hp | Hp].
    + apply elem_of_cons in Hp as [-> | Hp]; [right | now left].
      apply has_key_elem.
      now apply (upsert_row_gets_key key_p key_r write write_key_new write_key_old).
    + right. apply has_key_elem.
      apply (upsert_row_has_key key_p key_r write write_key_new write_key_old).
      now apply has_key_elem.
Qed.

End UpsertKeys.

(** * Further properties of the code *)

(** ** Slugs of assignment names *)

(** Property X1.  Every slug [format_assignment_name] returns for an
    ASCII name is made of lowercase letters, digits and hyphens, neither
    starts nor ends with a hyphen, and has no two hyphens in a row. *)
Theorem X1_slug_shape (name slug : string) :
  ascii_text name ->
  format_assignment_name name = Ok slug ->
  string_forall slug_alphabet slug = true /\
  first_char slug <> Some hyphen /\
  last_char slug <> Some hyphen /\
  no_run hyphen slug = true.
Proof.
  intros _ H. apply slug_shape in H as (Ha & Hf & Hl & Hn).
  split; [exact Ha|]. split; [now apply kept_first_hyphen|].
  split; [now apply kept_last_hyphen | exact Hn].
Qed.

(** The shape of the slug of a name with capitals, spaces, a hyphen and
    punctuation. *)
Lemma X1_slug_shape_witness :
  format_assignment_name "The Moria Mining Codex - Part 2!"
  = Ok "the-moria-mining-codex-part-2" /\
  no_run hyphen "the-moria-mining-codex-part-2" = true.
Proof.
  split; [reflexivity|].
  apply (X1_slug_shape "The Moria Mining Codex - Part 2!"
           "the-moria-mining-codex-part-2"); reflexivity.
Defined.

(** Property X2.  [format_assignment_name] is idempotent: the slug of
    an ASCII name, when it is not empty, is its own slug. *)
Theorem X2_slug_idempotent (name slug : string) :
  ascii_text name ->
  format_assignment_name name = Ok slug -> slug <> "" ->
  format_assignment_name slug = Ok slug.
Proof.
  intros _ H H0. apply slug_shape in H as (Ha & Hf & Hl & Hn).
  now apply slug_fixed.
Qed.

(** The slug of that name is its own slug. *)
Lemma X2_slug_idempotent_witness :
  format_assignment_name "the-moria-mining-codex-part-2"
  = Ok "the-moria-mining-codex-part-2".
Proof.
  apply (X2_slug_idempotent "The Moria Mining Codex - Part 2!");
    [reflexivity | reflexivity | discriminate].
Defined.

(** Property X3.  [format_assignment_name] raises for the empty name
    only; for any other ASCII name it returns a slug, which is empty
    exactly when the name holds no letter and no digit. *)
Theorem X3_slug_empty (name : string) :
  ascii_text name -> name <> "" ->
  exists slug,
    format_assignment_name name = Ok slug /\
    (slug = "" <-> string_exists is_alnum name = false).
Proof.
  intros _ H0. rewrite (format_assignment_name_value name H0).
  eexists. split; [reflexivity|].
  apply (slug_empty name). now apply format_assignment_name_value.
Qed.

(** A name of punctuation has the empty slug, which is not a name. *)
Lemma X3_slug_empty_witness :
  format_assignment_name "?! -- !?" = Ok "" /\
  format_assignment_name ""
  = Raise (Exn DataValidationError "Assignment name must be a non-empty string") /\
  exists slug,
    format_assignment_name "?! -- !?" = Ok slug /\
    (slug = "" <-> string_exists is_alnum "?! -- !?" = false).
Proof.
  split; [reflexivity|]. split; [reflexivity|].
  apply (X3_slug_empty "?! -- !?"); [reflexivity | discriminate].
Defined.

(** ** The listings of the GitHub command line *)

(** Property X4.  [_parse_classroom_list] reads back an ASCII listing:
    after three header lines (the first starting with a visible
    character), from rows of words separated by whitespace, it returns
    the first two words of each row, in order. *)
Theorem X4_classroom_listing_parsed (h1 h2 h3 gap : string)
    (rows : list (string * string * list string)) (tail : string) :
  ascii_text
    (listing [h1; h2; h3]
       (map (fun row => join gap (row.1.1 :: row.1.2 :: row.2)) rows) tail) ->
  h1 <> "" -> kept_first is_space h1 ->
  Forall (fun h => free_of newline h = true) [h1; h2; h3] ->
  gap <> "" -> string_forall is_space gap = true -> free_of newline gap = true ->
  rows <> [] ->
  Forall (fun row => Forall (fun w => w <> "" /\ no_space w = true)
                       (row.1.1 :: row.1.2 :: row.2)) rows ->
  string_forall is_space tail = true ->
  _parse_classroom_list
    (listing [h1; h2; h3]
       (map (fun row => join gap (row.1.1 :: row.1.2 :: row.2)) rows) tail)
  = Ok (map fst rows).
Proof. intros _. apply parse_classroom_list_listing. Qed.

(** A listing of two classrooms, each row with its id, its name and its
    address. *)
Lemma X4_classroom_listing_parsed_witness :
  _parse_classroom_list classroom_listing
  = Ok [("101", "B4OS-Dev-2025"); ("102", "Rust-Basics")].
Proof.
  apply (X4_classroom_listing_parsed "2 Available Classrooms" "" "ID   Name   URL"
           "   " classroom_rows (String newline "")).
  - reflexivity.
  - discriminate.
  - intros c [= <-]. reflexivity.
  - repeat constructor.
  - discriminate.
  - reflexivity.
  - reflexivity.
  - discriminate.
  - repeat constructor; discriminate.
  - reflexivity.
Defined.

(** Property X5.  [_parse_assignments_list] reads back an ASCII
    listing: after three header lines, from rows of at least seven
    fields separated by tabs, each row ending with a visible character,
    it returns the first, the second and the seventh field of each row,
    in order. *)
Theorem X5_assignment_listing_parsed (h1 h2 h3 : string)
    (rows : list (list string)) (tail : string) :
  ascii_text (listing [h1; h2; h3] (map (join (String tab "")) rows) tail) ->
  h1 <> "" -> kept_first is_space h1 ->
  Forall (fun h => free_of newline h = true) [h1; h2; h3] ->
  rows <> [] ->
  Forall (fun row =>
            (7 <= length row)%nat /\
            Forall (fun f => free_of tab f = true /\ free_of newline f = true) row /\
            exists x, last row = Some x /\ ends_visibly x) rows ->
  string_forall is_space tail = true ->
  _parse_assignments_list
    (listing [h1; h2; h3] (map (join (String tab "")) rows) tail)
  = Ok (map (fun row => (nth 0 row "", nth 1 row "", nth 6 row "")) rows).
Proof. intros _. apply parse_assignments_list_listing. Qed.

(** A listing of two assignments, each row of ten fields, the deadline
    being empty. *)
Lemma X5_assignment_listing_parsed_witness :
  _parse_assignments_list assignment_listing
  = Ok [("1", "Part 1", "B4OS-Dev/part-1"); ("2", "Part 2", "B4OS-Dev/part-2")].
Proof.
  apply (X5_assignment_listing_parsed "2 Assignments for B4OS-Dev-2025" ""
           "ID  Title  Public  Type  Deadline  Editor  Repository  Accepted  Submissions  Passing"
           assignment_rows (String newline "")).
  - reflexivity.
  - discriminate.
  - intros c [= <-]. reflexivity.
  - repeat constructor.
  - discriminate.
  - repeat constructor; cbn; try lia;
      eexists; (split; [reflexivity|]); (split; [discriminate|]);
      intros c [= <-]; reflexivity.
  - reflexivity.
Defined.

(** Property X6.  [get_classroom_id] and [get_assignments] fail with a
    GitHubCLIError and nothing else, whatever the command line does and
    prints (a listing that does not parse included), and they send
    nothing to the store. *)
Theorem X6_listing_failures (subprocess_run : list string -> Z -> completed_process)
    (config : SyncConfig.t) :
  (forall classroom_name st f st',
      get_classroom_id subprocess_run config classroom_name st = (Fails f, st') ->
      exists msg, f = GitHubCLIError msg) /\
  (forall classroom_id st f st',
      get_assignments subprocess_run config classroom_id st = (Fails f, st') ->
      exists msg, f = GitHubCLIError msg) /\
  (forall classroom_name, quiet (get_classroom_id subprocess_run config classroom_name)) /\
  (forall classroom_id, quiet (get_assignments subprocess_run config classroom_id)).
Proof.
  split; [intros n st f st'; apply cli_errors_fails|].
  split; [intros i st f st'; apply cli_errors_fails|].
  split; [apply quiet_get_classroom_id | apply quiet_get_assignments].
Qed.

(** An output that is not a listing: the DataValidationError of the
    parser comes out as a GitHubCLIError. *)
Lemma X6_listing_failures_witness :
  (get_classroom_id broken_cli class_config "B4OS-Dev-2025" (initial empty_store)).1
  = Fails (GitHubCLIError "Unexpected error: Invalid classroom list format") /\
  exists msg,
    GitHubCLIError "Unexpected error: Invalid classroom list format"
    = GitHubCLIError msg.
Proof.
  split; [reflexivity|].
  destruct (X6_listing_failures broken_cli class_config) as (Hfails & _).
  apply (Hfails "B4OS-Dev-2025" (initial empty_store) _
           (get_classroom_id broken_cli class_config "B4OS-Dev-2025"
              (initial empty_store)).2).
  reflexivity.
Defined.

(** ** The whole run *)

(** Property X7.  The names [_parse_classroom_list] returns are single
    words.  So for a classroom name that is empty or holds whitespace,
    [get_classroom_id] never returns an id, and [run_sync] fails with a
    GitHubCLIError without sending anything to the store. *)
Theorem X7_classroom_name_not_a_word
    (subprocess_run : list string -> Z -> completed_process)
    (requests_get : string -> option string -> http_reply)
    (env : gmap string string) (config : SyncConfig.t)
    (fault : nat -> call -> option exn)
    (fromisoformat : string -> option datetime)
    (download_grades_to_dataframe : string -> option (list Row.t)) (st : state) :
  SyncConfig.classroom_name config = "" \/
  no_space (SyncConfig.classroom_name config) = false ->
  (forall classroom_id,
      (get_classroom_id subprocess_run config (SyncConfig.classroom_name config) st).1
      <> Returns (Some classroom_id)) /\
  exists msg st',
    run_sync subprocess_run requests_get env config fault fromisoformat
      download_grades_to_dataframe st
    = (Fails (GitHubCLIError msg), st') /\
    db st' = db st /\ journal st' = journal st.
Proof.
  intros Hname.
  destruct (get_classroom_id_not_a_word subprocess_run config
              (SyncConfig.classroom_name config) st Hname)
    as (st1 & Hid & Hdb & Hj).
  split.
  - intros classroom_id. destruct Hid as [-> | [msg ->]]; discriminate.
  - unfold run_sync, rescue, run_sync_try, mbind, Job_bind.
    destruct Hid as [-> | [msg ->]]; cbn; eauto.
Qed.

(** A classroom name of three words, with a listing that has a
    classroom "B4OS": the run stops at the lookup of the classroom. *)
Lemma X7_classroom_name_not_a_word_witness :
  let config :=
    SyncConfig.mk "https://example.supabase.co" "key" "B4OS Dev 2025" None "INFO" 3 30 in
  exists msg st',
    run_sync class_cli offline ∅ config no_fault fromisoformat_reader class_extract
      (initial class_store)
    = (Fails (GitHubCLIError msg), st') /\
    db st' = class_store /\ journal st' = [].
Proof.
  intros config.
  apply (X7_classroom_name_not_a_word class_cli offline ∅ config no_fault
           fromisoformat_reader class_extract (initial class_store)).
  right. reflexivity.
Defined.

(** Property X8.  When no assignment has an extract with rows,
    [run_sync] sends nothing to the store, whatever the command line
    answers: not even the leaderboard is refreshed. *)
Theorem X8_run_sync_without_extracts
    (subprocess_run : list string -> Z -> completed_process)
    (requests_get : string -> option string -> http_reply)
    (env : gmap string string) (config : SyncConfig.t)
    (fault : nat -> call -> option exn)
    (fromisoformat : string -> option datetime)
    (download_grades_to_dataframe : string -> option (list Row.t)) (st : state) :
  (forall assignment_id,
      download_grades_to_dataframe assignment_id = None \/
      download_grades_to_dataframe assignment_id = Some []) ->
  db (run_sync subprocess_run requests_get env config fault fromisoformat
        download_grades_to_dataframe st).2 = db st /\
  journal (run_sync subprocess_run requests_get env config fault fromisoformat
             download_grades_to_dataframe st).2 = journal st.
Proof.
  intros Hd.
  destruct (quiet_run_sync_without_extracts subprocess_run requests_get env config
              fault fromisoformat download_grades_to_dataframe Hd st) as [l ->].
  split; reflexivity.
Qed.

(** The classroom of the listing with no extract at all: the run
    returns normally and the store keeps its stale leaderboard. *)
Lemma X8_run_sync_without_extracts_witness :
  let run :=
    run_sync class_cli offline ∅ class_config no_fault fromisoformat_reader
      (fun _ => None) (initial class_store) in
  run.1 = Returns tt /\ db run.2 = class_store /\ journal run.2 = [].
Proof.
  intros run. split; [reflexivity|].
  apply (X8_run_sync_without_extracts class_cli offline ∅ class_config no_fault
           fromisoformat_reader (fun _ => None) (initial class_store)).
  intros assignment_id. left. reflexivity.
Defined.

(** Property X9.  With an assignment id configured, [run_sync] depends
    on the extract of that assignment only: two runs whose extracts
    agree on it end the same way, in the same state. *)
Theorem X9_run_sync_configured_assignment
    (subprocess_run : list string -> Z -> completed_process)
    (requests_get : string -> option string -> http_reply)
    (env : gmap string string) (config : SyncConfig.t)
    (fault : nat -> call -> option exn)
    (fromisoformat : string -> option datetime)
    (download download' : string -> option (list Row.t))
    (assignment_id : string) (st : state) :
  SyncConfig.assignment_id config = Some assignment_id -> assignment_id <> "" ->
  download assignment_id = download' assignment_id ->
  run_sync subprocess_run requests_get env config fault fromisoformat download st
  = run_sync subprocess_run requests_get env config fault fromisoformat download' st.
Proof. intros Ha H0 Hd. now apply (run_sync_ext _ _ _ _ _ _ _ _ assignment_id). Qed.

(** The classroom of the listing with the second assignment configured:
    the extract of the first is not read. *)
Lemma X9_run_sync_configured_assignment_witness :
  let config :=
    SyncConfig.mk "https://example.supabase.co" "key" "B4OS-Dev-2025" (Some "2")
      "INFO" 3 30 in
  let second_only (assignment_id : string) :=
    if String.eqb assignment_id "2" then class_extract "2" else None in
  run_sync class_cli offline ∅ config no_fault fromisoformat_reader class_extract
    (initial empty_store)
  = run_sync class_cli offline ∅ config no_fault fromisoformat_reader second_only
      (initial empty_store).
Proof.
  intros config second_only.
  apply (X9_run_sync_configured_assignment class_cli offline ∅ config no_fault
           fromisoformat_reader class_extract second_only "2" (initial empty_store));
    [reflexivity | discriminate | reflexivity].
Defined.

(** ** The configuration and the retry loop *)





(** Property X12.  When the store refuses the upsert of the students at
    every attempt, [sync_students_to_supabase] sends the same upsert
    exactly [max_retries] times, logs an error for each, leaves the
    store as it was and raises a SupabaseSyncError; so does
    [sync_assignments_to_supabase] with its upsert. *)
Theorem X12_refused_upsert_is_retried (fault : nat -> call -> option exn)
    (max_retries : Z) (e : exn) (st : state) :
  0 < max_retries ->
  (forall students_data,
      students_data <> [] ->
      let request := UpsertStudents (map student_record students_data) in
      (forall n, fault n request = Some e) ->
      exists err l,
        sync_students_to_supabase fault max_retries students_data st
        = (Raise err,
           mk_state (db st)
             (journal st ++ repeat (request, Some e) (Z.to_nat max_retries))
             (logs st ++ l)) /\
        exn_cls err = SupabaseSyncError /\
        errors (Z.to_nat max_retries) l) /\
  (forall assignments_data,
      assignments_data <> [] ->
      let request := UpsertAssignments (map assignment_record assignments_data) in
      (forall n, fault n request = Some e) ->
      exists err l,
        sync_assignments_to_supabase fault max_retries assignments_data st
        = (Raise err,
           mk_state (db st)
             (journal st ++ repeat (request, Some e) (Z.to_nat max_retries))
             (logs st ++ l)) /\
        exn_cls err = SupabaseSyncError /\
        errors (Z.to_nat max_retries) l).
Proof.
  intros Hm. split.
  - intros [|s t] Hne request Hf; [congruence|].
    exists (sync_failure "students" e),
           (repeat (error_of "students" e) (Z.to_nat max_retries)).
    split; [|split; [apply sync_failure_class | apply errors_repeat]].
    unfold sync_students_to_supabase, upsert_students, range.
    apply retry_always_refused; [exact Hf | lia | lia].
  - intros [|a t] Hne request Hf; [congruence|].
    exists (sync_failure "assignments" e),
           (repeat (error_of "assignments" e) (Z.to_nat max_retries)).
    split; [|split; [apply sync_failure_class | apply errors_repeat]].
    unfold sync_assignments_to_supabase, upsert_assignments, range.
    apply retry_always_refused; [exact Hf | lia | lia].
Qed.

(** Three attempts against a store that is down. *)
Lemma X12_refused_upsert_is_retried_witness :
  let run :=
    sync_students_to_supabase store_down 3 [no_repo_info "alice"]
      (initial empty_store) in
  (exists err, run.1 = Raise err /\ exn_cls err = SupabaseSyncError) /\
  db run.2 = empty_store /\ length (journal run.2) = 3%nat /\
  length (logs run.2) = 3%nat.
Proof.
  intros run.
  destruct (X12_refused_upsert_is_retried store_down 3
              (Exn APIError "service unavailable") (initial empty_store))
    as [Hstudents _]; [lia|].
  destruct (Hstudents [no_repo_info "alice"]) as (err & l & Hrun & Hcls & Hlen & _);
    [discriminate | reflexivity |].
  unfold run. rewrite Hrun. cbn [fst snd db journal logs initial].
  split; [now exists err|]. split; [reflexivity|]. split; [reflexivity|].
  cbn [app]. exact Hlen.
Defined.

(** Property X13.  A failure of the store that ends before the attempts
    do is not seen by the caller: when the upsert of the assignments is
    refused [k] times, [k] below [max_retries], and then answered,
    [sync_assignments_to_supabase] returns normally with the rows
    upserted, after [k + 1] requests and [k] logged errors. *)
Theorem X13_transient_failure_is_absorbed (fault : nat -> call -> option exn)
    (max_retries : Z) (e : exn) (k : nat)
    (assignments_data : list AssignmentInfo.t) (st : state)
    (table : list Assignment.t) :
  assignments_data <> [] ->
  (k < Z.to_nat max_retries)%nat ->
  let request := UpsertAssignments (map assignment_record assignments_data) in
  (forall i, (i < k)%nat -> fault (length (journal st) + i)%nat request = Some e) ->
  fault (length (journal st) + k)%nat request = None ->
  upsert_rows Assignment.name Assignment.name write_assignment
    (map assignment_record assignments_data) (assignments (db st)) = Some table ->
  exists l,
    sync_assignments_to_supabase fault max_retries assignments_data st
    = (Ok tt,
       mk_state
         (mk_store (students (db st)) table (grades (db st))
            (admin_leaderboard (db st)))
         (journal st ++ repeat (request, Some e) k ++ [(request, None)])
         (logs st ++ l)) /\
    errors k l.
Proof.
  intros Hne Hk request Hbad Hgood Htable.
  destruct assignments_data as [|s t]; [congruence|].
  exists (repeat (error_of "assignments" e) k).
  split; [|apply errors_repeat].
  unfold sync_assignments_to_supabase, upsert_assignments, range.
  apply (retry_recovers fault max_retries _ _ "assignments" e _ k
           (Z.to_nat max_retries) st Hbad Hgood); [|exact Hk|lia].
  fold request in Htable |- *. cbv beta. now rewrite Htable.
Qed.

(** A store that refuses its first two requests, and three attempts. *)
Lemma X13_transient_failure_is_absorbed_witness :
  let run :=
    sync_assignments_to_supabase store_waking_up 3
      [AssignmentInfo.mk "part-1" (Some 60)] (initial empty_store) in
  run.1 = Ok tt /\
  assignments (db run.2) = [Assignment.mk "part-1" (Some 60)] /\
  length (journal run.2) = 3%nat /\ length (logs run.2) = 2%nat.
Proof.
  intros run. unfold run.
  destruct (X13_transient_failure_is_absorbed store_waking_up 3
              (Exn APIError "service unavailable") 2
              [AssignmentInfo.mk "part-1" (Some 60)]
              (initial empty_store) [Assignment.mk "part-1" (Some 60)])
    as (l & Hrun & Hlen & _).
  - discriminate.
  - cbn. lia.
  - intros i Hi. cbn.
    destruct i as [|[|i]]; [reflexivity | reflexivity | lia].
  - reflexivity.
  - reflexivity.
  - rewrite Hrun. cbn [fst snd db journal logs initial assignments app].
    split; [reflexivity|]. split; [reflexivity|]. split; [reflexivity|].
    exact Hlen.
Defined.

(** ** The refresh of the leaderboard *)

(** Property X14.  [refresh_admin_leaderboard] raises nothing but a
    SupabaseSyncError, and when it raises it has changed nothing: the
    store is as it was and the only requests sent are queries.  (A
    refresh fails before its first write or not at all.) *)
Theorem X14_failed_refresh_writes_nothing (fault : nat -> call -> option exn)
    (fromisoformat : string -> option datetime) (st st' : state) (e : exn) :
  refresh_admin_leaderboard fault fromisoformat st = (Raise e, st') ->
  exn_cls e = SupabaseSyncError /\
  db st' = db st /\
  exists js, journal st' = journal st ++ js /\ Forall (fun x => is_query x.1) js.
Proof.
  unfold refresh_admin_leaderboard, catch.
  destruct (refresh_admin_leaderboard_try fault fromisoformat st) as [[[]|e0] st1] eqn:E;
    [discriminate|].
  unfold mbind, M_bind, log, raise. intros H. injection H as <- <-.
  apply refresh_try_raises in E as (Hdb & js & Hj & Hq).
  split; [reflexivity|]. split; [exact Hdb|]. now exists js.
Qed.

(** A store that is down: the refresh fails at its first query. *)
Lemma X14_failed_refresh_writes_nothing_witness :
  let run :=
    refresh_admin_leaderboard store_down fromisoformat_reader (initial class_store) in
  exists e, run.1 = Raise e /\ exn_cls e = SupabaseSyncError /\ db run.2 = class_store.
Proof.
  intros run. eexists. split; [reflexivity|].
  destruct (X14_failed_refresh_writes_nothing store_down fromisoformat_reader
              (initial class_store) run.2 _ eq_refl) as (Hc & Hdb & _).
  split; [exact Hc | exact Hdb].
Defined.

(** Property X15.  Once the three tables are read and the entries
    computed, [refresh_admin_leaderboard] returns normally whatever
    becomes of its writes; when the store refuses all of them (the
    clear, the inserts and the upserts), the store is left as it was,
    and the caller is not told. *)
Theorem X15_refresh_hides_write_failures (fault : nat -> call -> option exn)
    (fromisoformat : string -> option datetime) (st : state) (data : list Entry.t) :
  answers fault SelectStudents -> answers fault SelectGrades ->
  answers fault SelectAssignments ->
  leaderboard_data_of fromisoformat (db st) = Ok data ->
  (refresh_admin_leaderboard fault fromisoformat st).1 = Ok tt /\
  ((forall c, is_leaderboard_write c -> refuses fault c) ->
   db (refresh_admin_leaderboard fault fromisoformat st).2 = db st).
Proof.
  intros Hs Hg Ha Hdata. split.
  - now apply (refresh_returns fault fromisoformat Hs Hg Ha st data).
  - intros Hw.
    apply (respects_refresh_refused (fun s => s = db st) fault fromisoformat Hw st).
    reflexivity.
Qed.

(** A store that can be read and not written: the refresh returns
    normally and the stale leaderboard stays. *)
Lemma X15_refresh_hides_write_failures_witness :
  let run :=
    refresh_admin_leaderboard read_only_store fromisoformat_reader
      (initial class_store) in
  run.1 = Ok tt /\ db run.2 = class_store.
Proof.
  intros run.
  destruct (X15_refresh_hides_write_failures read_only_store fromisoformat_reader
              (initial class_store)
              (match leaderboard_data_of fromisoformat_reader class_store with
               | Ok data => data
               | Raise _ => []
               end))
    as [Hok Hdb];
    [intros n; reflexivity | intros n; reflexivity | intros n; reflexivity
    | vm_compute; reflexivity |].
  split; [exact Hok|]. apply Hdb.
  intros c Hc n. destruct c; try contradiction; discriminate.
Defined.

(** ** The records of a sync *)

(** Property X16.  The dictionary of students the processing builds has
    one entry per stripped username, so the records
    [sync_students_to_supabase] sends never hold a username twice: its
    upsert cannot be refused for updating a row a second time. *)
Theorem X16_student_records_are_distinct
    (fromisoformat : string -> option datetime)
    (get_repository_info : url_cell -> option RepoInfo.t)
    (download_grades_to_dataframe : string -> option (list Row.t))
    (assignment_data : list (string * string * string))
    (st st' : state) (acc : working_set) :
  process_assignments fromisoformat get_repository_info download_grades_to_dataframe
    (mk_working_set [] [] []) assignment_data st = (Ok acc, st') ->
  let records := map student_record (map snd (students_with_repo_info acc)) in
  NoDup (map StudentRecord.github_username records) /\
  forall table,
    upsert_rows StudentRecord.github_username Student.github_username write_student
      records table <> None.
Proof.
  intros H records.
  assert (Hwk : well_keyed (students_with_repo_info acc)).
  { eapply (process_assignments_well_keyed fromisoformat get_repository_info
              download_grades_to_dataframe assignment_data (mk_working_set [] [] []));
      [|exact H].
    split; constructor. }
  assert (Hnd : NoDup (map StudentRecord.github_username records)).
  { unfold records. rewrite student_record_keys by exact Hwk. apply Hwk. }
  split; [exact Hnd|]. intros table. unfold upsert_rows.
  apply distinct_keys_NoDup in Hnd. now rewrite Hnd.
Qed.

(** The classroom of alice and bob, alice being in both extracts (once
    with spaces around her name). *)
Lemma X16_student_records_are_distinct_witness :
  let extract (assignment_id : string) :=
    if String.eqb assignment_id "1" then
      Some [Row.mk "alice" (CInt 45) (Some 60) (UrlText "https://github.com/B4OS-Dev/a");
            Row.mk "bob" (CInt 60) (Some 60) UrlNaN]
    else Some [Row.mk " alice " (CInt 30) (Some 40)
                 (UrlText "https://github.com/B4OS-Dev/b")] in
  let run :=
    process_assignments fromisoformat_reader class_repositories extract
      (mk_working_set [] [] []) class_assignments (initial empty_store) in
  match run.1 with
  | Ok acc =>
      NoDup (map StudentRecord.github_username
               (map student_record (map snd (students_with_repo_info acc))))
  | Raise _ => False
  end.
Proof.
  intros extract run.
  destruct run as [[acc|e] st'] eqn:E; cbn [fst].
  - apply (X16_student_records_are_distinct fromisoformat_reader class_repositories
             extract class_assignments (initial empty_store) st' acc E).
  - vm_compute in E. discriminate.
Defined.





(** ** Batches of the leaderboard *)

(** Property X19.  The batches of the leaderboard write are the rows in
    order, ten by ten: joined they are the leaderboard, no batch is
    empty, none has more than ten rows and all but the last have ten. *)
Theorem X19_batches_partition (leaderboard_data : list Entry.t) :
  concat (batches leaderboard_data) = leaderboard_data /\
  length (batches leaderboard_data) = ((length leaderboard_data + 9) / 10)%nat /\
  forall (i : nat) batch,
    batches leaderboard_data !! i = Some batch ->
    (1 <= length batch <= 10)%nat /\
    ((S i < length (batches leaderboard_data))%nat -> length batch = 10%nat).
Proof.
  split; [apply batches_concat|]. split; [apply batches_length|].
  intros i batch. apply batches_sizes.
Qed.

(** Twenty-three rows go in batches of ten, ten and three. *)
Lemma X19_batches_partition_witness :
  let rows := map (fun n => entry_with (String (ascii_of_nat (65 + n)) "") None 0)
                (seq 0 23) in
  map length (batches rows) = [10; 10; 3]%nat /\
  (1 <= 3 <= 10)%nat.
Proof.
  intros rows. split; [reflexivity|].
  destruct (X19_batches_partition rows) as (_ & _ & Hsize).
  apply (Hsize 2%nat (skipn 20 rows)). reflexivity.
Defined.

(** ** The repository lookup *)

(** Property X20.  For a repository url [https://github.com/owner/repo]
    [get_repository_info] asks the GitHub API for
    [/repos/owner/repo], with an Authorization header when a token is
    set, and it returns the dates and the fork flag of the reply when
    its status is 200 and its body is a JSON object, and nothing
    otherwise: it never raises. *)
Theorem X20_repository_request (requests_get : string -> option string -> http_reply)
    (env : gmap string string) (owner repo : string) :
  free_of slash owner = true -> free_of slash repo = true ->
  get_repository_info requests_get env
    (UrlText ("https://github.com/" ++ owner ++ "/" ++ repo)%string)
  = repository_of
      (requests_get ("https://api.github.com/repos/" ++ owner ++ "/" ++ repo)%string
         (authorization (env !! "GITHUB_TOKEN"))).
Proof.
  intros Ho Hr. unfold get_repository_info.
  change (String.eqb ("https://github.com/" ++ owner ++ "/" ++ repo)%string "") with false.
  cbv iota. rewrite repository_path by assumption.
  destruct (requests_get _ _) as [status json|msg]; [|reflexivity].
  unfold repository_of.
  destruct (status =? 200) eqn:E.
  - apply Z.eqb_eq in E as ->. reflexivity.
  - apply Z.eqb_neq in E.
    destruct status as [|p|p]; try reflexivity.
    repeat (destruct p as [p|p|]; try reflexivity). congruence.
Qed.

(** The fork of alice, with a token. *)
Lemma X20_repository_request_witness :
  let api (url : string) (authorization : option string) :=
    if String.eqb url "https://api.github.com/repos/B4OS-Dev/part-1-alice"
       && bool_decide (authorization = Some "token ghp_1")
    then Response 200
           (Some (RepoData.mk (Some "2024-01-01T00:00:00Z")
                    (Some "2024-01-03T01:59:59Z") (Some true)))
    else Response 404 None in
  get_repository_info api (<["GITHUB_TOKEN" := "ghp_1"]> ∅)
    (UrlText "https://github.com/B4OS-Dev/part-1-alice")
  = Some (RepoInfo.mk (Some "2024-01-01T00:00:00Z") (Some "2024-01-03T01:59:59Z") true).
Proof.
  intros api.
  pose proof (X20_repository_request api (<["GITHUB_TOKEN" := "ghp_1"]> ∅)
                "B4OS-Dev" "part-1-alice" eq_refl eq_refl) as H.
  etransitivity; [exact H | vm_compute; reflexivity].
Defined.

(** Property X21.  [get_repository_info] makes no request, and returns
    nothing, for a url cell that is missing, empty or not of the form
    [owner/repo] after the GitHub prefix (a further path segment or a
    trailing slash is enough); a row whose url cell is missing (a NaN,
    which is truthy) therefore records its student as one without a
    fork. *)
Theorem X21_repository_url_not_looked_up
    (requests_get : string -> option string -> http_reply)
    (env : gmap string string)
    (fromisoformat : string -> option datetime) :
  get_repository_info requests_get env UrlNaN = None /\
  get_repository_info requests_get env UrlDefault = None /\
  get_repository_info requests_get env (UrlText "") = None /\
  (forall owner repo more,
      free_of slash owner = true -> free_of slash repo = true ->
      free_of slash more = true ->
      get_repository_info requests_get env
        (UrlText ("https://github.com/" ++ owner ++ "/" ++ repo ++ "/" ++ more)%string)
      = None) /\
  (forall students row,
      Row.student_repository_url row = UrlNaN ->
      known (strip (Row.github_username row)) students = false ->
      exists l,
        forall st,
          visit_row fromisoformat (get_repository_info requests_get env) students row st
          = (Ok (students ++ [(strip (Row.github_username row),
                               no_repo_info (strip (Row.github_username row)))]),
             mk_state (db st) (journal st) (logs st ++ l))).
Proof.
  split; [reflexivity|]. split; [reflexivity|]. split; [reflexivity|]. split.
  - intros owner repo more Ho Hr Hmore. unfold get_repository_info.
    change (String.eqb
              ("https://github.com/" ++ owner ++ "/" ++ repo ++ "/" ++ more)%string "")
      with false.
    cbv iota. now rewrite repository_path_longer.
  - intros students row Hurl Hknown. eexists. intros st.
    unfold visit_row. rewrite Hurl, Hknown. reflexivity.
Qed.

(** A url with a trailing slash is not looked up. *)
Lemma X21_repository_url_not_looked_up_witness :
  get_repository_info offline ∅ (UrlText "https://github.com/B4OS-Dev/part-1-alice/")
  = None.
Proof.
  destruct (X21_repository_url_not_looked_up offline ∅ fromisoformat_reader)
    as (_ & _ & _ & Hlonger & _).
  apply (Hlonger "B4OS-Dev" "part-1-alice" ""); reflexivity.
Defined.

(** ** The order of the rows *)

(** Property X22.  The ranking does not depend on the order in which
    the store returns the students: for two stores that hold the same
    rows, the students in a different order, with one row per username,
    the refresh computes the same leaderboard, position by position. *)
Theorem X22_ranking_ignores_row_order (fromisoformat : string -> option datetime)
    (s s' : store) (data : list Entry.t) :
  Permutation (students s) (students s') ->
  grades s' = grades s -> assignments s' = assignments s ->
  NoDup (map Student.github_username (students s)) ->
  leaderboard_data_of fromisoformat s = Ok data ->
  exists data',
    leaderboard_data_of fromisoformat s' = Ok data' /\ rank data' = rank data.
Proof.
  intros Hp Hg Ha Hnd Hdata. unfold leaderboard_data_of in *. rewrite Hg, Ha.
  set (g := leaderboard_entry_result fromisoformat (grades s)
              (assignment_points_of (assignments s))) in *.
  assert (Hex : exists data', all_ok (map g (students s')) = Ok data').
  { assert (Hall : forall x, x ∈ students s' -> exists y, g x = Ok y).
    { intros x Hx. rewrite <- Hp in Hx.
      destruct (all_ok_elem g (students s) data x Hdata Hx) as (y & Hy & _). eauto. }
    clear -Hall. induction (students s') as [|x l IH]; [now exists []|].
    destruct (Hall x (list_elem_of_here _ _)) as [y Hy].
    destruct IH as [d Hd]; [intros z Hz; apply Hall; now apply list_elem_of_further|].
    exists (y :: d). cbn. now rewrite Hy, Hd. }
  destruct Hex as [data' Hdata']. exists data'. split; [exact Hdata'|].
  unfold rank. f_equal. apply list_sort_order_independent.
  - symmetry. exact (all_ok_Permutation g _ _ _ _ Hp Hdata Hdata').
  - assert (Hu : map Entry.github_username data'
                 = map Student.github_username (students s')).
    { apply (leaderboard_data_usernames fromisoformat
               (mk_store (students s') (assignments s) (grades s) [])).
      exact Hdata'. }
    rewrite Hu, <- Hp. exact Hnd.
Qed.

(** The class of alice and bob with its two students in the other
    order. *)
Lemma X22_ranking_ignores_row_order_witness :
  let swapped :=
    mk_store (rev (students class_store)) (assignments class_store)
      (grades class_store) (admin_leaderboard class_store) in
  exists data',
    leaderboard_data_of fromisoformat_reader swapped = Ok data' /\
    map Entry.github_username (rank data') = ["alice"; "bob"].
Proof.
  intros swapped.
  destruct (X22_ranking_ignores_row_order fromisoformat_reader class_store swapped
              (match leaderboard_data_of fromisoformat_reader class_store with
               | Ok data => data
               | Raise _ => []
               end))
    as (data' & Hdata' & Hrank).
  - apply Permutation_rev.
  - reflexivity.
  - reflexivity.
  - apply (bool_decide_unpack _). vm_compute. exact I.
  - vm_compute. reflexivity.
  - exists data'. split; [exact Hdata'|]. rewrite Hrank. vm_compute. reflexivity.
Defined.

(** ** Rows of the grades frame *)



(** ** From the listings to the store *)


